(** * Player ratings: a model of [analyze_players.py]

    The script reads a table of League of Legends player statistics,
    keeps the players with enough games, fills missing statistics with the
    column mean, standardises every statistic, sums the weighted z-scores
    into a composite score, rescales it to 0-100 and prints the twenty best
    players.

    Conventions of the model.

    - A number is a real number ([R]) and [NaN] is a value of its own: the
      model follows the operations the script asks for, one by one, and
      leaves out how a double rounds each of them, overflow and the infinite
      doubles.  The theorems are about missing values, exceptions, what is
      printed and in which order, and about which operations produce a
      value; they stay away from equalities that hold of the real numbers
      only.  Where a statement is about the doubles themselves, the double
      arithmetic of the kernel is used (imputation in double arithmetic,
      below).
    - A table cell as [read_csv] delivers it is a finite number, [NaN] (an
      empty cell, the marker [-] or one of pandas' own markers of missing
      data) or text that does not parse as a number.  The type of a column
      (integers or doubles) is not modelled.
    - [pandas] and [scikit-learn] are modelled by what their entry points
      used in the script do: [to_numeric], [fillna], [mean], boolean row
      selection, [StandardScaler], [MinMaxScaler], [sort_values], [head].
    - [sort_values] sorts with numpy's quicksort.  The report is described
      for every kernel that meets numpy's contract; the kernel of numpy's
      sources is modelled for the order it gives to equal ratings.
    - The script prints and may raise; a run is the list of what was printed
      together with either the exception that ended it or a normal return.
    - [read_csv] is the boundary: the script is given what it returned, a
      table or a failure.

    Main results.

    - Imputation writes the mean of the values present into every gap of a
      statistic; recomputed in doubles, the mean of the filled column can
      differ from it in the last bits.
    - Equal composite scores are all rated 0; the lowest score is rated 0 and
      a higher score never gets a lower rating.
    - What the filter keeps, and what text in the [Games] column does.
    - The shape of the printed report: sorted by rating, cut at twenty rows,
      showing the imputed statistics; equal ratings come out in the order of
      the file for a few players and in another order for eighteen.
    - The runs that end in an exception (a configured statistic that is not a
      column, no [Games] column or text in it, no player with enough games)
      or in NaN (a statistic without any value: its standardised values, the
      composite scores and the ratings).
    - What cleaning and imputation leave of the table, and what the composite
      score of a table without an empty statistic is. *)

From Stdlib Require Import PrimFloat.
From Stdlib Require Uint63.
From Stdlib Require Import String.
From Stdlib Require Import Reals Lra Lia Bool Arith ZArith List.
From Stdlib Require Import Permutation Sorted FunctionalExtensionality.
Import ListNotations.

Local Open Scope string_scope.
Local Open Scope list_scope.
Local Open Scope R_scope.

(** ** Numbers *)

Definition Rleb (x y : R) : bool := if Rle_dec x y then true else false.
Definition Reqb (x y : R) : bool := if Req_dec_T x y then true else false.

Definition Rsum (l : list R) : R := fold_right Rplus 0 l.

(** ** Cells and series *)

Inductive cell : Type :=
| Num (x : R)
| NaN
| Str (s : string).

Definition Series := list cell.

Definition isna (c : cell) : bool :=
  match c with NaN => true | _ => false end.

Definition is_num (c : cell) : bool :=
  match c with Num _ => true | _ => false end.

Definition is_str (c : cell) : bool :=
  match c with Str _ => true | _ => false end.

(** The numbers of a series, in order; [NaN] is skipped, as every reduction
    of pandas and every [nan*] reduction of numpy does.  (Text is skipped
    too: the script reduces only columns it has coerced to numbers.) *)
Fixpoint values (s : Series) : list R :=
  match s with
  | [] => []
  | Num x :: r => x :: values r
  | _ :: r => values r
  end.

(** [pd.to_numeric(s, errors='coerce')]: what does not parse becomes NaN. *)
Definition to_numeric (s : Series) : Series :=
  map (fun c => match c with Str _ => NaN | _ => c end) s.

(** [numpy.nanmean]: the mean of the numbers present, NaN when there is none. *)
Definition nanmean (s : Series) : option R :=
  match values s with
  | [] => None
  | _ :: _ => Some (Rsum (values s) / INR (length (values s)))
  end.

Definition of_option (o : option R) : cell :=
  match o with Some x => Num x | None => NaN end.

(** [Series.mean()], with its default [skipna=True]. *)
Definition Series_mean (s : Series) : cell := of_option (nanmean s).

(** [Series.fillna(value)]. *)
Definition fillna (value : cell) (s : Series) : Series :=
  map (fun c => if isna c then value else c) s.

(** Cell arithmetic: NaN absorbs. *)
Definition cell_add (a b : cell) : cell :=
  match a, b with Num x, Num y => Num (x + y) | _, _ => NaN end.

Definition cell_scale (a : cell) (w : R) : cell :=
  match a with Num x => Num (x * w) | _ => NaN end.

Fixpoint Series_add (a b : Series) : Series :=
  match a, b with
  | x :: a', y :: b' => cell_add x y :: Series_add a' b'
  | _, _ => []
  end.

(** ** Data frames *)

Record DataFrame : Type := mkDataFrame {
  index : list string;
  columns : list (string * Series)
}.

Definition len (df : DataFrame) : nat := length (index df).

(** Every column has one cell per row. *)
Definition well_formed (df : DataFrame) : Prop :=
  Forall (fun kv => length (snd kv) = len df) (columns df).

Fixpoint lookup (c : string) (cols : list (string * Series)) : option Series :=
  match cols with
  | [] => None
  | (k, v) :: r => if String.eqb k c then Some v else lookup c r
  end.

(** [c in df.columns] *)
Definition has_column (c : string) (df : DataFrame) : bool :=
  match lookup c (columns df) with Some _ => true | None => false end.

(** [df[c] = s]: replaces the column in place, or appends a new one. *)
Fixpoint assign (c : string) (s : Series) (cols : list (string * Series))
  : list (string * Series) :=
  match cols with
  | [] => [(c, s)]
  | (k, v) :: r => if String.eqb k c then (k, s) :: r else (k, v) :: assign c s r
  end.

Definition set_column (c : string) (s : Series) (df : DataFrame) : DataFrame :=
  mkDataFrame (index df) (assign c s (columns df)).

(** [df.drop(columns=[c])] *)
Definition drop_column (c : string) (df : DataFrame) : DataFrame :=
  mkDataFrame (index df)
    (filter (fun kv => negb (String.eqb (fst kv) c)) (columns df)).

(** Boolean indexing of an array. *)
Fixpoint compress {A : Type} (mask : list bool) (l : list A) : list A :=
  match mask, l with
  | true :: m, x :: r => x :: compress m r
  | false :: m, _ :: r => compress m r
  | _, _ => []
  end.

(** [df[mask]] *)
Definition select_rows (mask : list bool) (df : DataFrame) : DataFrame :=
  mkDataFrame (compress mask (index df))
    (map (fun kv => (fst kv, compress mask (snd kv))) (columns df)).

(** [df.iloc[indexer]] *)
Definition take (indexer : list nat) (df : DataFrame) : DataFrame :=
  mkDataFrame (map (fun i => nth i (index df) "") indexer)
    (map (fun kv => (fst kv, map (fun i => nth i (snd kv) NaN) indexer))
       (columns df)).

(** [df.head(n)] *)
Definition head (n : nat) (df : DataFrame) : DataFrame :=
  mkDataFrame (firstn n (index df))
    (map (fun kv => (fst kv, firstn n (snd kv))) (columns df)).

(** ** Exceptions and printing *)

Inductive exn : Type :=
| KeyError (label : string)
| TypeError
| ValueError.

Inductive event : Type :=
| PrintLoading
| PrintFileNotFound
| PrintReadError
| PrintWarning (col : string)
| PrintFiltered (removed kept : nat)
| PrintTop20 (table : DataFrame).

(** A computation prints, then raises or returns. *)
Definition Run (A : Type) : Type := (list event * (exn + A))%type.

Definition ret {A : Type} (a : A) : Run A := ([], inr a).

Definition raise {A : Type} (e : exn) : Run A := ([], inl e).

Definition print (ev : event) : Run unit := ([ev], inr tt).

Definition bind {A B : Type} (m : Run A) (k : A -> Run B) : Run B :=
  match m with
  | (out, inl e) => (out, inl e)
  | (out, inr a) => let (out', r) := k a in (out ++ out', r)
  end.

Notation "x <- m ;; k" := (bind m (fun x => k))
  (at level 61, m at next level, right associativity).
Notation "m ;;; k" := (bind m (fun _ => k))
  (at level 61, right associativity).

(** [df[c]]: a missing label raises [KeyError]. *)
Definition get_column (c : string) (df : DataFrame) : Run Series :=
  match lookup c (columns df) with
  | Some s => ret s
  | None => raise (KeyError c)
  end.

(** [df[[c1; ...; cn]]]: the listed columns in the listed order; a label
    that is not a column raises [KeyError]. *)
Fixpoint select_columns (cs : list string) (cols : list (string * Series))
  : exn + list (string * Series) :=
  match cs with
  | [] => inr []
  | c :: r =>
      match lookup c cols with
      | None => inl (KeyError c)
      | Some s =>
          match select_columns r cols with
          | inl e => inl e
          | inr sel => inr ((c, s) :: sel)
          end
      end
  end.

Definition select (cs : list string) (df : DataFrame) : Run DataFrame :=
  match select_columns cs (columns df) with
  | inl e => raise e
  | inr sel => ret (mkDataFrame (index df) sel)
  end.

(** ** scikit-learn *)

(** [numpy.nanvar] with its default [ddof=0]: the squared deviations from the
    mean, divided by the number of values present. *)
Definition nanvar (s : Series) : option R :=
  match nanmean s with
  | None => None
  | Some mu =>
      Some (Rsum (map (fun x => (x - mu) * (x - mu)) (values s))
            / INR (length (values s)))
  end.

(** [_handle_zeros_in_scale]: a zero scale is replaced by one.  (The library
    tests the float against a few units of machine precision; on reals the
    test is equality with zero.) *)
Definition handle_zeros_in_scale (scale : R) : R :=
  if Reqb scale 0 then 1 else scale.

(** One feature through [StandardScaler]: [mean_] and [var_] skip NaN,
    [scale_] is the square root of [var_] with zeros replaced, and the
    transform is [(x - mean_) / scale_]; NaN stays NaN. *)
Definition standard_scale (s : Series) : Series :=
  match nanmean s, nanvar s with
  | Some mean_, Some var_ =>
      let scale_ := handle_zeros_in_scale (sqrt var_) in
      map (fun c => match c with Num x => Num ((x - mean_) / scale_) | _ => NaN end) s
  | _, _ => map (fun _ => NaN) s
  end.

Definition nanmin (s : Series) : option R :=
  match values s with
  | [] => None
  | x :: r => Some (fold_left Rmin r x)
  end.

Definition nanmax (s : Series) : option R :=
  match values s with
  | [] => None
  | x :: r => Some (fold_left Rmax r x)
  end.

(** One feature through [MinMaxScaler(feature_range=(lo, hi))]:
    [scale_ = (hi - lo) / handle_zeros(data_max - data_min)],
    [min_ = lo - data_min * scale_], transform [x * scale_ + min_]. *)
Definition minmax_scale (lo hi : R) (s : Series) : Series :=
  match nanmin s, nanmax s with
  | Some data_min, Some data_max =>
      let data_range := data_max - data_min in
      let scale_ := (hi - lo) / handle_zeros_in_scale data_range in
      let min_ := lo - data_min * scale_ in
      map (fun c => match c with Num x => Num (x * scale_ + min_) | _ => NaN end) s
  | _, _ => map (fun _ => NaN) s
  end.

(** [check_array], as both scalers call it: text cannot be converted to
    float, and at least one sample and one feature are required. *)
Definition check_array (X : DataFrame) : Run unit :=
  if existsb (fun kv => existsb is_str (snd kv)) (columns X) then raise ValueError
  else if Nat.eqb (len X) 0 then raise ValueError
  else if Nat.eqb (length (columns X)) 0 then raise ValueError
  else ret tt.

(** The scalers return a bare array: the transformed columns, in order. *)
Definition StandardScaler_fit_transform (X : DataFrame) : Run (list Series) :=
  check_array X ;;;
  ret (map (fun kv => standard_scale (snd kv)) (columns X)).

Definition MinMaxScaler_fit_transform (lo hi : R) (X : DataFrame)
  : Run (list Series) :=
  check_array X ;;;
  ret (map (fun kv => minmax_scale lo hi (snd kv)) (columns X)).

(** [df.loc[:, :] = array]: the array's columns replace the frame's, by
    position. *)
Definition loc_assign_all (df : DataFrame) (array : list Series) : DataFrame :=
  mkDataFrame (index df) (combine (map fst (columns df)) array).

(** [df[c] = array] for the one-column array a scaler returns. *)
Definition assign_array (c : string) (array : list Series) (df : DataFrame)
  : Run DataFrame :=
  match array with
  | [s] => ret (set_column c s df)
  | _ => raise ValueError
  end.

(** ** Sorting *)

(** Positions of the cells that satisfy [p]. *)
Fixpoint positions (p : cell -> bool) (s : Series) (i : nat) : list nat :=
  match s with
  | [] => []
  | c :: r => if p c then i :: positions p r (S i) else positions p r (S i)
  end.

Section Script.

(** [numpy.argsort] with pandas' default [kind='quicksort'], which the script
    does not override.  numpy promises the indices that sort the array and,
    for this kind, nothing about the order of equal elements (it sorts short
    arrays by insertion and longer ones by introsort or a vectorised sort,
    depending on the build and the processor).  The kernel is therefore a
    parameter of the script, and [argsort_spec] below is numpy's contract. *)
Variable argsort : list R -> list nat.

(** [pandas.core.sorting.nargsort] with [na_position='last']: the numbers
    are sorted (for a descending sort the array is reversed, sorted and the
    result reversed again) and the positions of NaN are appended. *)
Definition nargsort (ascending : bool) (items : Series) : list nat :=
  let nonnan := values items in
  let nonnan_idx := positions is_num items 0 in
  let nan_idx := positions (fun c => negb (is_num c)) items 0 in
  let nonnan' := if ascending then nonnan else rev nonnan in
  let nonnan_idx' := if ascending then nonnan_idx else rev nonnan_idx in
  let indexer := map (fun i => nth i nonnan_idx' 0%nat) (argsort nonnan') in
  let indexer' := if ascending then indexer else rev indexer in
  indexer' ++ nan_idx.

(** [df.sort_values(by=..., ascending=...)] *)
Definition sort_values (by_ : string) (ascending : bool) (df : DataFrame)
  : Run DataFrame :=
  k <- get_column by_ df ;;
  ret (take (nargsort ascending k) df).

(** ** The script *)

Inductive read_csv_result : Type :=
| Loaded (df : DataFrame)
| FileNotFoundError
| OtherException.

Definition min_games : R := 15.

Definition stat_weights : list (string * R) :=
  [ ("Win Rate", 25 / 100); ("KDA", 25 / 100); ("GPM", 15 / 100);
    ("DMG%", 15 / 100); ("GD@15", 10 / 100); ("VSPM", 10 / 100) ].

Definition key_stats : list string := map fst stat_weights.

Definition display_cols : list string :=
  [ "PlayerRating"; "Games"; "Win Rate"; "KDA"; "GPM"; "DMG%" ].

(** [stat_weights.pop(col)]; the script pops keys of the dictionary only. *)
Definition dict_pop (col : string) (w : list (string * R)) : list (string * R) :=
  filter (fun kv => negb (String.eqb (fst kv) col)) w.

(** Lines 51-56: coerce the statistics that are columns, warn about and
    unweight those that are not. *)
Fixpoint coerce_stats (cols : list string) (df : DataFrame)
    (w : list (string * R)) : Run (DataFrame * list (string * R)) :=
  match cols with
  | [] => ret (df, w)
  | col :: rest =>
      match lookup col (columns df) with
      | Some s => coerce_stats rest (set_column col (to_numeric s) df) w
      | None =>
          print (PrintWarning col) ;;;
          coerce_stats rest df (dict_pop col w)
      end
  end.

(** Lines 44-56.  (Line 48 names the index; the name plays no part.) *)
Definition clean_data (df : DataFrame)
  : Run (DataFrame * list (string * R)) :=
  let df1 := if has_column "Unnamed: 1" df then drop_column "Unnamed: 1" df
             else df in
  coerce_stats key_stats df1 stat_weights.

(** [series >= k]: comparing text with a number raises [TypeError];
    NaN compares false. *)
Definition ge_mask (s : Series) (k : R) : list bool :=
  map (fun c => match c with Num x => Rleb k x | _ => false end) s.

Definition ge_scalar (s : Series) (k : R) : Run (list bool) :=
  if existsb is_str s then raise TypeError else ret (ge_mask s k).

(** Lines 61-63. *)
Definition filter_games (df : DataFrame) : Run DataFrame :=
  let original_count := len df in
  games <- get_column "Games" df ;;
  mask <- ge_scalar games min_games ;;
  let df' := select_rows mask df in
  print (PrintFiltered (original_count - len df') (len df')) ;;;
  ret df'.

(** Lines 67-69. *)
Fixpoint impute (cols : list string) (df : DataFrame) : DataFrame :=
  match cols with
  | [] => df
  | col :: rest =>
      match lookup col (columns df) with
      | Some s => impute rest (set_column col (fillna (Series_mean s) s) df)
      | None => impute rest df
      end
  end.

(** Lines 73-75. *)
Definition normalize (df : DataFrame) : Run DataFrame :=
  df_normalized <- select key_stats df ;;
  array <- StandardScaler_fit_transform df_normalized ;;
  ret (loc_assign_all df_normalized array).

(** Lines 80-81. *)
Fixpoint add_weighted (w : list (string * R)) (df_normalized df : DataFrame)
  : Run DataFrame :=
  match w with
  | [] => ret df
  | (col, weight) :: rest =>
      score <- get_column "CompositeScore" df ;;
      z <- get_column col df_normalized ;;
      add_weighted rest df_normalized
        (set_column "CompositeScore"
           (Series_add score (map (fun c => cell_scale c weight) z)) df)
  end.

(** Lines 79-81. *)
Definition composite_score (w : list (string * R))
    (df_normalized df : DataFrame) : Run DataFrame :=
  add_weighted w df_normalized
    (set_column "CompositeScore" (repeat (Num 0) (len df)) df).

(** Lines 85-86. *)
Definition player_rating (df : DataFrame) : Run DataFrame :=
  X <- select ["CompositeScore"] df ;;
  array <- MinMaxScaler_fit_transform 0 100 X ;;
  assign_array "PlayerRating" array df.

(** Lines 90-96. *)
Definition display (df : DataFrame) : Run unit :=
  df_sorted <- sort_values "PlayerRating" false df ;;
  shown <- select display_cols df_sorted ;;
  print (PrintTop20 (head 20 shown)).

(** Lines 40-86: the table with its [CompositeScore] and [PlayerRating]. *)
Definition rate (df : DataFrame) : Run DataFrame :=
  cleaned <- clean_data df ;;
  let (df1, w) := cleaned in
  df2 <- filter_games df1 ;;
  let df3 := impute key_stats df2 in
  df_normalized <- normalize df3 ;;
  df4 <- composite_score w df_normalized df3 ;;
  player_rating df4.

Definition analyze_lol_data (file : read_csv_result) : Run unit :=
  print PrintLoading ;;;
  match file with
  | FileNotFoundError => print PrintFileNotFound
  | OtherException => print PrintReadError
  | Loaded df =>
      rated <- rate df ;;
      display rated
  end.

End Script.

(** ** Sorting kernels *)

(** [a < b] on doubles that are not NaN. *)
Definition Rltb (x y : R) : bool := negb (Rleb y x).

(** *** numpy's quicksort

    [numpy.argsort] with [kind='quicksort'] on doubles, as
    [npysort/quicksort.cpp] ([aquicksort_]) and [npysort/heapsort.cpp]
    ([aheapsort_]) write it: an introsort on the array [tosort] of positions,
    which starts as [0 .. num-1].  [less i j] compares the values at the
    positions [i] and [j]; the loops of the C code take the length of the
    array as fuel. *)

Section Quicksort.

Local Open Scope nat_scope.

Variable less : nat -> nat -> bool.

(** [tosort[p]] and [tosort[p] = x]. *)
Definition load (a : list nat) (p : nat) : nat := nth p a 0.

Fixpoint store (a : list nat) (p x : nat) : list nat :=
  match a, p with
  | [], _ => []
  | _ :: r, O => x :: r
  | y :: r, S p' => y :: store r p' x
  end.

Definition INTP_SWAP (a : list nat) (p q : nat) : list nat :=
  store (store a p (load a q)) q (load a p).

(** [do ++pi; while (less(v[*pi], vp));] *)
Fixpoint scan_up (fuel : nat) (a : list nat) (vp pi : nat) : nat :=
  match fuel with
  | O => pi
  | S f => if less (load a (S pi)) vp then scan_up f a vp (S pi) else S pi
  end.

(** [do --pj; while (less(vp, v[*pj]));] *)
Fixpoint scan_down (fuel : nat) (a : list nat) (vp pj : nat) : nat :=
  match fuel with
  | O => pj
  | S f => if less vp (load a (pj - 1)) then scan_down f a vp (pj - 1) else pj - 1
  end.

(** The [for (;;)] loop of the partition. *)
Fixpoint partition_loop (fuel : nat) (a : list nat) (vp pi pj : nat)
  : list nat * nat :=
  match fuel with
  | O => (a, pi)
  | S f =>
      let pi' := scan_up (length a) a vp pi in
      let pj' := scan_down (length a) a vp pj in
      if pj' <=? pi' then (a, pi')
      else partition_loop f (INTP_SWAP a pi' pj') vp pi' pj'
  end.

(** One partition of [pl .. pr] around the median of three; the pivot ends
    at the position returned. *)
Definition quicksort_partition (a : list nat) (pl pr : nat) : list nat * nat :=
  let pm := pl + (pr - pl) / 2 in
  let a1 := if less (load a pm) (load a pl) then INTP_SWAP a pm pl else a in
  let a2 := if less (load a1 pr) (load a1 pm) then INTP_SWAP a1 pr pm else a1 in
  let a3 := if less (load a2 pm) (load a2 pl) then INTP_SWAP a2 pm pl else a2 in
  let vp := load a3 pm in
  let a4 := INTP_SWAP a3 pm (pr - 1) in
  let '(a5, pi) := partition_loop (length a4) a4 vp pl (pr - 1) in
  (INTP_SWAP a5 pi (pr - 1), pi).

Definition SMALL_QUICKSORT : nat := 16.

(** [while ((pr - pl) > SMALL_QUICKSORT)]: partition, push the larger part
    on the stack, go on with the smaller. *)
Fixpoint partitions (fuel : nat) (a : list nat) (pl pr : nat)
    (stack : list (nat * nat)) (depth : list Z) (cdepth : Z)
  : list nat * nat * nat * list (nat * nat) * list Z * Z :=
  match fuel with
  | O => (a, pl, pr, stack, depth, cdepth)
  | S f =>
      if SMALL_QUICKSORT <? pr - pl then
        let '(a', pi) := quicksort_partition a pl pr in
        if pi - pl <? pr - pi
        then partitions f a' pl (pi - 1) ((S pi, pr) :: stack)
               ((cdepth - 1)%Z :: depth) (cdepth - 1)%Z
        else partitions f a' (S pi) pr ((pl, pi - 1) :: stack)
               ((cdepth - 1)%Z :: depth) (cdepth - 1)%Z
      else (a, pl, pr, stack, depth, cdepth)
  end.

(** The inner loop of the insertion sort:
    [while (pj > pl && less(vp, v[*pk])) *pj-- = *pk--;  *pj = vi;] *)
Fixpoint shift (fuel : nat) (a : list nat) (vi pl pj : nat) : list nat :=
  match fuel with
  | O => store a pj vi
  | S f =>
      if (pl <? pj) && less vi (load a (pj - 1))
      then shift f (store a pj (load a (pj - 1))) vi pl (pj - 1)
      else store a pj vi
  end.

Fixpoint insertions (fuel : nat) (a : list nat) (pl pr pi : nat) : list nat :=
  match fuel with
  | O => a
  | S f =>
      if pi <=? pr
      then insertions f (shift (length a) a (load a pi) pl pi) pl pr (S pi)
      else a
  end.

Definition insertion_sort (a : list nat) (pl pr : nat) : list nat :=
  insertions (length a) a pl pr (S pl).

(** [aheapsort_] on the [n] positions from [off]; the heap is indexed from 1. *)
Definition heap_load (a : list nat) (off k : nat) : nat := load a (off + k - 1).

Definition heap_store (a : list nat) (off k x : nat) : list nat :=
  store a (off + k - 1) x.

Fixpoint sift (fuel : nat) (a : list nat) (off n tmp i j : nat) : list nat :=
  match fuel with
  | O => heap_store a off i tmp
  | S f =>
      if j <=? n then
        let j' := if (j <? n) && less (heap_load a off j) (heap_load a off (j + 1))
                  then j + 1 else j in
        if less tmp (heap_load a off j')
        then sift f (heap_store a off i (heap_load a off j')) off n tmp j' (j' + j')
        else heap_store a off i tmp
      else heap_store a off i tmp
  end.

Fixpoint heapify (fuel : nat) (a : list nat) (off n l : nat) : list nat :=
  match fuel with
  | O => a
  | S f =>
      if 0 <? l
      then heapify f (sift n a off n (heap_load a off l) l (l + l)) off n (l - 1)
      else a
  end.

Fixpoint extract (fuel : nat) (a : list nat) (off n : nat) : list nat :=
  match fuel with
  | O => a
  | S f =>
      if 1 <? n then
        let tmp := heap_load a off n in
        let a' := heap_store a off n (heap_load a off 1) in
        extract f (sift n a' off (n - 1) tmp 1 2) off (n - 1)
      else a
  end.

Definition aheapsort (a : list nat) (off n : nat) : list nat :=
  extract n (heapify n a off n (n / 2)) off n.

(** The outer [while (1)]: heapsort when the depth limit is used up,
    else partitions and an insertion sort, then the next part from the stack. *)
Fixpoint sort_loop (fuel : nat) (a : list nat) (pl pr : nat)
    (stack : list (nat * nat)) (depth : list Z) (cdepth : Z) : list nat :=
  match fuel with
  | O => a
  | S f =>
      let '(a', stack', depth') :=
        if (cdepth <? 0)%Z then (aheapsort a pl (pr - pl + 1), stack, depth)
        else
          let '(a1, pl1, pr1, stack1, depth1, _) :=
            partitions (length a) a pl pr stack depth cdepth in
          (insertion_sort a1 pl1 pr1, stack1, depth1) in
      match stack', depth' with
      | (l, r) :: st, d :: dp => sort_loop f a' l r st dp d
      | _, _ => a'
      end
  end.

Definition aquicksort (num : nat) : list nat :=
  match num with
  | O => []
  | S _ =>
      sort_loop (S num) (seq 0 num) 0 (num - 1) [] []
        (Z.of_nat (Nat.log2 num) * 2)%Z
  end.

End Quicksort.

(** The kernel on an array of doubles without NaN (pandas takes the NaN
    out before it sorts). *)
Definition numpy_argsort (v : list R) : list nat :=
  aquicksort (fun i j => Rltb (nth i v 0) (nth j v 0)) (length v).

(** *** Insertion alone

    An array of at most seventeen numbers never enters the partition loop of
    the quicksort above: it is sorted by insertion, which leaves equal
    numbers in their order.  [stable_argsort] is the stable insertion sort,
    written as the insertion of the positions from the last to the first:
    a position goes in front of the later positions of equal value. *)

Fixpoint insert_by (before : R -> R -> bool) (v : list R) (i : nat)
    (l : list nat) : list nat :=
  match l with
  | [] => [i]
  | j :: r =>
      if before (nth i v 0) (nth j v 0) then i :: j :: r
      else j :: insert_by before v i r
  end.

Definition insertion_argsort (before : R -> R -> bool) (v : list R) : list nat :=
  fold_right (insert_by before v) [] (seq 0 (length v)).

Definition stable_argsort : list R -> list nat := insertion_argsort Rleb.

(** What numpy promises of [argsort]: a permutation of the positions that
    lists the values in nondecreasing order. *)
Definition argsort_spec (argsort : list R -> list nat) : Prop :=
  forall v : list R,
    Permutation (argsort v) (seq 0 (length v)) /\
    Sorted Rle (map (fun i => nth i v 0) (argsort v)).

(** ** Notions the statements use *)

(** The number of missing cells of a series. *)
Definition count_na (s : Series) : nat := length (filter isna s).

(** Mean, variance and standard deviation of a population of N values: the
    sums are divided by N. *)
Definition population_mean (xs : list R) : R := Rsum xs / INR (length xs).

Definition population_variance (xs : list R) : R :=
  Rsum (map (fun x => (x - population_mean xs) * (x - population_mean xs)) xs)
  / INR (length xs).

(** All values of the list are the same. *)
Definition constant (xs : list R) : Prop := exists a : R, Forall (fun x => x = a) xs.

(** A feature-wise affine map of the numbers of a series. *)
Definition map_numbers (f : R -> R) (s : Series) : Series :=
  map (fun c => match c with Num x => Num (f x) | _ => NaN end) s.

(** A column in descending order: the numbers from the largest to the
    smallest, then the cells without a number. *)
Definition descending (s : Series) : Prop :=
  exists (ds : list R) (rest : Series),
    s = map Num ds ++ rest /\
    Sorted Rge ds /\
    Forall (fun c => is_num c = false) rest.

(** The statistics of [cols] that are not columns of [df], in the order of
    [cols]. *)
Definition absent_stats (cols : list string) (df : DataFrame) : list string :=
  filter (fun c => negb (has_column c df)) cols.

(** The numbers of a series whose gaps are read as [m]. *)
Definition fill_with (m : R) (s : Series) : list R :=
  map (fun c => match c with Num x => x | _ => m end) s.

(** ** Imputation in double arithmetic

    The model above computes with real numbers; the script computes with
    doubles.  Line 69 once more, on a column of doubles in which a missing
    cell is the double NaN: [Series.mean] replaces the missing cells by 0,
    adds the cells up and divides by the number of cells present (numpy
    adds fewer than eight numbers one after the other, from the left), and
    [fillna] writes the value into the missing cells. *)





(** ** Concrete tables *)

(** Two players with enough games; the column [VSPM] is not in the file. *)
Definition table_without_vspm : DataFrame :=
  mkDataFrame ["Faker"; "Chovy"]
    [ ("Games", [Num 20; Num 30]);
      ("Win Rate", [Num 60; Num 70]);
      ("KDA", [Num 4; Num 5]);
      ("GPM", [Num 400; Num 420]);
      ("DMG%", [Num 25; Num 28]);
      ("GD@15", [Num 100; Num 200]) ].

(** Two players, both with fewer than fifteen games. *)
Definition table_few_games : DataFrame :=
  mkDataFrame ["Faker"; "Chovy"]
    [ ("Games", [Num 5; Num 10]);
      ("Win Rate", [Num 60; Num 70]);
      ("KDA", [Num 4; Num 5]);
      ("GPM", [Num 400; Num 420]);
      ("DMG%", [Num 25; Num 28]);
      ("GD@15", [Num 100; Num 200]);
      ("VSPM", [Num 1; Num 2]) ].

(** Two players with enough games; [VSPM] is [-] for both. *)
Definition table_vspm_missing : DataFrame :=
  mkDataFrame ["Faker"; "Chovy"]
    [ ("Games", [Num 20; Num 30]);
      ("Win Rate", [Num 60; Num 70]);
      ("KDA", [Num 4; Num 5]);
      ("GPM", [Num 400; Num 420]);
      ("DMG%", [Num 25; Num 28]);
      ("GD@15", [Num 100; Num 200]);
      ("VSPM", [NaN; NaN]) ].

(** Two players with enough games; Chovy's [KDA] is [-]. *)
Definition table_kda_missing : DataFrame :=
  mkDataFrame ["Faker"; "Chovy"]
    [ ("Games", [Num 20; Num 30]);
      ("Win Rate", [Num 60; Num 70]);
      ("KDA", [Num 4; NaN]);
      ("GPM", [Num 400; Num 420]);
      ("DMG%", [Num 25; Num 28]);
      ("GD@15", [Num 100; Num 200]);
      ("VSPM", [Num 1; Num 2]) ].

(** Two players with enough games and the same statistics. *)
Definition table_tied : DataFrame :=
  mkDataFrame ["Faker"; "Chovy"]
    [ ("Games", [Num 20; Num 30]);
      ("Win Rate", [Num 60; Num 60]);
      ("KDA", [Num 4; Num 4]);
      ("GPM", [Num 400; Num 400]);
      ("DMG%", [Num 25; Num 25]);
      ("GD@15", [Num 100; Num 100]);
      ("VSPM", [Num 1; Num 1]) ].

(** Three players; the [Games] cell of the second is text. *)
Definition table_games_text : DataFrame :=
  mkDataFrame ["Faker"; "Chovy"; "Rookie"]
    [ ("Games", [Num 20; Str "unknown"; Num 5]);
      ("Win Rate", [Num 60; Num 70; Num 50]);
      ("KDA", [Num 4; Num 5; Num 3]);
      ("GPM", [Num 400; Num 420; Num 380]);
      ("DMG%", [Num 25; Num 28; Num 22]);
      ("GD@15", [Num 100; Num 200; Num 50]);
      ("VSPM", [Num 1; Num 2; Num 1]) ].

(** Three players, one of them with five games only. *)
Definition table_three : DataFrame :=
  mkDataFrame ["Faker"; "Rookie"; "Chovy"]
    [ ("Games", [Num 20; Num 5; Num 30]);
      ("Win Rate", [Num 60; Num 50; Num 70]);
      ("KDA", [Num 4; Num 3; Num 5]);
      ("GPM", [Num 400; Num 380; Num 420]);
      ("DMG%", [Num 25; Num 22; Num 28]);
      ("GD@15", [Num 100; Num 50; Num 200]);
      ("VSPM", [Num 1; Num 1; Num 2]) ].

(** What the stages make of [table_kda_missing] and of [table_tied], and
    the reports printed for three of the tables. *)

Definition report_vspm_missing : DataFrame :=
  mkDataFrame ["Faker"; "Chovy"]
    [ ("PlayerRating", [NaN; NaN]);
      ("Games", [Num 20; Num 30]);
      ("Win Rate", [Num 60; Num 70]);
      ("KDA", [Num 4; Num 5]);
      ("GPM", [Num 400; Num 420]);
      ("DMG%", [Num 25; Num 28]) ].

Definition imputed_kda_missing : DataFrame :=
  mkDataFrame ["Faker"; "Chovy"]
    [ ("Games", [Num 20; Num 30]);
      ("Win Rate", [Num 60; Num 70]);
      ("KDA", [Num 4; Num 4]);
      ("GPM", [Num 400; Num 420]);
      ("DMG%", [Num 25; Num 28]);
      ("GD@15", [Num 100; Num 200]);
      ("VSPM", [Num 1; Num 2]) ].

Definition normalized_kda_missing : DataFrame :=
  mkDataFrame ["Faker"; "Chovy"]
    [ ("Win Rate", [Num (-1); Num 1]);
      ("KDA", [Num 0; Num 0]);
      ("GPM", [Num (-1); Num 1]);
      ("DMG%", [Num (-1); Num 1]);
      ("GD@15", [Num (-1); Num 1]);
      ("VSPM", [Num (-1); Num 1]) ].

Definition scored_kda_missing : DataFrame :=
  set_column "CompositeScore" [Num (-75 / 100); Num (75 / 100)]
    imputed_kda_missing.

Definition rated_kda_missing : DataFrame :=
  set_column "PlayerRating" [Num 0; Num 100] scored_kda_missing.

Definition report_kda_missing : DataFrame :=
  mkDataFrame ["Chovy"; "Faker"]
    [ ("PlayerRating", [Num 100; Num 0]);
      ("Games", [Num 30; Num 20]);
      ("Win Rate", [Num 70; Num 60]);
      ("KDA", [Num 4; Num 4]);
      ("GPM", [Num 420; Num 400]);
      ("DMG%", [Num 28; Num 25]) ].

Definition normalized_tied : DataFrame :=
  mkDataFrame ["Faker"; "Chovy"]
    [ ("Win Rate", [Num 0; Num 0]);
      ("KDA", [Num 0; Num 0]);
      ("GPM", [Num 0; Num 0]);
      ("DMG%", [Num 0; Num 0]);
      ("GD@15", [Num 0; Num 0]);
      ("VSPM", [Num 0; Num 0]) ].

Definition scored_tied : DataFrame :=
  set_column "CompositeScore" [Num 0; Num 0] table_tied.

Definition rated_tied : DataFrame :=
  set_column "PlayerRating" [Num 0; Num 0] scored_tied.

Definition report_tied_in_order : DataFrame :=
  mkDataFrame ["Faker"; "Chovy"]
    [ ("PlayerRating", [Num 0; Num 0]);
      ("Games", [Num 20; Num 30]);
      ("Win Rate", [Num 60; Num 60]);
      ("KDA", [Num 4; Num 4]);
      ("GPM", [Num 400; Num 400]);
      ("DMG%", [Num 25; Num 25]) ].

(** Two players; the file has neither a [Games] nor a [VSPM] column. *)
Definition table_without_games : DataFrame :=
  mkDataFrame ["Faker"; "Chovy"]
    [ ("Win Rate", [Num 60; Num 70]);
      ("KDA", [Num 4; Num 5]);
      ("GPM", [Num 400; Num 420]);
      ("DMG%", [Num 25; Num 28]);
      ("GD@15", [Num 100; Num 200]) ].

(** What the stages make of [table_vspm_missing]. *)
Definition rated_vspm_missing : DataFrame :=
  set_column "PlayerRating" [NaN; NaN]
    (set_column "CompositeScore" [NaN; NaN] table_vspm_missing).

(** The z-scores of [normalized_kda_missing], by statistic. *)
Definition zscores_kda_missing (c : string) : list R :=
  match lookup c (columns normalized_kda_missing) with
  | Some z => values z
  | None => []
  end.






(** Three players, the first with the lowest composite score. *)
Definition table_scored : DataFrame :=
  mkDataFrame ["Faker"; "Chovy"; "Rookie"]
    [ ("CompositeScore", [Num (-1); Num 2; Num 1]) ].

(** * Evaluating comparisons of concrete reals *)

Lemma Rleb_true (x y : R) : x <= y -> Rleb x y = true.
Proof. intros H. unfold Rleb. destruct (Rle_dec x y); [reflexivity | contradiction]. Qed.

Lemma Rleb_false (x y : R) : y < x -> Rleb x y = false.
Proof. intros H. unfold Rleb. destruct (Rle_dec x y); [lra | reflexivity]. Qed.

Lemma Reqb_true (x y : R) : x = y -> Reqb x y = true.
Proof. intros H. unfold Reqb. destruct (Req_dec_T x y); [reflexivity | contradiction]. Qed.

Lemma Reqb_false (x y : R) : x <> y -> Reqb x y = false.
Proof. intros H. unfold Reqb. destruct (Req_dec_T x y); [contradiction | reflexivity]. Qed.

Lemma Rleb_spec (x y : R) : Rleb x y = true <-> x <= y.
Proof.
  unfold Rleb. destruct (Rle_dec x y); split; intros; try assumption;
    try reflexivity; try discriminate; contradiction.
Qed.

Lemma Reqb_spec (x y : R) : Reqb x y = true <-> x = y.
Proof.
  unfold Reqb. destruct (Req_dec_T x y); split; intros; try assumption;
    try reflexivity; try discriminate; contradiction.
Qed.

Ltac decide_reals :=
  repeat match goal with
    | |- context [Rleb ?a ?b] =>
        first [ rewrite (Rleb_true a b) by lra
              | rewrite (Rleb_false a b) by lra ]
    | |- context [Reqb ?a ?b] =>
        first [ rewrite (Reqb_true a b) by lra
              | rewrite (Reqb_false a b) by lra ]
    end.

(** * Lists of reals *)

Lemma Rsum_const (a : R) (l : list R) :
  Forall (fun x => x = a) l -> Rsum l = INR (length l) * a.
Proof.
  induction 1 as [|x l Hx _ IH].
  - simpl. lra.
  - change (Rsum (x :: l)) with (x + Rsum l).
    change (length (x :: l)) with (S (length l)).
    rewrite S_INR, IH, Hx. lra.
Qed.

Lemma INR_length_pos {A : Type} (l : list A) : l <> [] -> 0 < INR (length l).
Proof.
  destruct l as [|x l]; [congruence|]. intros _.
  apply lt_0_INR. simpl. lia.
Qed.

Lemma mean_const (a : R) (l : list R) :
  l <> [] -> Forall (fun x => x = a) l -> Rsum l / INR (length l) = a.
Proof.
  intros Hne Hall. rewrite (Rsum_const a l Hall).
  pose proof (INR_length_pos l Hne). field. lra.
Qed.

Lemma Rsum_map_zero {A : Type} (f : A -> R) (l : list A) :
  Forall (fun x => f x = 0) l -> Rsum (map f l) = 0.
Proof.
  induction 1 as [|x l Hx _ IH]; simpl; [reflexivity|]. rewrite Hx, IH. lra.
Qed.

(** * Series *)

Lemma nanmean_some (s : Series) :
  values s <> [] ->
  nanmean s = Some (Rsum (values s) / INR (length (values s))).
Proof.
  unfold nanmean. destruct (values s); [congruence | reflexivity].
Qed.

Lemma nanmean_none (s : Series) : values s = [] -> nanmean s = None.
Proof. unfold nanmean. intros ->. reflexivity. Qed.

Lemma values_map_Num (xs : list R) : values (map Num xs) = xs.
Proof. induction xs as [|x xs IH]; simpl; congruence. Qed.

Lemma fillna_NaN (s : Series) : fillna NaN s = s.
Proof.
  induction s as [|c s IH]; simpl; [reflexivity|].
  rewrite IH. destruct c; reflexivity.
Qed.

Lemma fillna_length (v : cell) (s : Series) : length (fillna v s) = length s.
Proof. apply length_map. Qed.

(** * Columns of a frame *)

Lemma lookup_assign_same (c : string) (s : Series) (cols : list (string * Series)) :
  lookup c (assign c s cols) = Some s.
Proof.
  induction cols as [|[k v] cols IH]; simpl.
  - rewrite String.eqb_refl. reflexivity.
  - destruct (String.eqb k c) eqn:E; simpl; rewrite E; [reflexivity | exact IH].
Qed.

Lemma lookup_assign_other (c k : string) (s : Series) (cols : list (string * Series)) :
  k <> c -> lookup k (assign c s cols) = lookup k cols.
Proof.
  intros Hne. induction cols as [|[k' v] cols IH]; simpl.
  - destruct (String.eqb c k) eqn:E; [|reflexivity].
    apply String.eqb_eq in E. congruence.
  - destruct (String.eqb k' c) eqn:E; simpl.
    + apply String.eqb_eq in E. subst k'.
      destruct (String.eqb c k) eqn:E'; [|reflexivity].
      apply String.eqb_eq in E'. congruence.
    + rewrite IH. reflexivity.
Qed.

Lemma lookup_map_snd (f : Series -> Series) (c : string)
    (cols : list (string * Series)) :
  lookup c (map (fun kv => (fst kv, f (snd kv))) cols)
  = option_map f (lookup c cols).
Proof.
  induction cols as [|[k v] cols IH]; simpl; [reflexivity|].
  destruct (String.eqb k c); [reflexivity | exact IH].
Qed.

Lemma lookup_select_columns (cs : list string) (cols sel : list (string * Series))
    (c : string) :
  select_columns cs cols = inr sel ->
  lookup c sel = if existsb (String.eqb c) cs then lookup c cols else None.
Proof.
  revert sel. induction cs as [|c0 cs IH]; simpl; intros sel H.
  - inversion H. reflexivity.
  - destruct (lookup c0 cols) as [s0|] eqn:E0; [|discriminate].
    destruct (select_columns cs cols) as [e|sel'] eqn:E1; [discriminate|].
    inversion H; subst sel. simpl.
    rewrite (String.eqb_sym c c0).
    destruct (String.eqb c0 c) eqn:E; simpl.
    + apply String.eqb_eq in E. subst c0. symmetry. exact E0.
    + apply IH. reflexivity.
Qed.

Lemma select_columns_names (cs : list string) (cols sel : list (string * Series)) :
  select_columns cs cols = inr sel -> map fst sel = cs.
Proof.
  revert sel. induction cs as [|c0 cs IH]; simpl; intros sel H.
  - inversion H. reflexivity.
  - destruct (lookup c0 cols) as [s0|]; [|discriminate].
    destruct (select_columns cs cols) as [e|sel'] eqn:E1; [discriminate|].
    inversion H; subst sel. simpl. f_equal. apply IH. reflexivity.
Qed.

Lemma existsb_eqb_In (c : string) (cs : list string) :
  In c cs -> existsb (String.eqb c) cs = true.
Proof.
  intros H. apply existsb_exists. exists c. split; [exact H|].
  apply String.eqb_refl.
Qed.

(** * Well-formed frames *)

Lemma lookup_In (c : string) (cols : list (string * Series)) (s : Series) :
  lookup c cols = Some s -> exists k, In (k, s) cols.
Proof.
  induction cols as [|[k v] cols IH]; simpl; [discriminate|].
  destruct (String.eqb k c).
  - intros H. inversion H; subst. exists k. left. reflexivity.
  - intros H. destruct (IH H) as [k' Hk']. exists k'. right. exact Hk'.
Qed.

Lemma well_formed_lookup (df : DataFrame) (c : string) (s : Series) :
  well_formed df -> lookup c (columns df) = Some s -> length s = len df.
Proof.
  intros Hwf Hs. destruct (lookup_In _ _ _ Hs) as [k Hk].
  unfold well_formed in Hwf. rewrite Forall_forall in Hwf.
  apply (Hwf (k, s) Hk).
Qed.

Lemma Forall_assign (P : string * Series -> Prop) (c : string) (s : Series)
    (cols : list (string * Series)) :
  (forall k, P (k, s)) -> Forall P cols -> Forall P (assign c s cols).
Proof.
  intros Hs. induction 1 as [|[k v] cols Hkv Hcols IH]; simpl.
  - constructor; [apply Hs | constructor].
  - destruct (String.eqb k c).
    + constructor; [apply Hs | exact Hcols].
    + constructor; [exact Hkv | exact IH].
Qed.

Lemma well_formed_set_column (df : DataFrame) (c : string) (s : Series) :
  well_formed df -> length s = len df -> well_formed (set_column c s df).
Proof.
  intros Hwf Hlen. unfold well_formed, set_column. simpl.
  apply Forall_assign; [intros k; exact Hlen | exact Hwf].
Qed.

Lemma well_formed_drop_column (df : DataFrame) (c : string) :
  well_formed df -> well_formed (drop_column c df).
Proof.
  unfold well_formed, drop_column, len. simpl. intros Hwf.
  rewrite Forall_forall in *. intros kv Hin.
  apply filter_In in Hin. apply Hwf. tauto.
Qed.

Lemma compress_length {A B : Type} (m : list bool) (l : list A) (l' : list B) :
  length l = length l' -> length (compress m l) = length (compress m l').
Proof.
  revert l l'. induction m as [|b m IH]; intros l l' H; [reflexivity|].
  destruct l as [|x l], l' as [|y l']; simpl in H; try discriminate.
  - destruct b; reflexivity.
  - injection H as H. destruct b; simpl; rewrite (IH l l' H); reflexivity.
Qed.

Lemma well_formed_select_rows (mask : list bool) (df : DataFrame) :
  well_formed df -> well_formed (select_rows mask df).
Proof.
  unfold well_formed, select_rows, len. simpl. intros Hwf.
  rewrite Forall_forall in *. intros kv Hin.
  apply in_map_iff in Hin as ([k v] & <- & Hin). simpl.
  apply compress_length. apply (Hwf (k, v) Hin).
Qed.

Lemma lookup_select_rows (mask : list bool) (df : DataFrame) (c : string) :
  lookup c (columns (select_rows mask df))
  = option_map (compress mask) (lookup c (columns df)).
Proof. unfold select_rows. simpl. apply lookup_map_snd. Qed.

Lemma lookup_drop_other (c k : string) (df : DataFrame) :
  k <> c -> lookup k (columns (drop_column c df)) = lookup k (columns df).
Proof.
  intros Hne. unfold drop_column. simpl.
  induction (columns df) as [|[k' v] cols IH]; simpl; [reflexivity|].
  destruct (String.eqb k' c) eqn:E; simpl.
  - apply String.eqb_eq in E. subst k'.
    destruct (String.eqb c k) eqn:E'; [|exact IH].
    apply String.eqb_eq in E'. congruence.
  - destruct (String.eqb k' k); [reflexivity | exact IH].
Qed.

(** * Runs *)

Lemma bind_returns {A B : Type} (m : Run A) (k : A -> Run B)
    (out : list event) (b : B) :
  bind m k = (out, inr b) ->
  exists out1 a out2,
    m = (out1, inr a) /\ k a = (out2, inr b) /\ out = out1 ++ out2.
Proof.
  unfold bind. destruct m as [out1 [e|a]]; [discriminate|].
  destruct (k a) as [out2 r] eqn:E. intros H. inversion H; subst.
  exists out1, a, out2. split; [reflexivity|]. split; [exact E | reflexivity].
Qed.

Lemma get_column_returns (c : string) (df : DataFrame) (out : list event)
    (s : Series) :
  get_column c df = (out, inr s) ->
  lookup c (columns df) = Some s /\ out = [].
Proof.
  unfold get_column. destruct (lookup c (columns df)); intros H;
    inversion H; subst; split; reflexivity.
Qed.

Lemma select_returns (cs : list string) (df X : DataFrame) (out : list event) :
  select cs df = (out, inr X) ->
  select_columns cs (columns df) = inr (columns X) /\
  index X = index df /\ out = [].
Proof.
  unfold select. destruct (select_columns cs (columns df)) as [e|sel];
    intros H; inversion H; subst; repeat split; reflexivity.
Qed.

(** * Imputation (lines 67-69) *)

Lemma key_stats_NoDup : NoDup key_stats.
Proof.
  unfold key_stats, stat_weights. simpl.
  repeat constructor; simpl; intuition discriminate.
Qed.

Lemma impute_index (cols : list string) (df : DataFrame) :
  index (impute cols df) = index df.
Proof.
  revert df. induction cols as [|c cols IH]; intros df; simpl; [reflexivity|].
  destruct (lookup c (columns df)); rewrite IH; reflexivity.
Qed.

Lemma impute_lookup_other (cols : list string) (df : DataFrame) (c : string) :
  ~ In c cols ->
  lookup c (columns (impute cols df)) = lookup c (columns df).
Proof.
  revert df. induction cols as [|c0 cols IH]; intros df Hnin; simpl.
  - reflexivity.
  - assert (Hne : c <> c0) by (intros ->; apply Hnin; left; reflexivity).
    assert (Hnin' : ~ In c cols) by (intros H; apply Hnin; right; exact H).
    destruct (lookup c0 (columns df)) as [s0|].
    + rewrite (IH _ Hnin'). simpl. apply lookup_assign_other. exact Hne.
    + apply IH. exact Hnin'.
Qed.

Lemma impute_lookup (cols : list string) (df : DataFrame) (c : string)
    (s : Series) :
  NoDup cols -> In c cols -> lookup c (columns df) = Some s ->
  lookup c (columns (impute cols df)) = Some (fillna (Series_mean s) s).
Proof.
  revert df. induction cols as [|c0 cols IH]; intros df Hnd Hin Hs.
  - destruct Hin.
  - inversion Hnd as [|? ? Hnotin Hnd']; subst. simpl.
    destruct Hin as [->|Hin].
    + rewrite Hs. rewrite (impute_lookup_other _ _ _ Hnotin). simpl.
      apply lookup_assign_same.
    + assert (Hne : c <> c0) by (intros ->; contradiction).
      destruct (lookup c0 (columns df)) as [s0|].
      * apply IH; [exact Hnd' | exact Hin |].
        simpl. rewrite (lookup_assign_other _ _ _ _ Hne). exact Hs.
      * apply IH; assumption.
Qed.

(** * The standard scaler on a feature *)

Lemma population_mean_constant (a : R) (xs : list R) :
  xs <> [] -> Forall (fun x => x = a) xs -> population_mean xs = a.
Proof. apply mean_const. Qed.

Lemma population_variance_constant (xs : list R) :
  xs <> [] -> constant xs -> population_variance xs = 0.
Proof.
  intros Hne [a Ha]. unfold population_variance.
  rewrite (population_mean_constant a xs Hne Ha).
  rewrite Rsum_map_zero.
  - unfold Rdiv. apply Rmult_0_l.
  - eapply Forall_impl; [|exact Ha]. simpl. intros x ->. lra.
Qed.

Lemma handle_zeros_in_scale_zero : handle_zeros_in_scale 0 = 1.
Proof. unfold handle_zeros_in_scale. rewrite Reqb_true; reflexivity. Qed.

Lemma handle_zeros_in_scale_nonzero (r : R) :
  r <> 0 -> handle_zeros_in_scale r = r.
Proof. intros H. unfold handle_zeros_in_scale. rewrite Reqb_false; auto. Qed.

(** The scale of [StandardScaler]: one for a constant feature, the
    population standard deviation otherwise. *)
Lemma standard_scale_divisor_constant (xs : list R) :
  xs <> [] -> constant xs ->
  handle_zeros_in_scale (sqrt (population_variance xs)) = 1.
Proof.
  intros Hne Hc. rewrite (population_variance_constant xs Hne Hc), sqrt_0.
  apply handle_zeros_in_scale_zero.
Qed.

Lemma standard_scale_unfold (s : Series) :
  values s <> [] ->
  standard_scale s =
  map_numbers (fun x => (x - population_mean (values s))
                        / handle_zeros_in_scale (sqrt (population_variance (values s)))) s.
Proof.
  intros Hne. unfold standard_scale, nanvar.
  rewrite (nanmean_some s Hne). reflexivity.
Qed.

Lemma standard_scale_all_missing (s : Series) :
  values s = [] -> standard_scale s = map (fun _ => NaN) s.
Proof.
  intros H. unfold standard_scale. rewrite (nanmean_none s H). reflexivity.
Qed.

(** * Standardisation (lines 73-75) *)

Lemma combine_map_fst (f : Series -> Series) (cols : list (string * Series)) :
  combine (map fst cols) (map (fun kv => f (snd kv)) cols)
  = map (fun kv => (fst kv, f (snd kv))) cols.
Proof. induction cols as [|[k v] cols IH]; simpl; congruence. Qed.

Lemma check_array_returns (X : DataFrame) (out : list event) (u : unit) :
  check_array X = (out, inr u) ->
  out = [] /\ len X <> 0%nat /\
  existsb (fun kv => existsb is_str (snd kv)) (columns X) = false.
Proof.
  unfold check_array.
  destruct (existsb (fun kv => existsb is_str (snd kv)) (columns X));
    [discriminate|].
  destruct (Nat.eqb (len X) 0) eqn:E; [discriminate|].
  destruct (Nat.eqb (length (columns X)) 0); [discriminate|].
  intros H. inversion H. apply Nat.eqb_neq in E. auto.
Qed.

Lemma select_columns_present (cs : list string) (cols sel : list (string * Series))
    (c : string) :
  select_columns cs cols = inr sel -> In c cs ->
  exists s, lookup c cols = Some s.
Proof.
  revert sel. induction cs as [|c0 cs IH]; intros sel Hsel Hin.
  - destruct Hin.
  - simpl in Hsel.
    destruct (lookup c0 cols) as [s0|] eqn:E0; [|discriminate].
    destruct (select_columns cs cols) as [e|sel'] eqn:E'; [discriminate|].
    destruct Hin as [->|Hin].
    + exists s0. exact E0.
    + apply (IH sel'); [reflexivity | exact Hin].
Qed.

Lemma select_columns_sound (cs : list string) (cols sel : list (string * Series)) :
  select_columns cs cols = inr sel ->
  Forall (fun kv => lookup (fst kv) cols = Some (snd kv)) sel.
Proof.
  revert sel. induction cs as [|c0 cs IH]; simpl; intros sel H.
  - inversion H. constructor.
  - destruct (lookup c0 cols) as [s0|] eqn:E0; [|discriminate].
    destruct (select_columns cs cols) as [e|sel'] eqn:E1; [discriminate|].
    inversion H; subst sel. constructor; [exact E0 | apply IH; reflexivity].
Qed.

Lemma standard_scale_length (s : Series) : length (standard_scale s) = length s.
Proof.
  unfold standard_scale. destruct (nanmean s), (nanvar s); apply length_map.
Qed.

Lemma minmax_scale_length (lo hi : R) (s : Series) :
  length (minmax_scale lo hi s) = length s.
Proof.
  unfold minmax_scale. destruct (nanmin s), (nanmax s); apply length_map.
Qed.

Lemma normalize_returns (df dfn : DataFrame) (out : list event) :
  normalize df = (out, inr dfn) ->
  out = [] /\ index dfn = index df /\ len df <> 0%nat /\
  (forall col, In col key_stats ->
    exists s, lookup col (columns df) = Some s /\
              lookup col (columns dfn) = Some (standard_scale s)) /\
  (well_formed df -> well_formed dfn).
Proof.
  unfold normalize. intros H.
  apply bind_returns in H as (o1 & X & o2 & HX & H & ->).
  apply select_returns in HX as (Hsel & Hidx & ->).
  apply bind_returns in H as (o3 & array & o4 & Harr & H & ->).
  unfold StandardScaler_fit_transform in Harr.
  apply bind_returns in Harr as (o5 & u & o6 & Hchk & Harr & ->).
  apply check_array_returns in Hchk as (-> & Hlen & _).
  inversion Harr; subst o6 array. inversion H; subst o4 dfn.
  unfold loc_assign_all. cbn [columns index app].
  split; [reflexivity|]. split; [exact Hidx|].
  split; [unfold len in *; rewrite <- Hidx; exact Hlen|].
  split.
  - intros col Hin.
    rewrite combine_map_fst, lookup_map_snd.
    rewrite (lookup_select_columns _ _ _ col Hsel), (existsb_eqb_In _ _ Hin).
    destruct (select_columns_present _ _ _ col Hsel Hin) as [s Es].
    exists s. rewrite Es. split; reflexivity.
  - intros Hwf. unfold well_formed, len. cbn [columns index].
    rewrite combine_map_fst. apply Forall_map.
    pose proof (select_columns_sound _ _ _ Hsel) as Hsound.
    eapply Forall_impl; [|exact Hsound].
    intros [k v] Hkv. cbn [fst snd] in *.
    rewrite standard_scale_length, Hidx.
    apply (well_formed_lookup df k v Hwf Hkv).
Qed.

(** * Rescaling (lines 85-86) *)

Lemma fold_left_Rmin_le_init (r : list R) (x : R) : fold_left Rmin r x <= x.
Proof.
  revert x. induction r as [|y r IH]; intros x; simpl; [lra|].
  pose proof (IH (Rmin x y)). pose proof (Rmin_l x y). lra.
Qed.

Lemma fold_left_Rmin_le (r : list R) (x y : R) :
  In y r -> fold_left Rmin r x <= y.
Proof.
  revert x. induction r as [|y0 r IH]; intros x Hin; simpl; [destruct Hin|].
  destruct Hin as [->|Hin].
  - pose proof (fold_left_Rmin_le_init r (Rmin x y)). pose proof (Rmin_r x y). lra.
  - apply IH. exact Hin.
Qed.

Lemma fold_left_Rmin_In (r : list R) (x : R) : In (fold_left Rmin r x) (x :: r).
Proof.
  revert x. induction r as [|y r IH]; intros x; simpl; [left; reflexivity|].
  destruct (IH (Rmin x y)) as [H|H]; [|right; right; exact H].
  rewrite <- H.
  destruct (Rle_dec x y) as [Hle|Hgt].
  - left. symmetry. apply Rmin_left. exact Hle.
  - right; left. symmetry. apply Rmin_right. lra.
Qed.

Lemma fold_left_Rmax_ge_init (r : list R) (x : R) : x <= fold_left Rmax r x.
Proof.
  revert x. induction r as [|y r IH]; intros x; simpl; [lra|].
  pose proof (IH (Rmax x y)). pose proof (Rmax_l x y). lra.
Qed.

Lemma fold_left_Rmax_ge (r : list R) (x y : R) :
  In y r -> y <= fold_left Rmax r x.
Proof.
  revert x. induction r as [|y0 r IH]; intros x Hin; simpl; [destruct Hin|].
  destruct Hin as [->|Hin].
  - pose proof (fold_left_Rmax_ge_init r (Rmax x y)). pose proof (Rmax_r x y). lra.
  - apply IH. exact Hin.
Qed.

Lemma fold_left_Rmax_In (r : list R) (x : R) : In (fold_left Rmax r x) (x :: r).
Proof.
  revert x. induction r as [|y r IH]; intros x; simpl; [left; reflexivity|].
  destruct (IH (Rmax x y)) as [H|H]; [|right; right; exact H].
  rewrite <- H.
  destruct (Rle_dec x y) as [Hle|Hgt].
  - right; left. symmetry. apply Rmax_right. exact Hle.
  - left. symmetry. apply Rmax_left. lra.
Qed.

(** The smallest and the largest number of a series. *)
Lemma nanmin_spec (s : Series) (m : R) :
  nanmin s = Some m ->
  In m (values s) /\ forall x, In x (values s) -> m <= x.
Proof.
  unfold nanmin. destruct (values s) as [|x0 r]; [discriminate|].
  intros H. inversion H; subst m. split.
  - apply fold_left_Rmin_In.
  - intros x [->|Hin].
    + apply fold_left_Rmin_le_init.
    + apply fold_left_Rmin_le. exact Hin.
Qed.

Lemma nanmax_spec (s : Series) (m : R) :
  nanmax s = Some m ->
  In m (values s) /\ forall x, In x (values s) -> x <= m.
Proof.
  unfold nanmax. destruct (values s) as [|x0 r]; [discriminate|].
  intros H. inversion H; subst m. split.
  - apply fold_left_Rmax_In.
  - intros x [->|Hin].
    + apply fold_left_Rmax_ge_init.
    + apply fold_left_Rmax_ge. exact Hin.
Qed.

Lemma nanmin_nanmax_some (s : Series) :
  values s <> [] -> exists mn mx, nanmin s = Some mn /\ nanmax s = Some mx.
Proof.
  unfold nanmin, nanmax. destruct (values s) as [|x r]; [congruence|].
  intros _. eexists. eexists. split; reflexivity.
Qed.

Lemma minmax_scale_unfold (lo hi mn mx : R) (s : Series) :
  nanmin s = Some mn -> nanmax s = Some mx ->
  minmax_scale lo hi s =
  map_numbers (fun x => x * ((hi - lo) / handle_zeros_in_scale (mx - mn))
                        + (lo - mn * ((hi - lo) / handle_zeros_in_scale (mx - mn)))) s.
Proof. intros Hmn Hmx. unfold minmax_scale. rewrite Hmn, Hmx. reflexivity. Qed.

Lemma minmax_scale_all_missing (lo hi : R) (s : Series) :
  values s = [] -> minmax_scale lo hi s = map (fun _ => NaN) s.
Proof.
  intros H. unfold minmax_scale, nanmin. rewrite H. reflexivity.
Qed.

Lemma map_numbers_ext_in (f g : R -> R) (s : Series) :
  (forall x, In x (values s) -> f x = g x) -> map_numbers f s = map_numbers g s.
Proof.
  induction s as [|c s IH]; simpl; intros H; [reflexivity|].
  destruct c as [x| |t]; simpl in H.
  - rewrite (H x) by (left; reflexivity).
    rewrite IH by (intros y Hy; apply H; right; exact Hy). reflexivity.
  - rewrite IH by exact H. reflexivity.
  - rewrite IH by exact H. reflexivity.
Qed.

(** When all the numbers of a series are equal, every one of them is sent to
    the lower end of the range. *)
Lemma minmax_scale_constant (lo hi a : R) (s : Series) :
  values s <> [] -> Forall (fun x => x = a) (values s) ->
  minmax_scale lo hi s = map_numbers (fun _ => lo) s.
Proof.
  intros Hne Hall.
  destruct (nanmin_nanmax_some s Hne) as (mn & mx & Hmn & Hmx).
  rewrite (minmax_scale_unfold lo hi mn mx s Hmn Hmx).
  rewrite Forall_forall in Hall.
  assert (Emn : mn = a) by (apply Hall; apply (nanmin_spec s mn Hmn)).
  assert (Emx : mx = a) by (apply Hall; apply (nanmax_spec s mx Hmx)).
  subst mn mx.
  replace (a - a) with 0 by lra. rewrite handle_zeros_in_scale_zero.
  apply map_numbers_ext_in. intros x Hx. rewrite (Hall x Hx). lra.
Qed.

Lemma values_all_Num (a : R) (s : Series) :
  Forall (fun c => c = Num a) s -> Forall (fun x => x = a) (values s).
Proof.
  induction 1 as [|c s Hc _ IH]; simpl; [constructor|].
  subst c. constructor; [reflexivity | exact IH].
Qed.

Lemma no_text_all_Num (a : R) (s : Series) :
  Forall (fun c => c = Num a) s -> existsb is_str s = false.
Proof.
  induction 1 as [|c s Hc _ IH]; simpl; [reflexivity|]. subst c. exact IH.
Qed.

Lemma map_numbers_all_Num (f : R -> R) (a : R) (s : Series) :
  Forall (fun c => c = Num a) s ->
  map_numbers f s = map (fun _ => Num (f a)) s.
Proof.
  induction 1 as [|c s Hc _ IH]; simpl; [reflexivity|]. subst c.
  f_equal. exact IH.
Qed.

(** What [player_rating] does when it returns. *)
Lemma player_rating_returns (df rated : DataFrame) (out : list event) :
  player_rating df = (out, inr rated) ->
  exists cs,
    lookup "CompositeScore" (columns df) = Some cs /\
    rated = set_column "PlayerRating" (minmax_scale 0 100 cs) df /\
    out = [] /\ len df <> 0%nat.
Proof.
  unfold player_rating. intros H.
  apply bind_returns in H as (o1 & X & o2 & HX & H & ->).
  apply select_returns in HX as (Hsel & Hidx & ->).
  apply bind_returns in H as (o3 & array & o4 & Harr & H & ->).
  unfold MinMaxScaler_fit_transform in Harr.
  apply bind_returns in Harr as (o5 & u & o6 & Hchk & Harr & ->).
  apply check_array_returns in Hchk as (-> & Hlen & _).
  simpl in Hsel.
  destruct (lookup "CompositeScore" (columns df)) as [cs|]; [|discriminate].
  inversion Hsel as [Hcols]. inversion Harr; subst o6 array.
  rewrite <- Hcols in H. simpl in H. inversion H; subst.
  exists cs. repeat split.
  unfold len in *. rewrite <- Hidx. exact Hlen.
Qed.

Lemma player_rating_runs (df : DataFrame) (cs : Series) :
  lookup "CompositeScore" (columns df) = Some cs ->
  existsb is_str cs = false ->
  len df <> 0%nat ->
  player_rating df
  = ([], inr (set_column "PlayerRating" (minmax_scale 0 100 cs) df)).
Proof.
  intros Hcs Hstr Hlen. unfold player_rating, select. simpl.
  rewrite Hcs. simpl.
  unfold MinMaxScaler_fit_transform, check_array. simpl.
  rewrite Hstr. simpl.
  apply Nat.eqb_neq in Hlen. unfold len in *. simpl. rewrite Hlen. reflexivity.
Qed.

(** C10. If every record of a non-empty table has the same composite score,
    the rescaling returns (its divisor is 1, not the zero range) and gives
    every record the rating 0, the lower end of the range. *)
Theorem constant_score_rating (df : DataFrame) (cs : Series) (a : R) :
  lookup "CompositeScore" (columns df) = Some cs ->
  Forall (fun c => c = Num a) cs ->
  len df <> 0%nat ->
  (cs <> [] -> nanmin cs = Some a /\ nanmax cs = Some a /\
               handle_zeros_in_scale (a - a) = 1) /\
  player_rating df
  = ([], inr (set_column "PlayerRating" (map (fun _ => Num 0) cs) df)).
Proof.
  intros Hcs Hall Hlen. split.
  - intros Hne.
    assert (Hv : values cs <> []).
    { destruct Hall as [|c s Hc _]; [congruence|]. subst c. simpl. discriminate. }
    destruct (nanmin_nanmax_some cs Hv) as (mn & mx & Hmn & Hmx).
    pose proof (values_all_Num a cs Hall) as Hvals.
    rewrite Forall_forall in Hvals.
    assert (Emn : mn = a) by (apply Hvals; apply (nanmin_spec cs mn Hmn)).
    assert (Emx : mx = a) by (apply Hvals; apply (nanmax_spec cs mx Hmx)).
    subst mn mx. repeat split; try assumption.
    replace (a - a) with 0 by lra. apply handle_zeros_in_scale_zero.
  - rewrite (player_rating_runs df cs Hcs (no_text_all_Num a cs Hall) Hlen).
    destruct cs as [|c cs']; [reflexivity|].
    rewrite (minmax_scale_constant 0 100 a (c :: cs')).
    + rewrite (map_numbers_all_Num _ a _ Hall). reflexivity.
    + inversion Hall; subst. simpl. discriminate.
    + apply values_all_Num. exact Hall.
Qed.

(** * Cleaning (lines 44-56) *)

Lemma to_numeric_idempotent (s : Series) : to_numeric (to_numeric s) = to_numeric s.
Proof.
  unfold to_numeric. rewrite map_map. apply map_ext. intros [x| |t]; reflexivity.
Qed.

Lemma to_numeric_no_text (s : Series) : existsb is_str (to_numeric s) = false.
Proof.
  induction s as [|c s IH]; simpl; [reflexivity|].
  destruct c; simpl; exact IH.
Qed.

Lemma to_numeric_length (s : Series) : length (to_numeric s) = length s.
Proof. apply length_map. Qed.

(** The loop of lines 51-56 never raises; it leaves the rows alone, coerces
    the listed columns that exist and creates no column. *)
Lemma coerce_stats_spec (cols : list string) (df : DataFrame)
    (w : list (string * R)) :
  exists out df' w',
    coerce_stats cols df w = (out, inr (df', w')) /\
    index df' = index df /\
    (well_formed df -> well_formed df') /\
    (forall c, In c cols -> lookup c (columns df) = None -> In (PrintWarning c) out) /\
    forall c,
      lookup c (columns df') =
      if existsb (String.eqb c) cols
      then option_map to_numeric (lookup c (columns df))
      else lookup c (columns df).
Proof.
  revert df w. induction cols as [|col rest IH]; intros df w.
  - exists [], df, w. simpl. repeat split; auto; intros c [].
  - simpl. destruct (lookup col (columns df)) as [s|] eqn:E.
    + destruct (IH (set_column col (to_numeric s) df) w)
        as (out & df' & w' & Hrun & Hidx & Hwf & Hwarn & Hcols).
      exists out, df', w'. split; [exact Hrun|]. split; [exact Hidx|].
      split.
      { intros H. apply Hwf. apply well_formed_set_column; [exact H|].
        rewrite to_numeric_length. apply (well_formed_lookup df col s H E). }
      split.
      { intros c [<-|Hin] Hnone; [congruence|].
        apply Hwarn; [exact Hin|]. simpl.
        destruct (String.eqb col c) eqn:Ec.
        - apply String.eqb_eq in Ec. congruence.
        - apply String.eqb_neq in Ec.
          rewrite lookup_assign_other by congruence. exact Hnone. }
      intros c. rewrite Hcols. simpl.
      destruct (String.eqb c col) eqn:Ec.
      * apply String.eqb_eq in Ec. subst c. simpl.
        rewrite lookup_assign_same, E. simpl.
        destruct (existsb (String.eqb col) rest); simpl;
          rewrite ?to_numeric_idempotent; reflexivity.
      * apply String.eqb_neq in Ec. simpl.
        rewrite (lookup_assign_other _ _ _ _ Ec). reflexivity.
    + destruct (IH df (dict_pop col w))
        as (out & df' & w' & Hrun & Hidx & Hwf & Hwarn & Hcols).
      exists (PrintWarning col :: out), df', w'.
      split; [unfold bind, print; rewrite Hrun; reflexivity|].
      split; [exact Hidx|]. split; [exact Hwf|]. split.
      { intros c [<-|Hin] Hnone; [left; reflexivity|].
        right. apply Hwarn; assumption. }
      intros c. rewrite Hcols.
      destruct (String.eqb c col) eqn:Ec; [|reflexivity].
      apply String.eqb_eq in Ec. subst c. rewrite E. simpl.
      destruct (existsb (String.eqb col) rest); reflexivity.
Qed.

Lemma clean_data_spec (df : DataFrame) :
  exists out cleaned w,
    clean_data df = (out, inr (cleaned, w)) /\
    index cleaned = index df /\
    (well_formed df -> well_formed cleaned) /\
    (forall c, In c key_stats -> lookup c (columns df) = None ->
               In (PrintWarning c) out) /\
    forall c, c <> "Unnamed: 1" ->
      lookup c (columns cleaned) =
      if existsb (String.eqb c) key_stats
      then option_map to_numeric (lookup c (columns df))
      else lookup c (columns df).
Proof.
  unfold clean_data.
  set (df1 := if has_column "Unnamed: 1" df then drop_column "Unnamed: 1" df else df).
  assert (Hidx1 : index df1 = index df)
    by (unfold df1; destruct (has_column "Unnamed: 1" df); reflexivity).
  assert (Hwf1 : well_formed df -> well_formed df1).
  { unfold df1. destruct (has_column "Unnamed: 1" df); auto.
    apply well_formed_drop_column. }
  assert (Hcols1 : forall c, c <> "Unnamed: 1" ->
                     lookup c (columns df1) = lookup c (columns df)).
  { intros c Hc. unfold df1. destruct (has_column "Unnamed: 1" df); auto.
    apply lookup_drop_other. exact Hc. }
  destruct (coerce_stats_spec key_stats df1 stat_weights)
    as (out & df' & w' & Hrun & Hidx & Hwf & Hwarn & Hcols).
  exists out, df', w'. split; [exact Hrun|].
  split; [congruence|]. split; [auto|]. split.
  - intros c Hin Hnone. apply Hwarn; [exact Hin|].
    rewrite Hcols1; [exact Hnone|].
    intros ->. unfold key_stats, stat_weights in Hin. simpl in Hin.
    intuition discriminate.
  - intros c Hc. rewrite Hcols, (Hcols1 c Hc). reflexivity.
Qed.

(** * Filtering (lines 61-63) *)

Lemma filter_games_numeric (df : DataFrame) (g : Series) :
  lookup "Games" (columns df) = Some g ->
  existsb is_str g = false ->
  let kept := select_rows (ge_mask g min_games) df in
  filter_games df = ([PrintFiltered (len df - len kept) (len kept)], inr kept).
Proof.
  intros Hg Hstr. unfold filter_games, get_column, ge_scalar.
  rewrite Hg. simpl. rewrite Hstr. reflexivity.
Qed.

Lemma filter_games_text (df : DataFrame) (g : Series) :
  lookup "Games" (columns df) = Some g ->
  existsb is_str g = true ->
  filter_games df = ([], inl TypeError).
Proof.
  intros Hg Hstr. unfold filter_games, get_column, ge_scalar.
  rewrite Hg. simpl. rewrite Hstr. reflexivity.
Qed.

Lemma filter_games_no_column (df : DataFrame) :
  lookup "Games" (columns df) = None ->
  filter_games df = ([], inl (KeyError "Games")).
Proof.
  intros Hg. unfold filter_games, get_column. rewrite Hg. reflexivity.
Qed.

Lemma filter_games_returns (df kept : DataFrame) (out : list event) :
  filter_games df = (out, inr kept) ->
  exists g,
    lookup "Games" (columns df) = Some g /\
    existsb is_str g = false /\
    kept = select_rows (ge_mask g min_games) df /\
    out = [PrintFiltered (len df - len kept) (len kept)].
Proof.
  intros H. destruct (lookup "Games" (columns df)) as [g|] eqn:Hg.
  - destruct (existsb is_str g) eqn:Hstr.
    + rewrite (filter_games_text df g Hg Hstr) in H. discriminate.
    + rewrite (filter_games_numeric df g Hg Hstr) in H.
      inversion H; subst. exists g. repeat split; try reflexivity; assumption.
  - rewrite (filter_games_no_column df Hg) in H. discriminate.
Qed.

(** Row [i] passes the mask exactly when its cell is a number at least [k]. *)
Lemma ge_mask_true (g : Series) (k : R) (i : nat) :
  nth i (ge_mask g k) false = true <->
  exists x, nth_error g i = Some (Num x) /\ k <= x.
Proof.
  revert i. induction g as [|c g IH]; intros i.
  - destruct i; simpl; split; try discriminate; intros (x & H & _); discriminate.
  - destruct i as [|i].
    + simpl. destruct c as [x| |t].
      * rewrite Rleb_spec. split.
        -- intros H. exists x. split; [reflexivity | exact H].
        -- intros (y & Hy & Hle). inversion Hy; subst. exact Hle.
      * split; [discriminate | intros (y & Hy & _); discriminate].
      * split; [discriminate | intros (y & Hy & _); discriminate].
    + simpl. apply IH.
Qed.

(** The cells a column keeps under its own mask are numbers at least [k]. *)
Lemma compress_ge_mask (g : Series) (k : R) :
  Forall (fun c => exists x, c = Num x /\ k <= x) (compress (ge_mask g k) g).
Proof.
  induction g as [|c g IH]; simpl; [constructor|].
  destruct c as [x| |t]; simpl; try exact IH.
  destruct (Rleb k x) eqn:E; [|exact IH].
  constructor; [|exact IH]. exists x. split; [reflexivity|].
  apply Rleb_spec. exact E.
Qed.

(** * Composite score (lines 79-81) *)

Lemma Series_add_length (a b : Series) (n : nat) :
  length a = n -> length b = n -> length (Series_add a b) = n.
Proof.
  revert b n. induction a as [|x a IH]; intros b n Ha Hb; simpl.
  - exact Ha.
  - destruct b as [|y b]; simpl in *; [congruence|].
    destruct n as [|n]; [discriminate|].
    f_equal. apply IH; congruence.
Qed.

Lemma add_weighted_returns (w : list (string * R)) (dfn df df' : DataFrame)
    (out : list event) :
  add_weighted w dfn df = (out, inr df') ->
  out = [] /\ index df' = index df /\
  (forall c, c <> "CompositeScore" ->
             lookup c (columns df') = lookup c (columns df)) /\
  (well_formed df -> well_formed dfn -> len dfn = len df -> well_formed df').
Proof.
  revert df out. induction w as [|[col weight] rest IH]; intros df out H.
  - inversion H; subst. repeat split; auto.
  - simpl in H.
    apply bind_returns in H as (o1 & score & o2 & Hscore & H & ->).
    apply get_column_returns in Hscore as (Hscore & ->).
    apply bind_returns in H as (o3 & z & o4 & Hz & H & ->).
    apply get_column_returns in Hz as (Hz & ->).
    apply IH in H as (-> & Hidx & Hcols & Hwf).
    split; [reflexivity|]. split; [exact Hidx|]. split.
    + intros c Hc. rewrite (Hcols c Hc). simpl.
      apply lookup_assign_other. exact Hc.
    + intros Hdf Hdfn Hlen. apply Hwf; [|exact Hdfn | exact Hlen].
      apply well_formed_set_column; [exact Hdf|].
      apply Series_add_length.
      * apply (well_formed_lookup df _ _ Hdf Hscore).
      * rewrite length_map, <- Hlen.
        apply (well_formed_lookup dfn _ _ Hdfn Hz).
Qed.

Lemma composite_score_returns (w : list (string * R)) (dfn df df' : DataFrame)
    (out : list event) :
  composite_score w dfn df = (out, inr df') ->
  out = [] /\ index df' = index df /\
  (forall c, c <> "CompositeScore" ->
             lookup c (columns df') = lookup c (columns df)) /\
  (well_formed df -> well_formed dfn -> len dfn = len df -> well_formed df').
Proof.
  unfold composite_score. intros H.
  apply add_weighted_returns in H as (-> & Hidx & Hcols & Hwf).
  split; [reflexivity|]. split; [exact Hidx|]. split.
  - intros c Hc. rewrite (Hcols c Hc). simpl.
    apply lookup_assign_other. exact Hc.
  - intros Hdf Hdfn Hlen. apply Hwf; [|exact Hdfn | exact Hlen].
    apply well_formed_set_column; [exact Hdf | apply repeat_length].
Qed.

(** * The rated table (lines 40-86) *)

Lemma impute_well_formed (cols : list string) (df : DataFrame) :
  well_formed df -> well_formed (impute cols df).
Proof.
  revert df. induction cols as [|c cols IH]; intros df Hwf; simpl; [exact Hwf|].
  destruct (lookup c (columns df)) as [s|] eqn:E; [|apply IH; exact Hwf].
  apply IH. apply well_formed_set_column; [exact Hwf|].
  rewrite fillna_length. apply (well_formed_lookup df c s Hwf E).
Qed.

Lemma impute_lookup_none (cols : list string) (df : DataFrame) (c : string) :
  lookup c (columns df) = None -> lookup c (columns (impute cols df)) = None.
Proof.
  revert df. induction cols as [|c0 cols IH]; intros df Hnone; simpl; [exact Hnone|].
  destruct (lookup c0 (columns df)) as [s0|] eqn:E; [|apply IH; exact Hnone].
  apply IH. simpl. rewrite lookup_assign_other; [exact Hnone|].
  intros ->. congruence.
Qed.

Lemma rate_returns (df rated : DataFrame) (out : list event) :
  rate df = (out, inr rated) ->
  exists o1 cleaned w filtered cs,
    clean_data df = (o1, inr (cleaned, w)) /\
    filter_games cleaned
    = ([PrintFiltered (len cleaned - len filtered) (len filtered)], inr filtered) /\
    out = o1 ++ [PrintFiltered (len cleaned - len filtered) (len filtered)] /\
    index rated = index filtered /\
    len filtered <> 0%nat /\
    (well_formed df -> well_formed rated) /\
    (forall c, c <> "CompositeScore" -> c <> "PlayerRating" ->
       lookup c (columns rated) = lookup c (columns (impute key_stats filtered))) /\
    (forall c, In c key_stats -> exists s, lookup c (columns filtered) = Some s) /\
    lookup "CompositeScore" (columns rated) = Some cs /\
    lookup "PlayerRating" (columns rated) = Some (minmax_scale 0 100 cs).
Proof.
  unfold rate. intros H.
  apply bind_returns in H as (o1 & [cleaned w] & o2 & Hclean & H & ->).
  apply bind_returns in H as (o3 & filtered & o4 & Hfilter & H & ->).
  apply bind_returns in H as (o5 & dfn & o6 & Hnorm & H & ->).
  apply bind_returns in H as (o7 & df4 & o8 & Hcomp & H & ->).
  apply player_rating_returns in H as (cs & Hcs & -> & -> & Hlen4).
  apply normalize_returns in Hnorm as (-> & Hidxn & Hlen & Hstats & Hwfn).
  apply composite_score_returns in Hcomp as (-> & Hidx4 & Hcols4 & Hwf4).
  pose proof Hfilter as Hf.
  apply filter_games_returns in Hf as (g & Hg & Hstr & Hkept & ->).
  destruct (clean_data_spec df) as (o1' & c' & w' & Hclean' & Hidxc & Hwfc & _).
  rewrite Hclean in Hclean'. inversion Hclean'; subst o1' c' w'. clear Hclean'.
  exists o1, cleaned, w, filtered, cs.
  split; [exact Hclean|]. split; [exact Hfilter|].
  split; [rewrite !app_nil_r; reflexivity|].
  split; [cbn [set_column index]; rewrite Hidx4; apply impute_index|].
  split; [unfold len in *; rewrite impute_index in Hlen; exact Hlen|].
  split.
  { intros Hwf.
    assert (Hwf3 : well_formed (impute key_stats filtered)).
    { apply impute_well_formed. rewrite Hkept.
      apply well_formed_select_rows. apply Hwfc. exact Hwf. }
    assert (Hwf4' : well_formed df4).
    { apply Hwf4; [exact Hwf3 | apply Hwfn; exact Hwf3 |].
      unfold len. rewrite Hidxn. reflexivity. }
    apply well_formed_set_column; [exact Hwf4'|].
    rewrite minmax_scale_length.
    apply (well_formed_lookup df4 _ _ Hwf4' Hcs). }
  split.
  { intros c Hc1 Hc2. cbn [set_column columns].
    rewrite lookup_assign_other by exact Hc2. apply Hcols4. exact Hc1. }
  split.
  { intros c Hin. destruct (Hstats c Hin) as (s & Hs & _).
    destruct (lookup c (columns filtered)) as [s0|] eqn:E; [exists s0; reflexivity|].
    rewrite (impute_lookup_none _ _ _ E) in Hs. discriminate. }
  split.
  { cbn [set_column columns]. rewrite lookup_assign_other by discriminate.
    exact Hcs. }
  cbn [set_column columns]. apply lookup_assign_same.
Qed.

(** * Sorting (line 90) *)

Lemma positions_bounds (p : cell -> bool) (s : Series) (i j : nat) :
  In j (positions p s i) -> (i <= j < i + length s)%nat.
Proof.
  revert i. induction s as [|c s IH]; intros i Hin; simpl in *; [destruct Hin|].
  destruct (p c).
  - destruct Hin as [<-|Hin]; [lia|]. apply IH in Hin. lia.
  - apply IH in Hin. lia.
Qed.

Lemma positions_perm (p : cell -> bool) (s : Series) (i : nat) :
  Permutation (positions p s i ++ positions (fun c => negb (p c)) s i)
    (seq i (length s)).
Proof.
  revert i. induction s as [|c s IH]; intros i; simpl; [constructor|].
  destruct (p c); simpl.
  - constructor. apply IH.
  - apply Permutation_sym. apply Permutation_cons_app.
    apply Permutation_sym. apply IH.
Qed.

Lemma positions_num_values (s : Series) (i : nat) :
  map (fun j => nth (j - i) s NaN) (positions is_num s i) = map Num (values s).
Proof.
  revert i. induction s as [|c s IH]; intros i; [reflexivity|].
  assert (Hshift : map (fun j => nth (j - i) (c :: s) NaN) (positions is_num s (S i))
                   = map Num (values s)).
  { rewrite <- (IH (S i)). apply map_ext_in. intros j Hj.
    apply positions_bounds in Hj.
    replace (j - i)%nat with (S (j - S i)) by lia. reflexivity. }
  destruct c as [x| |t]; simpl positions; simpl values.
  - cbn [map]. rewrite Nat.sub_diag. cbn [nth]. f_equal. exact Hshift.
  - exact Hshift.
  - exact Hshift.
Qed.

Lemma positions_not_num (s : Series) (i : nat) :
  Forall (fun j => is_num (nth (j - i) s NaN) = false)
    (positions (fun c => negb (is_num c)) s i).
Proof.
  revert i. induction s as [|c s IH]; intros i; [constructor|].
  assert (Hshift : Forall (fun j => is_num (nth (j - i) (c :: s) NaN) = false)
                     (positions (fun c => negb (is_num c)) s (S i))).
  { rewrite Forall_forall. intros j Hj.
    pose proof (IH (S i)) as H. rewrite Forall_forall in H.
    specialize (H j Hj). apply positions_bounds in Hj.
    replace (j - i)%nat with (S (j - S i)) by lia. exact H. }
  destruct c as [x| |t]; simpl positions.
  - exact Hshift.
  - constructor; [rewrite Nat.sub_diag; reflexivity | exact Hshift].
  - constructor; [rewrite Nat.sub_diag; reflexivity | exact Hshift].
Qed.

Lemma positions_num_length (s : Series) (i : nat) :
  length (positions is_num s i) = length (values s).
Proof.
  rewrite <- (length_map (fun j => nth (j - i) s NaN)), positions_num_values.
  apply length_map.
Qed.

Lemma map_nth_seq {A : Type} (l : list A) (d : A) :
  map (fun i => nth i l d) (seq 0 (length l)) = l.
Proof.
  induction l as [|x l IH]; simpl; [reflexivity|].
  f_equal. rewrite <- seq_shift, map_map. exact IH.
Qed.

Lemma map_nth_perm {A : Type} (l : list A) (d : A) (ix : list nat) :
  Permutation ix (seq 0 (length l)) ->
  Permutation (map (fun i => nth i l d) ix) l.
Proof.
  intros H.
  apply (Permutation_map (fun i => nth i l d)) in H.
  rewrite map_nth_seq in H. exact H.
Qed.

Lemma StronglySorted_snoc {A : Type} (rel : A -> A -> Prop) (l : list A) (a : A) :
  StronglySorted rel l -> Forall (fun x => rel x a) l ->
  StronglySorted rel (l ++ [a]).
Proof.
  induction 1 as [|x l Hl IH Hx]; intros Hall; simpl.
  - constructor; constructor.
  - inversion Hall; subst. constructor.
    + apply IH. assumption.
    + apply Forall_app. split; [exact Hx | constructor; [assumption | constructor]].
Qed.

Lemma Sorted_Rle_rev (l : list R) : Sorted Rle l -> Sorted Rge (rev l).
Proof.
  intros H. apply StronglySorted_Sorted.
  apply (Sorted_StronglySorted Rle_trans) in H.
  induction H as [|x l Hl IH Hx]; simpl; [constructor|].
  apply StronglySorted_snoc; [exact IH|].
  apply Forall_rev. eapply Forall_impl; [|exact Hx].
  intros y Hy. apply Rle_ge. exact Hy.
Qed.

Lemma In_firstn {A : Type} (n : nat) (l : list A) (x : A) :
  In x (firstn n l) -> In x l.
Proof.
  revert l. induction n as [|n IH]; intros l H; [destruct H|].
  destruct l as [|y l]; [destruct H|].
  destruct H as [->|H]; [left; reflexivity | right; apply IH; exact H].
Qed.

Lemma Forall_firstn_keep {A : Type} (P : A -> Prop) (n : nat) (l : list A) :
  Forall P l -> Forall P (firstn n l).
Proof.
  intros H. rewrite Forall_forall in *. intros x Hx. apply H.
  apply (In_firstn n l x Hx).
Qed.

Section SortingFacts.

Variable argsort : list R -> list nat.
Hypothesis argsort_ok : argsort_spec argsort.

Lemma argsort_in_range (v : list R) (i : nat) :
  In i (argsort v) -> (i < length v)%nat.
Proof.
  intros Hin. destruct (argsort_ok v) as [Hperm _].
  apply (Permutation_in _ Hperm) in Hin. apply in_seq in Hin. lia.
Qed.

(** The indexer of a sort is a permutation of the rows. *)
Lemma nargsort_perm (ascending : bool) (items : Series) :
  Permutation (nargsort argsort ascending items) (seq 0 (length items)).
Proof.
  unfold nargsort.
  set (L := if ascending then positions is_num items 0
            else rev (positions is_num items 0)).
  set (V := if ascending then values items else rev (values items)).
  assert (HL : Permutation L (positions is_num items 0))
    by (unfold L; destruct ascending; [reflexivity | symmetry; apply Permutation_rev]).
  assert (Hlen : length V = length L).
  { unfold V, L. destruct ascending; rewrite ?length_rev;
      symmetry; apply positions_num_length. }
  assert (Hix : Permutation (map (fun i => nth i L 0%nat) (argsort V)) L).
  { apply map_nth_perm. rewrite <- Hlen. apply (argsort_ok V). }
  eapply Permutation_trans; [|apply (positions_perm is_num items 0)].
  apply Permutation_app_tail.
  eapply Permutation_trans; [|exact HL].
  eapply Permutation_trans; [|exact Hix].
  destruct ascending; [reflexivity | symmetry; apply Permutation_rev].
Qed.

(** Read through the indexer of a descending sort, the column is in
    descending order, with the cells that are not numbers at the end. *)
Lemma nargsort_descending (items : Series) :
  descending (map (fun i => nth i items NaN) (nargsort argsort false items)).
Proof.
  unfold nargsort. cbv iota.
  set (L := rev (positions is_num items 0)).
  set (V := rev (values items)).
  set (f := fun i => nth i items NaN).
  assert (HLV : map f L = map Num V).
  { unfold L, V. rewrite !map_rev. f_equal.
    rewrite <- (positions_num_values items 0). apply map_ext.
    intros j. unfold f. rewrite Nat.sub_0_r. reflexivity. }
  assert (Hlen : length L = length V).
  { apply (f_equal (@length cell)) in HLV. rewrite !length_map in HLV. exact HLV. }
  assert (Hix : map f (map (fun i => nth i L 0%nat) (argsort V))
                = map Num (map (fun i => nth i V 0) (argsort V))).
  { rewrite !map_map. apply map_ext_in. intros i Hi.
    apply argsort_in_range in Hi.
    rewrite <- (map_nth f L 0%nat), HLV.
    rewrite (nth_indep _ (f 0%nat) (Num 0)) by (rewrite length_map; exact Hi).
    apply (map_nth Num). }
  exists (rev (map (fun i => nth i V 0) (argsort V))),
         (map f (positions (fun c => negb (is_num c)) items 0)).
  split; [|split].
  - rewrite map_app, !map_rev. rewrite Hix. reflexivity.
  - apply Sorted_Rle_rev. apply (argsort_ok V).
  - apply Forall_map.
    pose proof (positions_not_num items 0) as H.
    eapply Forall_impl; [|exact H].
    intros j Hj. cbv beta in Hj. unfold f. rewrite Nat.sub_0_r in Hj. exact Hj.
Qed.

End SortingFacts.

(** * The insertion sort meets numpy's contract *)

Section Insertion.

Variable before : R -> R -> bool.
Hypothesis before_true : forall x y, before x y = true -> x <= y.
Hypothesis before_false : forall x y, before x y = false -> y <= x.
Variable v : list R.

Lemma insert_by_perm (i : nat) (l : list nat) :
  Permutation (insert_by before v i l) (i :: l).
Proof.
  induction l as [|j r IH]; simpl; [reflexivity|].
  destruct (before (nth i v 0) (nth j v 0)); [reflexivity|].
  eapply Permutation_trans; [apply perm_skip; exact IH | apply perm_swap].
Qed.

Lemma insert_by_HdRel (a : R) (i : nat) (l : list nat) :
  a <= nth i v 0 ->
  HdRel Rle a (map (fun k => nth k v 0) l) ->
  HdRel Rle a (map (fun k => nth k v 0) (insert_by before v i l)).
Proof.
  intros Hai Hl. destruct l as [|j r]; simpl.
  - constructor. exact Hai.
  - destruct (before (nth i v 0) (nth j v 0)); simpl.
    + constructor. exact Hai.
    + constructor. inversion Hl; subst. assumption.
Qed.

Lemma insert_by_sorted (i : nat) (l : list nat) :
  Sorted Rle (map (fun k => nth k v 0) l) ->
  Sorted Rle (map (fun k => nth k v 0) (insert_by before v i l)).
Proof.
  induction l as [|j r IH]; simpl; intros Hs.
  - constructor; constructor.
  - inversion Hs as [|? ? Hr Hhd]; subst.
    destruct (before (nth i v 0) (nth j v 0)) eqn:E; simpl.
    + constructor; [exact Hs|]. constructor. apply before_true. exact E.
    + constructor; [apply IH; exact Hr|].
      apply insert_by_HdRel; [apply before_false; exact E | exact Hhd].
Qed.

Lemma insertion_fold_perm (js : list nat) :
  Permutation (fold_right (insert_by before v) [] js) js.
Proof.
  induction js as [|j js IH]; simpl; [constructor|].
  eapply Permutation_trans; [apply insert_by_perm|].
  apply perm_skip. exact IH.
Qed.

Lemma insertion_fold_sorted (js : list nat) :
  Sorted Rle (map (fun k => nth k v 0) (fold_right (insert_by before v) [] js)).
Proof.
  induction js as [|j js IH]; simpl; [constructor|].
  apply insert_by_sorted. exact IH.
Qed.

End Insertion.

Lemma insertion_argsort_spec (before : R -> R -> bool) :
  (forall x y, before x y = true -> x <= y) ->
  (forall x y, before x y = false -> y <= x) ->
  argsort_spec (insertion_argsort before).
Proof.
  intros Ht Hf v. unfold insertion_argsort. split.
  - apply insertion_fold_perm.
  - apply insertion_fold_sorted; assumption.
Qed.

Lemma stable_argsort_spec : argsort_spec stable_argsort.
Proof.
  apply insertion_argsort_spec; intros x y H.
  - apply Rleb_spec. exact H.
  - unfold Rleb in H. destruct (Rle_dec x y); [discriminate | lra].
Qed.

(** * The report (lines 90-96) *)

Lemma lookup_take (ix : list nat) (df : DataFrame) (c : string) :
  lookup c (columns (take ix df))
  = option_map (fun s => map (fun i => nth i s NaN) ix) (lookup c (columns df)).
Proof.
  unfold take. cbn [columns].
  apply (lookup_map_snd (fun s => map (fun i => nth i s NaN) ix)).
Qed.

Lemma lookup_head (n : nat) (df : DataFrame) (c : string) :
  lookup c (columns (head n df)) = option_map (firstn n) (lookup c (columns df)).
Proof. unfold head. cbn [columns]. apply (lookup_map_snd (firstn n)). Qed.

Lemma display_returns (argsort : list R -> list nat) (rated : DataFrame)
    (out : list event) (u : unit) :
  display argsort rated = (out, inr u) ->
  exists ratings table,
    lookup "PlayerRating" (columns rated) = Some ratings /\
    out = [PrintTop20 table] /\
    index table
    = firstn 20 (map (fun i => nth i (index rated) "")
                   (nargsort argsort false ratings)) /\
    forall c, In c display_cols ->
      exists s, lookup c (columns rated) = Some s /\
                lookup c (columns table)
                = Some (firstn 20 (map (fun i => nth i s NaN)
                                     (nargsort argsort false ratings))).
Proof.
  unfold display, sort_values. intros H.
  apply bind_returns in H as (o1 & sorted & o2 & Hsort & H & ->).
  apply bind_returns in Hsort as (o3 & ratings & o4 & Hk & Hsort & ->).
  apply get_column_returns in Hk as (Hk & ->).
  inversion Hsort; subst o4 sorted. clear Hsort.
  apply bind_returns in H as (o5 & shown & o6 & Hsel & H & ->).
  apply select_returns in Hsel as (Hsel & Hidx & ->).
  inversion H; subst o6. clear H.
  exists ratings, (head 20 shown).
  split; [exact Hk|]. split; [reflexivity|]. split.
  - cbn [head index]. rewrite Hidx. reflexivity.
  - intros c Hin.
    rewrite lookup_head, (lookup_select_columns _ _ _ c Hsel),
      (existsb_eqb_In _ _ Hin).
    destruct (select_columns_present _ _ _ c Hsel Hin) as [s' Hs'].
    rewrite lookup_take in Hs' |- *.
    destruct (lookup c (columns rated)) as [s|]; [|discriminate].
    exists s. split; reflexivity.
Qed.

(** * Scaling a constant or a two-valued feature *)

Lemma standard_scale_constant (a : R) (s : Series) :
  values s <> [] -> Forall (fun x => x = a) (values s) ->
  standard_scale s = map_numbers (fun _ => 0) s.
Proof.
  intros Hne Hall. rewrite (standard_scale_unfold s Hne).
  rewrite (standard_scale_divisor_constant _ Hne (ex_intro _ a Hall)).
  rewrite (population_mean_constant a _ Hne Hall).
  apply map_numbers_ext_in. intros x Hx.
  rewrite Forall_forall in Hall. rewrite (Hall x Hx). unfold Rdiv. lra.
Qed.

Lemma standard_scale_pair (a b : R) :
  a < b -> standard_scale [Num a; Num b] = [Num (-1); Num 1].
Proof.
  intros Hab.
  rewrite standard_scale_unfold by (simpl; discriminate).
  cbn [values].
  assert (Hmean : population_mean [a; b] = (a + b) / 2)
    by (unfold population_mean; simpl; field).
  assert (Hvar : population_variance [a; b] = ((b - a) / 2) * ((b - a) / 2))
    by (unfold population_variance; rewrite Hmean; simpl; field).
  rewrite Hvar, sqrt_square by lra.
  rewrite handle_zeros_in_scale_nonzero by lra.
  rewrite Hmean. unfold map_numbers. cbn [map].
  f_equal; [f_equal; field; lra|]. f_equal. f_equal. field. lra.
Qed.

Lemma minmax_scale_pair_lt (a b : R) :
  a < b -> minmax_scale 0 100 [Num a; Num b] = [Num 0; Num 100].
Proof.
  intros Hab.
  rewrite (minmax_scale_unfold 0 100 a b).
  - rewrite handle_zeros_in_scale_nonzero by lra.
    unfold map_numbers. cbn [map].
    f_equal; [f_equal; field; lra|]. f_equal. f_equal. field. lra.
  - unfold nanmin. simpl. rewrite Rmin_left by lra. reflexivity.
  - unfold nanmax. simpl. rewrite Rmax_right by lra. reflexivity.
Qed.

(** * The ratings as a function of the scores *)

Lemma minmax_scale_range (s : Series) (mn mx : R) :
  nanmin s = Some mn -> nanmax s = Some mx ->
  minmax_scale 0 100 s
  = map_numbers (fun x => if Reqb (mx - mn) 0 then 0
                          else (x - mn) / (mx - mn) * 100) s.
Proof.
  intros Hmn Hmx. rewrite (minmax_scale_unfold 0 100 mn mx s Hmn Hmx).
  destruct (nanmin_spec s mn Hmn) as [Hin _].
  apply map_numbers_ext_in. intros x Hx.
  unfold handle_zeros_in_scale. destruct (Reqb (mx - mn) 0) eqn:E.
  - apply Reqb_spec in E.
    destruct (nanmin_spec s mn Hmn) as [_ Hlo].
    destruct (nanmax_spec s mx Hmx) as [_ Hhi].
    pose proof (Hlo x Hx). pose proof (Hhi x Hx). nra.
  - assert (mx - mn <> 0) by (intros H0; apply Reqb_true in H0; congruence).
    field. assumption.
Qed.

Lemma map_numbers_map_Num (f : R -> R) (xs : list R) :
  map_numbers f (map Num xs) = map Num (map f xs).
Proof. induction xs as [|x xs IH]; simpl; [reflexivity|]. f_equal. exact IH. Qed.

(** * The whole run *)

Lemma analyze_returns (argsort : list R -> list nat) (df : DataFrame)
    (out : list event) (u : unit) :
  analyze_lol_data argsort (Loaded df) = (out, inr u) ->
  exists o1 rated o2,
    rate df = (o1, inr rated) /\
    display argsort rated = (o2, inr u) /\
    out = PrintLoading :: o1 ++ o2.
Proof.
  unfold analyze_lol_data. intros H.
  apply bind_returns in H as (o0 & u0 & o' & Hp & H & ->).
  inversion Hp; subst o0. clear Hp.
  apply bind_returns in H as (o1 & rated & o2 & Hrate & Hdisp & ->).
  exists o1, rated, o2. repeat split; assumption.
Qed.

Lemma key_stats_not_games : ~ In "Games" key_stats.
Proof. unfold key_stats, stat_weights. simpl. intuition discriminate. Qed.

(** The shape of a run that returns: what was printed, and how the rows of
    the report come from the rows of the filtered table. *)
Lemma report_structure (argsort : list R -> list nat) (df : DataFrame)
    (out : list event) :
  argsort_spec argsort ->
  well_formed df ->
  analyze_lol_data argsort (Loaded df) = (out, inr tt) ->
  exists o1 cleaned w filtered rated ratings table,
    let ix := nargsort argsort false ratings in
    let printed := PrintFiltered (len cleaned - len filtered) (len filtered) in
    clean_data df = (o1, inr (cleaned, w)) /\
    filter_games cleaned = ([printed], inr filtered) /\
    rate df = (o1 ++ [printed], inr rated) /\
    out = PrintLoading :: (o1 ++ [printed]) ++ [PrintTop20 table] /\
    well_formed filtered /\
    well_formed rated /\
    index rated = index filtered /\
    lookup "PlayerRating" (columns rated) = Some ratings /\
    Permutation ix (seq 0 (len filtered)) /\
    descending (map (fun i => nth i ratings NaN) ix) /\
    index table = firstn 20 (map (fun i => nth i (index filtered) "") ix) /\
    (forall c, In c display_cols ->
       exists s, lookup c (columns rated) = Some s /\
                 lookup c (columns table)
                 = Some (firstn 20 (map (fun i => nth i s NaN) ix))) /\
    (forall c, c <> "CompositeScore" -> c <> "PlayerRating" ->
       lookup c (columns rated) = lookup c (columns (impute key_stats filtered))) /\
    (forall c, In c key_stats -> exists s, lookup c (columns filtered) = Some s).
Proof.
  intros Hspec Hwf Hrun.
  apply analyze_returns in Hrun as (o1' & rated & o2 & Hrate & Hdisp & ->).
  apply display_returns in Hdisp as (ratings & table & Hr & -> & Hidx & Hcols).
  pose proof Hrate as Hrate'.
  apply rate_returns in Hrate'
    as (o1 & cleaned & w & filtered & cs & Hclean & Hfilter & -> & Hidxr & Hlen
        & Hwfr & Hsame & Hstats & Hcs & Hpr).
  exists o1, cleaned, w, filtered, rated, ratings, table. cbv zeta.
  assert (Hwff : well_formed filtered).
  { destruct (clean_data_spec df) as (o1' & c' & w' & Hclean' & _ & Hwfc & _).
    rewrite Hclean in Hclean'. inversion Hclean'; subst o1' c' w'.
    apply filter_games_returns in Hfilter as (g & _ & _ & -> & _).
    apply well_formed_select_rows. apply Hwfc. exact Hwf. }
  split; [exact Hclean|]. split; [exact Hfilter|]. split; [exact Hrate|].
  split; [reflexivity|]. split; [exact Hwff|]. split; [exact (Hwfr Hwf)|].
  split; [exact Hidxr|]. split; [exact Hr|].
  split.
  { replace (len filtered) with (length ratings).
    - apply nargsort_perm. exact Hspec.
    - rewrite (well_formed_lookup rated _ _ (Hwfr Hwf) Hr).
      unfold len. rewrite Hidxr. reflexivity. }
  split; [apply nargsort_descending; exact Hspec|].
  split; [rewrite <- Hidxr; exact Hidx|].
  split; [exact Hcols|]. split; [exact Hsame | exact Hstats].
Qed.

Lemma Forall_shown {P : cell -> Prop} (s : Series) (ix : list nat) (n : nat) :
  Forall P s -> Forall (fun i => (i < length s)%nat) ix ->
  Forall P (firstn n (map (fun i => nth i s NaN) ix)).
Proof.
  intros Hs Hix. apply Forall_firstn_keep. apply Forall_map.
  eapply Forall_impl; [|exact Hix]. intros i Hi.
  rewrite Forall_forall in Hs. apply Hs. apply nth_In. exact Hi.
Qed.

Lemma perm_in_range (ix : list nat) (n : nat) :
  Permutation ix (seq 0 n) -> Forall (fun i => (i < n)%nat) ix.
Proof.
  intros H. rewrite Forall_forall. intros i Hi.
  apply (Permutation_in _ H) in Hi. apply in_seq in Hi. lia.
Qed.


(** The filter on every table.  With a [Games] column of numbers and
    missing cells, it returns exactly the rows whose games are a number at
    least [min_games] (a missing cell never passes), and every [Games] cell
    of a printed report is such a number.  With text in the [Games] column
    the comparison raises [TypeError]: the run prints no report. *)
Theorem filter_keeps_enough_games (argsort : list R -> list nat)
    (df : DataFrame) (g : Series) :
  argsort_spec argsort ->
  well_formed df ->
  lookup "Games" (columns df) = Some g ->
  (existsb is_str g = false ->
   exists o1 cleaned w kept,
     clean_data df = (o1, inr (cleaned, w)) /\
     filter_games cleaned
     = ([PrintFiltered (len cleaned - len kept) (len kept)], inr kept) /\
     kept = select_rows (ge_mask g min_games) cleaned /\
     index kept = compress (ge_mask g min_games) (index df) /\
     (forall i, nth i (ge_mask g min_games) false = true <->
                exists x, nth_error g i = Some (Num x) /\ min_games <= x) /\
     lookup "Games" (columns kept) = Some (compress (ge_mask g min_games) g) /\
     forall out, analyze_lol_data argsort (Loaded df) = (out, inr tt) ->
       exists pre table shown,
         out = pre ++ [PrintTop20 table] /\
         lookup "Games" (columns table) = Some shown /\
         Forall (fun c => exists x, c = Num x /\ min_games <= x) shown) /\
  (existsb is_str g = true ->
   exists o1, analyze_lol_data argsort (Loaded df)
              = (PrintLoading :: o1, inl TypeError)).
Proof.
  intros Hspec Hwf Hg.
  destruct (clean_data_spec df) as (o1 & cleaned & w & Hclean & Hidxc & Hwfc & _ & Hcols).
  assert (Hgc : lookup "Games" (columns cleaned) = Some g).
  { rewrite Hcols by discriminate. simpl. exact Hg. }
  split.
  - intros Hstr.
    exists o1, cleaned, w, (select_rows (ge_mask g min_games) cleaned).
    split; [exact Hclean|].
    split; [apply (filter_games_numeric cleaned g Hgc Hstr)|].
    split; [reflexivity|].
    split; [cbn [select_rows index]; rewrite Hidxc; reflexivity|].
    split; [intros i; apply ge_mask_true|].
    split; [rewrite lookup_select_rows, Hgc; reflexivity|].
    intros out Hrun.
    destruct (report_structure argsort df out Hspec Hwf Hrun)
      as (o1' & cleaned' & w' & filtered & rated & ratings & table & Hclean'
          & Hfilter & _ & Hout & Hwff & _ & _ & _ & Hperm & _ & _ & Hshown
          & Hsame & _).
    rewrite Hclean in Hclean'. inversion Hclean'; subst o1' cleaned' w'.
    rewrite (filter_games_numeric cleaned g Hgc Hstr) in Hfilter.
    assert (Hkept : select_rows (ge_mask g min_games) cleaned = filtered)
      by congruence.
    clear Hfilter.
    destruct (Hshown "Games") as (s & Hs & Htab);
      [unfold display_cols; simpl; tauto|].
    rewrite Hsame in Hs by discriminate.
    rewrite (impute_lookup_other _ _ _ key_stats_not_games) in Hs.
    rewrite <- Hkept, lookup_select_rows, Hgc in Hs.
    inversion Hs; subst s. clear Hs.
    exists (PrintLoading
            :: o1 ++ [PrintFiltered (len cleaned - len filtered) (len filtered)]).
    exists table. eexists.
    split; [exact Hout|]. split; [exact Htab|].
    apply Forall_shown; [apply compress_ge_mask|].
    apply perm_in_range.
    replace (length (compress (ge_mask g min_games) g)) with (len filtered);
      [exact Hperm|].
    symmetry. apply (well_formed_lookup filtered "Games"); [exact Hwff|].
    rewrite <- Hkept, lookup_select_rows, Hgc. reflexivity.
  - intros Hstr. exists o1.
    unfold analyze_lol_data, rate. unfold bind at 1. simpl.
    rewrite Hclean. simpl.
    rewrite (filter_games_text cleaned g Hgc Hstr). simpl.
    rewrite app_nil_r. reflexivity.
Qed.

(** C9. The statistics a report shows are those of the filtered table after
    imputation and before standardisation: row by row, a value that is present
    is shown as it is and a missing value is shown as the mean of the values
    present in its column (it stays missing only if the column has none).
    [Games], which is not imputed, is shown unchanged. *)
Theorem report_shows_imputed_statistics (argsort : list R -> list nat)
    (df : DataFrame) (out : list event) :
  argsort_spec argsort ->
  well_formed df ->
  analyze_lol_data argsort (Loaded df) = (out, inr tt) ->
  exists o1 cleaned w filtered pre table ix,
    clean_data df = (o1, inr (cleaned, w)) /\
    filter_games cleaned
    = ([PrintFiltered (len cleaned - len filtered) (len filtered)], inr filtered) /\
    out = pre ++ [PrintTop20 table] /\
    Permutation ix (seq 0 (len filtered)) /\
    index table = firstn 20 (map (fun i => nth i (index filtered) "") ix) /\
    (forall c, In c ["Win Rate"; "KDA"; "GPM"; "DMG%"] ->
       exists s,
         lookup c (columns filtered) = Some s /\
         lookup c (columns table)
         = Some (firstn 20 (map (fun i => nth i (fillna (Series_mean s) s) NaN) ix))) /\
    (exists g,
       lookup "Games" (columns filtered) = Some g /\
       lookup "Games" (columns table)
       = Some (firstn 20 (map (fun i => nth i g NaN) ix))).
Proof.
  intros Hspec Hwf Hrun.
  destruct (report_structure argsort df out Hspec Hwf Hrun)
    as (o1 & cleaned & w & filtered & rated & ratings & table & Hclean & Hfilter
        & _ & Hout & _ & _ & _ & _ & Hperm & _ & Hidx & Hshown & Hsame & Hstats).
  exists o1, cleaned, w, filtered,
    (PrintLoading :: o1 ++ [PrintFiltered (len cleaned - len filtered) (len filtered)]),
    table, (nargsort argsort false ratings).
  split; [exact Hclean|]. split; [exact Hfilter|]. split; [exact Hout|].
  split; [exact Hperm|]. split; [exact Hidx|]. split.
  - intros c Hc.
    assert (Hkey : In c key_stats)
      by (unfold key_stats, stat_weights; simpl in *; tauto).
    assert (Hdisp : In c display_cols)
      by (unfold display_cols; simpl in *; tauto).
    destruct (Hstats c Hkey) as [s Hs].
    destruct (Hshown c Hdisp) as (s' & Hs' & Htab).
    exists s. split; [exact Hs|].
    rewrite Hsame in Hs'
      by (intros ->; simpl in Hc; intuition discriminate).
    rewrite (impute_lookup _ _ _ _ key_stats_NoDup Hkey Hs) in Hs'.
    inversion Hs'; subst s'. exact Htab.
  - destruct (Hshown "Games") as (g & Hg & Htab);
      [unfold display_cols; simpl; tauto|].
    exists g. split; [|exact Htab].
    rewrite Hsame in Hg by discriminate.
    rewrite (impute_lookup_other _ _ _ key_stats_not_games) in Hg. exact Hg.
Qed.
(** * Runs on the concrete tables *)

Lemma stat_weights_keys : In "Win Rate" key_stats /\ In "KDA" key_stats.
Proof. unfold key_stats, stat_weights. simpl. tauto. Qed.

Ltac well_formed_table :=
  unfold well_formed, len; simpl; repeat constructor.

(** ** A statistic that is not a column *)

(** C2. The table has no [VSPM] column: the warning is printed and the
    weight dropped, then line 74 selects every configured statistic, the
    missing one included, and the run ends in [KeyError] before any rating
    is computed. *)
Theorem missing_statistic_breaks_run :
  analyze_lol_data stable_argsort (Loaded table_without_vspm)
  = ([PrintLoading; PrintWarning "VSPM"; PrintFiltered 0 2],
     inl (KeyError "VSPM")).
Proof.
  unfold analyze_lol_data, rate, clean_data. simpl.
  unfold filter_games. simpl. unfold ge_scalar, ge_mask. simpl.
  unfold min_games. decide_reals. reflexivity.
Qed.

(** ** No player with enough games *)

(** C5. Both players have fewer than fifteen games: the script reports that
    it analyses 0 players, goes on, and [StandardScaler] raises [ValueError]
    on the empty table; nothing catches it. *)
Theorem empty_filter_breaks_run :
  analyze_lol_data stable_argsort (Loaded table_few_games)
  = ([PrintLoading; PrintFiltered 2 0], inl ValueError).
Proof.
  unfold analyze_lol_data, rate, clean_data. simpl.
  unfold filter_games. simpl. unfold ge_scalar, ge_mask. simpl.
  unfold min_games. decide_reals. reflexivity.
Qed.

(** The filter on the same table: no row is kept. *)
Lemma filter_few_games :
  filter_games table_few_games
  = ([PrintFiltered 2 0], inr (select_rows [false; false] table_few_games)).
Proof.
  unfold filter_games, get_column, ge_scalar, ge_mask, min_games. simpl.
  decide_reals. reflexivity.
Qed.

(** ** A statistic with no value at all *)

(** C6. [VSPM] is missing for every player: its mean is NaN, [fillna] fills
    nothing, the scaler passes NaN on, and the run prints a report whose
    ratings are all NaN.  No warning is printed and nothing is raised. *)
Theorem all_missing_statistic_gives_nan_ratings :
  analyze_lol_data stable_argsort (Loaded table_vspm_missing)
  = ([PrintLoading; PrintFiltered 0 2; PrintTop20 report_vspm_missing], inr tt).
Proof.
  unfold analyze_lol_data, rate, clean_data. simpl.
  unfold filter_games. simpl. unfold ge_scalar, ge_mask. simpl.
  unfold min_games. decide_reals. simpl. reflexivity.
Qed.

(** C1. On the same table the rated table exists, and neither of its two
    ratings is a number between 0 and 100: both are NaN, as are the composite
    scores they are computed from. *)
Theorem rating_outside_range :
  exists rated : DataFrame,
    rate table_vspm_missing = ([PrintFiltered 0 2], inr rated) /\
    lookup "CompositeScore" (columns rated) = Some [NaN; NaN] /\
    lookup "PlayerRating" (columns rated) = Some [NaN; NaN] /\
    forall c, In c [NaN; NaN] -> ~ exists r, c = Num r /\ 0 <= r <= 100.
Proof.
  eexists. split; [|split; [|split]].
  - unfold rate, clean_data. simpl.
    unfold filter_games. simpl. unfold ge_scalar, ge_mask. simpl.
    unfold min_games. decide_reals. simpl. reflexivity.
  - reflexivity.
  - reflexivity.
  - intros c [<-|[<-|[]]] (r & Hr & _); discriminate.
Qed.

(** The stages on the same table. *)
Lemma filter_vspm_missing :
  filter_games table_vspm_missing = ([PrintFiltered 0 2], inr table_vspm_missing).
Proof.
  unfold filter_games, get_column, ge_scalar, ge_mask, min_games. simpl.
  decide_reals. reflexivity.
Qed.

Lemma rate_vspm_missing :
  rate table_vspm_missing = ([PrintFiltered 0 2], inr rated_vspm_missing).
Proof.
  unfold rate, clean_data. simpl.
  unfold filter_games. simpl. unfold ge_scalar, ge_mask. simpl.
  unfold min_games. decide_reals. simpl. reflexivity.
Qed.

(** C3. On the same table the standardisation stage returns, and the
    standardised [VSPM] is NaN for both players: its values do not have mean
    0 and deviation 1, and they are not 0 for every record either.  The mean
    of the standardised statistic is NaN. *)
Theorem all_missing_statistic_not_standardized :
  clean_data table_vspm_missing = ([], inr (table_vspm_missing, stat_weights)) /\
  filter_games table_vspm_missing = ([PrintFiltered 0 2], inr table_vspm_missing) /\
  impute key_stats table_vspm_missing = table_vspm_missing /\
  exists dfn,
    normalize table_vspm_missing = ([], inr dfn) /\
    lookup "VSPM" (columns dfn) = Some [NaN; NaN] /\
    Series_mean [NaN; NaN] = NaN.
Proof.
  split; [reflexivity|]. split; [exact filter_vspm_missing|].
  split; [reflexivity|].
  eexists. split; [|split].
  - unfold normalize, select, StandardScaler_fit_transform, check_array, bind, ret.
    simpl. reflexivity.
  - reflexivity.
  - reflexivity.
Qed.

(** ** Text in the [Games] column *)

(** C7. The second player's [Games] cell is text.  The comparison with
    [min_games] raises [TypeError]: the record is not excluded, there is no
    filtered table, and the first player, with twenty games, is in no
    output. *)
Lemma text_in_games_raises :
  filter_games table_games_text = ([], inl TypeError) /\
  analyze_lol_data stable_argsort (Loaded table_games_text)
  = ([PrintLoading], inl TypeError).
Proof. split; reflexivity. Qed.

Opaque standard_scale minmax_scale.

Ltac scale_pairs :=
  repeat match goal with
    | |- context [standard_scale [Num ?a; Num ?b]] =>
        first [ rewrite (standard_scale_pair a b) by lra
              | rewrite (standard_scale_constant a [Num a; Num b])
                  by (simpl; try discriminate; repeat constructor; lra) ]
    end.

Ltac same_numbers := repeat first [reflexivity | lra | f_equal].

(** ** A missing value among present ones *)

Lemma filter_kda_missing :
  filter_games table_kda_missing = ([PrintFiltered 0 2], inr table_kda_missing).
Proof.
  unfold filter_games, get_column, ge_scalar, ge_mask, min_games. simpl.
  decide_reals. reflexivity.
Qed.

Lemma impute_kda_missing : impute key_stats table_kda_missing = imputed_kda_missing.
Proof.
  unfold imputed_kda_missing. simpl. unfold set_column. simpl.
  unfold Series_mean, nanmean. simpl. same_numbers.
Qed.

Lemma normalize_kda_missing :
  normalize imputed_kda_missing = ([], inr normalized_kda_missing).
Proof.
  unfold normalize, select, StandardScaler_fit_transform. simpl.
  scale_pairs. reflexivity.
Qed.

Lemma composite_kda_missing :
  composite_score stat_weights normalized_kda_missing imputed_kda_missing
  = ([], inr scored_kda_missing).
Proof.
  unfold composite_score, scored_kda_missing, imputed_kda_missing.
  simpl. unfold set_column. simpl. same_numbers.
Qed.

Lemma rating_kda_missing :
  player_rating scored_kda_missing = ([], inr rated_kda_missing).
Proof.
  rewrite (player_rating_runs scored_kda_missing [Num (-75 / 100); Num (75 / 100)]);
    [|reflexivity|reflexivity|discriminate].
  rewrite minmax_scale_pair_lt by lra. reflexivity.
Qed.

Lemma rate_kda_missing :
  rate table_kda_missing = ([PrintFiltered 0 2], inr rated_kda_missing).
Proof.
  unfold rate.
  change (clean_data table_kda_missing)
    with (@ret (DataFrame * list (string * R)) (table_kda_missing, stat_weights)).
  cbn [bind ret app].
  rewrite filter_kda_missing. cbn [bind ret app].
  rewrite impute_kda_missing, normalize_kda_missing. cbn [bind ret app].
  rewrite composite_kda_missing. cbn [bind ret app].
  rewrite rating_kda_missing. reflexivity.
Qed.

Lemma display_kda_missing :
  display stable_argsort rated_kda_missing
  = ([PrintTop20 report_kda_missing], inr tt).
Proof.
  unfold display, sort_values, get_column, nargsort, stable_argsort,
    insertion_argsort. simpl. decide_reals. simpl. reflexivity.
Qed.

Lemma run_kda_missing :
  analyze_lol_data stable_argsort (Loaded table_kda_missing)
  = ([PrintLoading; PrintFiltered 0 2; PrintTop20 report_kda_missing], inr tt).
Proof.
  unfold analyze_lol_data. rewrite rate_kda_missing. cbn [bind print ret app].
  rewrite display_kda_missing. reflexivity.
Qed.

(** C9, counterexample.  Chovy's [KDA] is missing in the file; the report
    shows 4 for it, the mean of the column, where the specification has the
    raw value shown, that is, a missing one. *)
Lemma report_shows_mean_for_missing_value :
  index table_kda_missing = ["Faker"; "Chovy"] /\
  lookup "KDA" (columns table_kda_missing) = Some [Num 4; NaN] /\
  analyze_lol_data stable_argsort (Loaded table_kda_missing)
  = ([PrintLoading; PrintFiltered 0 2; PrintTop20 report_kda_missing], inr tt) /\
  index report_kda_missing = ["Chovy"; "Faker"] /\
  lookup "KDA" (columns report_kda_missing) = Some [Num 4; Num 4].
Proof.
  split; [reflexivity|]. split; [reflexivity|].
  split; [exact run_kda_missing|]. split; reflexivity.
Qed.

(** ** Two players with the same rating *)

Lemma filter_tied : filter_games table_tied = ([PrintFiltered 0 2], inr table_tied).
Proof.
  unfold filter_games, get_column, ge_scalar, ge_mask, min_games. simpl.
  decide_reals. reflexivity.
Qed.

Lemma impute_tied : impute key_stats table_tied = table_tied.
Proof. reflexivity. Qed.

Lemma normalize_tied : normalize table_tied = ([], inr normalized_tied).
Proof.
  unfold normalize, select, StandardScaler_fit_transform. simpl.
  scale_pairs. reflexivity.
Qed.

Lemma composite_tied :
  composite_score stat_weights normalized_tied table_tied = ([], inr scored_tied).
Proof.
  unfold composite_score, scored_tied, table_tied.
  simpl. unfold set_column. simpl. same_numbers.
Qed.

Lemma rating_tied : player_rating scored_tied = ([], inr rated_tied).
Proof.
  rewrite (player_rating_runs scored_tied [Num 0; Num 0]);
    [|reflexivity|reflexivity|discriminate].
  rewrite (minmax_scale_constant 0 100 0)
    by (simpl; try discriminate; repeat constructor).
  reflexivity.
Qed.

Lemma rate_tied : rate table_tied = ([PrintFiltered 0 2], inr rated_tied).
Proof.
  unfold rate.
  change (clean_data table_tied)
    with (@ret (DataFrame * list (string * R)) (table_tied, stat_weights)).
  cbn [bind ret app].
  rewrite filter_tied. cbn [bind ret app].
  rewrite impute_tied, normalize_tied. cbn [bind ret app].
  rewrite composite_tied. cbn [bind ret app].
  rewrite rating_tied. reflexivity.
Qed.

(** ** Columns that hold one number throughout *)






Lemma values_repeat (c : R) (n : nat) : values (repeat (Num c) n) = repeat c n.
Proof. induction n as [|n IH]; simpl; [reflexivity|]. f_equal. exact IH. Qed.






Lemma positions_num_repeat (c : R) (n i : nat) :
  positions is_num (repeat (Num c) n) i = seq i n.
Proof.
  revert i. induction n as [|n IH]; intros i; simpl; [reflexivity|].
  f_equal. apply IH.
Qed.

Lemma positions_not_num_repeat (c : R) (n i : nat) :
  positions (fun x => negb (is_num x)) (repeat (Num c) n) i = [].
Proof. revert i. induction n as [|n IH]; intros i; simpl; [reflexivity|apply IH]. Qed.

(** ** The run on players with the same statistics *)








(** ** The order numpy's quicksort gives to equal ratings *)

Lemma nth_repeat_same {A : Type} (x : A) (n i : nat) : nth i (repeat x n) x = x.
Proof. revert i. induction n as [|n IH]; intros [|i]; simpl; auto. Qed.

Lemma rev_repeat {A : Type} (x : A) (n : nat) : rev (repeat x n) = repeat x n.
Proof.
  induction n as [|n IH]; [reflexivity|].
  simpl. rewrite IH. clear IH.
  induction n as [|n IH]; [reflexivity|]. simpl. f_equal. exact IH.
Qed.

Lemma numpy_argsort_zeros (n : nat) :
  numpy_argsort (repeat 0 n) = aquicksort (fun _ _ => false) n.
Proof.
  unfold numpy_argsort. rewrite repeat_length. f_equal.
  apply functional_extensionality. intros i.
  apply functional_extensionality. intros j.
  unfold Rltb. rewrite !nth_repeat_same, Rleb_true by lra. reflexivity.
Qed.

Lemma nargsort_zeros (n : nat) :
  nargsort numpy_argsort false (repeat (Num 0) n)
  = rev (map (fun i => nth i (rev (seq 0 n)) 0%nat)
           (aquicksort (fun _ _ => false) n)).
Proof.
  unfold nargsort.
  rewrite values_repeat, positions_num_repeat, positions_not_num_repeat.
  rewrite rev_repeat, numpy_argsort_zeros, app_nil_r. reflexivity.
Qed.


(** Two players with equal ratings are printed in the order of the file:
    the quicksort sorts two numbers by insertion. *)
Lemma two_tied_players_in_file_order :
  analyze_lol_data numpy_argsort (Loaded table_tied)
  = ([PrintLoading; PrintFiltered 0 2; PrintTop20 report_tied_in_order], inr tt).
Proof.
  unfold analyze_lol_data. rewrite rate_tied. cbn [bind print ret app].
  unfold display, sort_values, get_column, select, bind, print, ret.
  unfold rated_tied, scored_tied, table_tied, set_column.
  cbn [columns assign lookup String.eqb Ascii.eqb Bool.eqb index].
  change [Num 0; Num 0] with (repeat (Num 0) 2).
  rewrite nargsort_zeros. vm_compute. reflexivity.
Qed.


(** * The theorems at concrete tables *)

Lemma table_kda_missing_well_formed : well_formed table_kda_missing.
Proof. well_formed_table. Qed.

Lemma table_three_well_formed : well_formed table_three.
Proof. well_formed_table. Qed.

(** Rescaling of the two equal scores of [table_tied]. *)
Lemma constant_score_rating_witness :
  lookup "CompositeScore" (columns scored_tied) = Some [Num 0; Num 0] /\
  Forall (fun c => c = Num 0) [Num 0; Num 0] /\
  len scored_tied <> 0%nat /\
  ([Num 0; Num 0] <> [] ->
     nanmin [Num 0; Num 0] = Some 0 /\ nanmax [Num 0; Num 0] = Some 0 /\
     handle_zeros_in_scale (0 - 0) = 1) /\
  player_rating scored_tied
  = ([], inr (set_column "PlayerRating"
                (map (fun _ => Num 0) [Num 0; Num 0]) scored_tied)).
Proof.
  assert (H1 : lookup "CompositeScore" (columns scored_tied) = Some [Num 0; Num 0])
    by reflexivity.
  assert (H2 : Forall (fun c => c = Num 0) [Num 0; Num 0])
    by (repeat constructor).
  assert (H3 : len scored_tied <> 0%nat) by (simpl; discriminate).
  split; [exact H1|]. split; [exact H2|]. split; [exact H3|].
  exact (constant_score_rating scored_tied [Num 0; Num 0] 0 H1 H2 H3).
Defined.


(** The statistics shown for [table_kda_missing]. *)
Lemma report_shows_imputed_statistics_witness :
  argsort_spec stable_argsort /\
  well_formed table_kda_missing /\
  analyze_lol_data stable_argsort (Loaded table_kda_missing)
  = ([PrintLoading; PrintFiltered 0 2; PrintTop20 report_kda_missing], inr tt) /\
  exists o1 cleaned w filtered pre table ix,
    clean_data table_kda_missing = (o1, inr (cleaned, w)) /\
    filter_games cleaned
    = ([PrintFiltered (len cleaned - len filtered) (len filtered)], inr filtered) /\
    [PrintLoading; PrintFiltered 0 2; PrintTop20 report_kda_missing]
    = pre ++ [PrintTop20 table] /\
    Permutation ix (seq 0 (len filtered)) /\
    index table = firstn 20 (map (fun i => nth i (index filtered) "") ix) /\
    (forall c, In c ["Win Rate"; "KDA"; "GPM"; "DMG%"] ->
       exists s,
         lookup c (columns filtered) = Some s /\
         lookup c (columns table)
         = Some (firstn 20 (map (fun i => nth i (fillna (Series_mean s) s) NaN) ix))) /\
    (exists g,
       lookup "Games" (columns filtered) = Some g /\
       lookup "Games" (columns table)
       = Some (firstn 20 (map (fun i => nth i g NaN) ix))).
Proof.
  split; [exact stable_argsort_spec|].
  split; [exact table_kda_missing_well_formed|].
  split; [exact run_kda_missing|].
  exact (report_shows_imputed_statistics stable_argsort table_kda_missing _
           stable_argsort_spec table_kda_missing_well_formed run_kda_missing).
Defined.

(** The filter on [table_three], whose second player has five games. *)
Lemma filter_keeps_enough_games_witness :
  argsort_spec stable_argsort /\
  well_formed table_three /\
  lookup "Games" (columns table_three) = Some [Num 20; Num 5; Num 30] /\
  existsb is_str [Num 20; Num 5; Num 30] = false /\
  exists o1 cleaned w kept,
    clean_data table_three = (o1, inr (cleaned, w)) /\
    filter_games cleaned
    = ([PrintFiltered (len cleaned - len kept) (len kept)], inr kept) /\
    index kept
    = compress (ge_mask [Num 20; Num 5; Num 30] min_games) ["Faker"; "Rookie"; "Chovy"] /\
    lookup "Games" (columns kept)
    = Some (compress (ge_mask [Num 20; Num 5; Num 30] min_games)
              [Num 20; Num 5; Num 30]).
Proof.
  assert (H1 : lookup "Games" (columns table_three) = Some [Num 20; Num 5; Num 30])
    by reflexivity.
  split; [exact stable_argsort_spec|].
  split; [exact table_three_well_formed|].
  split; [exact H1|]. split; [reflexivity|].
  destruct (filter_keeps_enough_games stable_argsort table_three
              [Num 20; Num 5; Num 30] stable_argsort_spec
              table_three_well_formed H1) as [Hnum _].
  destruct (Hnum eq_refl)
    as (o1 & cleaned & w & kept & Hclean & Hfilter & _ & Hidx & _ & Hgames & _).
  exists o1, cleaned, w, kept.
  split; [exact Hclean|]. split; [exact Hfilter|].
  split; [exact Hidx | exact Hgames].
Defined.

(** The mask of [table_three]: the player with five games is dropped. *)
Lemma table_three_mask :
  compress (ge_mask [Num 20; Num 5; Num 30] min_games) ["Faker"; "Rookie"; "Chovy"]
  = ["Faker"; "Chovy"].
Proof. unfold ge_mask, min_games. simpl. decide_reals. reflexivity. Qed.

(** * A configured statistic that is not a column, in general *)

Lemma select_columns_missing (cs : list string) (cols : list (string * Series))
    (c : string) :
  In c cs -> lookup c cols = None ->
  exists c', select_columns cs cols = inl (KeyError c').
Proof.
  induction cs as [|c0 cs IH]; intros Hin Hnone; [destruct Hin|].
  simpl. destruct (lookup c0 cols) as [s0|] eqn:E0.
  - destruct Hin as [->|Hin]; [congruence|].
    destruct (IH Hin Hnone) as [c' Hc']. rewrite Hc'. exists c'. reflexivity.
  - exists c0. reflexivity.
Qed.

(** X5. Whatever the table and the sorting kernel, if one configured
    statistic is not among the columns the run prints the warning for it and
    ends in an exception: no report is printed. *)
Theorem absent_statistic_fails (argsort : list R -> list nat) (df : DataFrame)
    (c : string) :
  In c key_stats ->
  lookup c (columns df) = None ->
  exists out e,
    analyze_lol_data argsort (Loaded df) = (out, inl e) /\
    In (PrintWarning c) out.
Proof.
  intros Hin Hnone.
  destruct (clean_data_spec df)
    as (o1 & cleaned & w & Hclean & _ & _ & Hwarn & Hcols).
  assert (Hc : c <> "Unnamed: 1").
  { intros ->. unfold key_stats, stat_weights in Hin. simpl in Hin.
    intuition discriminate. }
  assert (Hcleaned : lookup c (columns cleaned) = None).
  { rewrite (Hcols c Hc), Hnone.
    destruct (existsb (String.eqb c) key_stats); reflexivity. }
  pose proof (Hwarn c Hin Hnone) as Hprinted.
  unfold analyze_lol_data, rate.
  destruct (filter_games cleaned) as [o2 [e|filtered]] eqn:Hfilter.
  - exists (PrintLoading :: o1 ++ o2), e.
    unfold bind, print. rewrite Hclean, Hfilter. simpl.
    split; [reflexivity|]. right. apply in_or_app. left. exact Hprinted.
  - pose proof Hfilter as Hf.
    apply filter_games_returns in Hf as (g & _ & _ & Hkept & _).
    assert (Himputed : lookup c (columns (impute key_stats filtered)) = None).
    { apply impute_lookup_none. rewrite Hkept, lookup_select_rows, Hcleaned.
      reflexivity. }
    destruct (select_columns_missing key_stats _ c Hin Himputed) as [c' Hc'].
    exists (PrintLoading :: o1 ++ o2 ++ []), (KeyError c').
    unfold normalize, select, bind, print. rewrite Hclean, Hfilter, Hc'. simpl.
    split; [reflexivity|]. right. apply in_or_app. left. exact Hprinted.
Qed.

(** * No row left by the filter, in general *)

(** X7. Whatever the table and the sorting kernel, if the filter leaves no
    row the run ends in an exception. *)
Theorem empty_filter_fails (argsort : list R -> list nat)
    (df cleaned filtered : DataFrame) (w : list (string * R))
    (o1 o2 : list event) :
  clean_data df = (o1, inr (cleaned, w)) ->
  filter_games cleaned = (o2, inr filtered) ->
  len filtered = 0%nat ->
  exists out e, analyze_lol_data argsort (Loaded df) = (out, inl e).
Proof.
  intros Hclean Hfilter Hlen.
  destruct (analyze_lol_data argsort (Loaded df)) as [out [e|u]] eqn:Hrun.
  - exists out, e. reflexivity.
  - exfalso.
    apply analyze_returns in Hrun as (o & rated & o' & Hrate & _ & _).
    apply rate_returns in Hrate
      as (o1' & cleaned' & w' & filtered' & cs & Hclean' & Hfilter' & _ & _
          & Hlen' & _).
    rewrite Hclean in Hclean'. inversion Hclean'; subst o1' cleaned' w'.
    rewrite Hfilter in Hfilter'.
    assert (filtered = filtered') by congruence. subst filtered'.
    contradiction.
Qed.

(** * A statistic without any value, in general *)

Lemma coerce_stats_weights (cols : list string) (df df' : DataFrame)
    (w w' : list (string * R)) (out : list event) :
  coerce_stats cols df w = (out, inr (df', w')) ->
  forall kv, In kv w -> lookup (fst kv) (columns df) <> None -> In kv w'.
Proof.
  revert df w out. induction cols as [|col rest IH]; intros df w out H kv Hin Hcol.
  - inversion H; subst. exact Hin.
  - simpl in H. destruct (lookup col (columns df)) as [s|] eqn:E.
    + apply (IH _ _ _ H kv Hin). simpl.
      destruct (String.eqb (fst kv) col) eqn:Ek.
      * apply String.eqb_eq in Ek. rewrite Ek, lookup_assign_same. discriminate.
      * apply String.eqb_neq in Ek. rewrite lookup_assign_other by exact Ek.
        exact Hcol.
    + unfold bind, print in H.
      destruct (coerce_stats rest df (dict_pop col w)) as [o [e|[d ww]]] eqn:E2;
        [discriminate|].
      inversion H; subst. apply (IH _ _ _ E2 kv); [|exact Hcol].
      unfold dict_pop. apply filter_In. split; [exact Hin|].
      apply negb_true_iff. apply String.eqb_neq. intros Heq.
      rewrite Heq in Hcol. contradiction.
Qed.

Lemma Series_add_no_number_l (a b : Series) :
  Forall (fun c => is_num c = false) a ->
  Forall (fun c => is_num c = false) (Series_add a b).
Proof.
  intros Ha. revert b. induction Ha as [|x a Hx _ IH]; intros b; simpl.
  - constructor.
  - destruct b as [|y b]; [constructor|].
    constructor; [|apply IH]. destruct x; [discriminate | |]; reflexivity.
Qed.

Lemma Series_add_no_number_r (a b : Series) :
  Forall (fun c => is_num c = false) b ->
  Forall (fun c => is_num c = false) (Series_add a b).
Proof.
  intros Hb. revert a. induction Hb as [|y b Hy _ IH]; intros a.
  - destruct a; constructor.
  - destruct a as [|x a]; simpl; [constructor|].
    constructor; [|apply IH].
    destruct x; destruct y; try reflexivity; discriminate.
Qed.

Lemma cell_scale_no_number (w : R) (z : Series) :
  Forall (fun c => is_num c = false) z ->
  Forall (fun c => is_num c = false) (map (fun c => cell_scale c w) z).
Proof.
  intros Hz. apply Forall_map. eapply Forall_impl; [|exact Hz].
  intros [x| |t] H; [discriminate | |]; reflexivity.
Qed.

Lemma no_number_values (s : Series) :
  Forall (fun c => is_num c = false) s -> values s = [].
Proof.
  induction 1 as [|c s Hc _ IH]; [reflexivity|].
  destruct c; [discriminate | |]; exact IH.
Qed.

Lemma standard_scale_no_number (s : Series) :
  values s = [] -> Forall (fun c => is_num c = false) (standard_scale s).
Proof.
  intros H. rewrite (standard_scale_all_missing s H).
  apply Forall_map. apply Forall_forall. reflexivity.
Qed.

(** Once a weighted term without a number has entered the sum, the composite
    score has no number left. *)
Lemma add_weighted_no_number (col : string) (w : list (string * R))
    (dfn df df' : DataFrame) (out : list event) :
  add_weighted w dfn df = (out, inr df') ->
  (exists score, lookup "CompositeScore" (columns df) = Some score /\
                 Forall (fun c => is_num c = false) score) \/
  (exists weight z, In (col, weight) w /\ lookup col (columns dfn) = Some z /\
                    Forall (fun c => is_num c = false) z) ->
  exists score, lookup "CompositeScore" (columns df') = Some score /\
                Forall (fun c => is_num c = false) score.
Proof.
  revert df out. induction w as [|[c0 weight0] rest IH]; intros df out H Hcase.
  - inversion H; subst. destruct Hcase as [Hscore|(weight & z & [] & _)].
    exact Hscore.
  - simpl in H.
    apply bind_returns in H as (o1 & score & o2 & Hscore & H & ->).
    apply get_column_returns in Hscore as (Hscore & ->).
    apply bind_returns in H as (o3 & z0 & o4 & Hz0 & H & ->).
    apply get_column_returns in Hz0 as (Hz0 & ->).
    apply (IH _ _ H).
    destruct Hcase as [(score' & Hs' & Hnan)|(weight & z & [Heq|Hin] & Hz & Hnan)].
    + left. eexists. split; [simpl; apply lookup_assign_same|].
      rewrite Hscore in Hs'. inversion Hs'; subst score'.
      apply Series_add_no_number_l. exact Hnan.
    + inversion Heq; subst c0 weight0.
      rewrite Hz0 in Hz. inversion Hz; subst z0.
      left. eexists. split; [simpl; apply lookup_assign_same|].
      apply Series_add_no_number_r. apply cell_scale_no_number. exact Hnan.
    + right. exists weight, z. repeat split; assumption.
Qed.

(** X15. Whatever the table, if a configured statistic has no value among
    the rows the filter keeps and the rated table is produced all the same,
    then every rating of that table is NaN. *)
Theorem statistic_without_value_gives_nan (df cleaned filtered rated : DataFrame)
    (w : list (string * R)) (o1 o2 out : list event) (col : string) (s : Series) :
  clean_data df = (o1, inr (cleaned, w)) ->
  filter_games cleaned = (o2, inr filtered) ->
  rate df = (out, inr rated) ->
  In col key_stats ->
  lookup col (columns filtered) = Some s ->
  values s = [] ->
  exists ratings,
    lookup "PlayerRating" (columns rated) = Some ratings /\
    Forall (fun c => c = NaN) ratings.
Proof.
  intros Hclean Hfilter Hrate Hin Hs Hvals.
  unfold rate in Hrate. rewrite Hclean in Hrate.
  apply bind_returns in Hrate as (o1' & [cleaned' w'] & o' & Hret & Hrate & ->).
  inversion Hret; subst o1' cleaned' w'. clear Hret.
  rewrite Hfilter in Hrate.
  apply bind_returns in Hrate as (o2' & filtered' & o'' & Hret & Hrate & ->).
  inversion Hret; subst o2' filtered'. clear Hret.
  apply bind_returns in Hrate as (o5 & dfn & o6 & Hnorm & Hrate & ->).
  apply bind_returns in Hrate as (o7 & df4 & o8 & Hcomp & Hrate & ->).
  apply player_rating_returns in Hrate as (cs & Hcs & -> & _ & _).
  apply normalize_returns in Hnorm as (_ & _ & _ & Hstats & _).
  destruct (Hstats col Hin) as (s3 & Hs3 & Hz).
  rewrite (impute_lookup _ _ _ _ key_stats_NoDup Hin Hs) in Hs3.
  inversion Hs3; subst s3. clear Hs3.
  unfold Series_mean in Hz. rewrite (nanmean_none s Hvals) in Hz.
  simpl of_option in Hz. rewrite fillna_NaN in Hz.
  (* the weight of [col] was not dropped *)
  assert (Hweight : exists weight, In (col, weight) w).
  { unfold key_stats in Hin. apply in_map_iff in Hin as ([c weight] & Hc & Hin).
    simpl in Hc. subst c. exists weight.
    unfold clean_data in Hclean.
    apply (coerce_stats_weights _ _ _ _ _ _ Hclean (col, weight) Hin).
    simpl fst.
    apply filter_games_returns in Hfilter as (g & _ & _ & Hkept & _).
    rewrite Hkept, lookup_select_rows in Hs.
    destruct (clean_data_spec df) as (a & b & c & Hspec & _).
    unfold clean_data in Hspec. rewrite Hclean in Hspec.
    inversion Hspec; subst a b c. clear Hspec.
    destruct (coerce_stats_spec key_stats
                (if has_column "Unnamed: 1" df then drop_column "Unnamed: 1" df
                 else df) stat_weights)
      as (a & b & c & Hspec & _ & _ & _ & Hcols).
    rewrite Hclean in Hspec. inversion Hspec; subst a b c. clear Hspec.
    rewrite Hcols in Hs.
    intros Hnone. rewrite Hnone in Hs.
    destruct (existsb (String.eqb col) key_stats); discriminate. }
  destruct Hweight as [weight Hweight].
  unfold composite_score in Hcomp.
  destruct (add_weighted_no_number col _ _ _ _ _ Hcomp) as (score & Hscore & Hnan).
  { right. exists weight, (standard_scale s).
    split; [exact Hweight|]. split; [exact Hz|].
    apply standard_scale_no_number. exact Hvals. }
  rewrite Hcs in Hscore. inversion Hscore; subst score.
  exists (minmax_scale 0 100 cs). split.
  - cbn [set_column columns]. apply lookup_assign_same.
  - rewrite (minmax_scale_all_missing 0 100 cs (no_number_values cs Hnan)).
    apply Forall_map. apply Forall_forall. reflexivity.
Qed.

(** * Cleaning, exactly (lines 44-56) *)

Lemma lookup_drop_same (c : string) (df : DataFrame) :
  lookup c (columns (drop_column c df)) = None.
Proof.
  unfold drop_column. simpl.
  induction (columns df) as [|[k v] cols IH]; simpl; [reflexivity|].
  destruct (String.eqb k c) eqn:E; simpl; [exact IH|]. rewrite E. exact IH.
Qed.

Lemma has_column_set_present (c col : string) (s s' : Series) (df : DataFrame) :
  lookup col (columns df) = Some s ->
  has_column c (set_column col s' df) = has_column c df.
Proof.
  intros Hs. unfold has_column. simpl.
  destruct (String.eqb c col) eqn:E.
  - apply String.eqb_eq in E. subst c. rewrite lookup_assign_same, Hs. reflexivity.
  - apply String.eqb_neq in E. rewrite lookup_assign_other by exact E. reflexivity.
Qed.

Lemma filter_all {A : Type} (l : list A) : filter (fun _ => true) l = l.
Proof. induction l as [|x l IH]; simpl; congruence. Qed.

Lemma filter_twice {A : Type} (p q : A -> bool) (l : list A) :
  filter p (filter q l) = filter (fun x => q x && p x) l.
Proof.
  induction l as [|x l IH]; simpl; [reflexivity|].
  destruct (q x); simpl; [destruct (p x)|]; rewrite IH; reflexivity.
Qed.

Lemma absent_stats_set_present (cols : list string) (col : string)
    (s s' : Series) (df : DataFrame) :
  lookup col (columns df) = Some s ->
  absent_stats cols (set_column col s' df) = absent_stats cols df.
Proof.
  intros Hs. unfold absent_stats. apply filter_ext. intros c.
  rewrite (has_column_set_present c col s s' df Hs). reflexivity.
Qed.

Lemma absent_stats_cons (col : string) (rest : list string) (df : DataFrame) :
  absent_stats (col :: rest) df
  = if has_column col df then absent_stats rest df
    else col :: absent_stats rest df.
Proof. unfold absent_stats. simpl. destruct (has_column col df); reflexivity. Qed.

Lemma coerce_stats_exact (cols : list string) (df : DataFrame)
    (w : list (string * R)) :
  exists df',
    coerce_stats cols df w
    = (map PrintWarning (absent_stats cols df),
       inr (df', filter (fun kv => negb (existsb (String.eqb (fst kv))
                                           (absent_stats cols df))) w)).
Proof.
  revert df w. induction cols as [|col rest IH]; intros df w.
  - exists df. simpl. rewrite filter_all. reflexivity.
  - rewrite absent_stats_cons. unfold has_column. cbn [coerce_stats].
    destruct (lookup col (columns df)) as [s|] eqn:E.
    + destruct (IH (set_column col (to_numeric s) df) w) as [df' Hrun].
      rewrite (absent_stats_set_present rest col s _ df E) in Hrun.
      exists df'. exact Hrun.
    + destruct (IH df (dict_pop col w)) as [df' Hrun].
      exists df'. unfold bind, print. rewrite Hrun. simpl.
      unfold dict_pop. rewrite filter_twice.
      f_equal. f_equal. f_equal. apply filter_ext. intros kv.
      rewrite negb_orb. reflexivity.
Qed.

Lemma key_stats_not_unnamed (c : string) : In c key_stats -> c <> "Unnamed: 1".
Proof.
  intros Hin ->. unfold key_stats, stat_weights in Hin. simpl in Hin.
  intuition discriminate.
Qed.

Lemma clean_data_exact (df : DataFrame) :
  exists cleaned,
    clean_data df
    = (map PrintWarning (absent_stats key_stats df),
       inr (cleaned, filter (fun kv => has_column (fst kv) df) stat_weights)).
Proof.
  unfold clean_data.
  set (df1 := if has_column "Unnamed: 1" df then drop_column "Unnamed: 1" df else df).
  assert (Hsame : forall c, In c key_stats -> has_column c df1 = has_column c df).
  { intros c Hc. unfold df1. destruct (has_column "Unnamed: 1" df); [|reflexivity].
    unfold has_column. rewrite lookup_drop_other; [reflexivity|].
    apply key_stats_not_unnamed. exact Hc. }
  assert (Habs : absent_stats key_stats df1 = absent_stats key_stats df).
  { unfold absent_stats. apply filter_ext_in. intros c Hc.
    rewrite (Hsame c Hc). reflexivity. }
  destruct (coerce_stats_exact key_stats df1 stat_weights) as [cleaned Hrun].
  exists cleaned. rewrite Hrun, Habs. f_equal. f_equal. f_equal.
  apply filter_ext_in. intros [k wt] Hkv. cbn [fst].
  assert (Hk : In k key_stats).
  { unfold key_stats. apply in_map_iff. exists (k, wt). split; [reflexivity|exact Hkv]. }
  unfold absent_stats.
  destruct (has_column k df) eqn:Hcol.
  - apply negb_true_iff. apply not_true_is_false. intros H.
    apply existsb_exists in H as (c & Hc & Heq).
    apply String.eqb_eq in Heq. subst c.
    apply filter_In in Hc as [_ Hc]. rewrite Hcol in Hc. discriminate.
  - apply negb_false_iff. apply existsb_exists. exists k.
    split; [|apply String.eqb_refl].
    apply filter_In. split; [exact Hk|]. rewrite Hcol. reflexivity.
Qed.

(** X1. Cleaning (lines 44-56) never raises.  It prints one warning for each
    configured statistic that is not a column, in the order of the
    configuration, and nothing else; the weights that remain are those of the
    statistics that are columns, with their values unchanged.  The row labels
    are kept, the column [Unnamed: 1] is gone, the other columns that are not
    configured statistics are untouched, and a configured statistic that is a
    column is its [to_numeric] image, which holds no text. *)
Theorem cleaning_step (df : DataFrame) :
  exists cleaned,
    clean_data df
    = (map PrintWarning (absent_stats key_stats df),
       inr (cleaned, filter (fun kv => has_column (fst kv) df) stat_weights)) /\
    index cleaned = index df /\
    lookup "Unnamed: 1" (columns cleaned) = None /\
    (forall c, c <> "Unnamed: 1" -> ~ In c key_stats ->
       lookup c (columns cleaned) = lookup c (columns df)) /\
    (forall c, In c key_stats ->
       lookup c (columns cleaned) = option_map to_numeric (lookup c (columns df))) /\
    (forall c s, In c key_stats -> lookup c (columns cleaned) = Some s ->
       existsb is_str s = false).
Proof.
  unfold clean_data.
  set (df1 := if has_column "Unnamed: 1" df then drop_column "Unnamed: 1" df else df).
  assert (Hun : lookup "Unnamed: 1" (columns df1) = None).
  { unfold df1. destruct (has_column "Unnamed: 1" df) eqn:E.
    - apply lookup_drop_same.
    - unfold has_column in E. destruct (lookup "Unnamed: 1" (columns df));
        [discriminate | reflexivity]. }
  assert (Hoth : forall c, c <> "Unnamed: 1" ->
                   lookup c (columns df1) = lookup c (columns df)).
  { intros c Hc. unfold df1. destruct (has_column "Unnamed: 1" df); [|reflexivity].
    apply lookup_drop_other. exact Hc. }
  assert (Hidx1 : index df1 = index df)
    by (unfold df1; destruct (has_column "Unnamed: 1" df); reflexivity).
  destruct (clean_data_exact df) as [cleaned Hclean].
  destruct (coerce_stats_spec key_stats df1 stat_weights)
    as (out & cleaned' & w & Hrun & Hidx & _ & _ & Hcols).
  unfold clean_data in Hclean. fold df1 in Hclean.
  rewrite Hclean in Hrun. inversion Hrun; subst out cleaned' w. clear Hrun.
  exists cleaned. split; [exact Hclean|]. split; [congruence|].
  assert (Hkey : forall c, In c key_stats ->
            lookup c (columns cleaned) = option_map to_numeric (lookup c (columns df))).
  { intros c Hc. rewrite Hcols, (existsb_eqb_In c key_stats Hc).
    rewrite (Hoth c (key_stats_not_unnamed c Hc)). reflexivity. }
  assert (Hnot : forall c, ~ In c key_stats ->
            lookup c (columns cleaned) = lookup c (columns df1)).
  { intros c Hc. rewrite Hcols.
    destruct (existsb (String.eqb c) key_stats) eqn:E; [|reflexivity].
    exfalso. apply Hc. apply existsb_exists in E as (k & Hk & Heq).
    apply String.eqb_eq in Heq. subst k. exact Hk. }
  split.
  { rewrite Hnot; [exact Hun|]. intros H.
    apply (key_stats_not_unnamed _ H). reflexivity. }
  split.
  { intros c Hc Hk. rewrite (Hnot c Hk). apply Hoth. exact Hc. }
  split; [exact Hkey|].
  intros c s Hc Hs. rewrite (Hkey c Hc) in Hs.
  destruct (lookup c (columns df)) as [s0|]; [|discriminate].
  inversion Hs. apply to_numeric_no_text.
Qed.

(** * No [Games] column (line 62) *)

(** X2. A table without a [Games] column: after the warnings of the cleaning
    step the run ends in [KeyError] for [Games] at line 62; the filter line is
    not printed. *)
Theorem missing_games_column_raises (argsort : list R -> list nat)
    (df : DataFrame) :
  lookup "Games" (columns df) = None ->
  analyze_lol_data argsort (Loaded df)
  = (PrintLoading :: map PrintWarning (absent_stats key_stats df),
     inl (KeyError "Games")).
Proof.
  intros Hg.
  destruct (clean_data_exact df) as [cleaned Hclean].
  destruct (clean_data_spec df) as (o & c & w & Hspec & _ & _ & _ & Hcols).
  rewrite Hclean in Hspec. inversion Hspec; subst o c w. clear Hspec.
  assert (Hgc : lookup "Games" (columns cleaned) = None).
  { rewrite Hcols by discriminate. simpl. exact Hg. }
  unfold analyze_lol_data, rate, bind, print. rewrite Hclean.
  rewrite (filter_games_no_column cleaned Hgc). simpl.
  rewrite app_nil_r. reflexivity.
Qed.

(** * The counts of the filter (lines 61-63) *)

Lemma compress_length_le {A : Type} (m : list bool) (l : list A) :
  (length (compress m l) <= length l)%nat.
Proof.
  revert l. induction m as [|b m IH]; intros l; simpl; [lia|].
  destruct b; destruct l as [|x l]; simpl; try lia;
    specialize (IH l); lia.
Qed.

(** X8. The two counts of the line printed by the filter (line 63) add up to
    the number of rows of the table it was given, and the second is the
    number of rows it returns. *)
Theorem filter_counts_add_up (df kept : DataFrame) (out : list event) :
  filter_games df = (out, inr kept) ->
  exists removed,
    out = [PrintFiltered removed (len kept)] /\
    (removed + len kept = len df)%nat.
Proof.
  intros H. apply filter_games_returns in H as (g & _ & _ & Hkept & Hout).
  exists (len df - len kept)%nat. split; [exact Hout|].
  assert (len kept <= len df)%nat; [|lia].
  rewrite Hkept. unfold len, select_rows. simpl. apply compress_length_le.
Qed.

(** * How a run on a loaded table ends *)

Lemma cleaned_games (df cleaned : DataFrame) (w : list (string * R))
    (out : list event) :
  clean_data df = (out, inr (cleaned, w)) ->
  lookup "Games" (columns cleaned) = lookup "Games" (columns df).
Proof.
  intros H.
  destruct (clean_data_spec df) as (o & c & w' & Hspec & _ & _ & _ & Hcols).
  rewrite H in Hspec. inversion Hspec; subst o c w'.
  rewrite Hcols by discriminate. reflexivity.
Qed.

Lemma cleaned_stat (df cleaned : DataFrame) (w : list (string * R))
    (out : list event) (c : string) :
  clean_data df = (out, inr (cleaned, w)) ->
  In c key_stats ->
  lookup c (columns cleaned) = option_map to_numeric (lookup c (columns df)).
Proof.
  intros H Hc.
  destruct (clean_data_spec df) as (o & c' & w' & Hspec & _ & _ & _ & Hcols).
  rewrite H in Hspec. inversion Hspec; subst o c' w'.
  rewrite Hcols by (apply key_stats_not_unnamed; exact Hc).
  rewrite (existsb_eqb_In c key_stats Hc). reflexivity.
Qed.

Lemma cleaned_index (df cleaned : DataFrame) (w : list (string * R))
    (out : list event) :
  clean_data df = (out, inr (cleaned, w)) -> index cleaned = index df.
Proof.
  intros H.
  destruct (clean_data_spec df) as (o & c' & w' & Hspec & Hidx & _).
  rewrite H in Hspec. inversion Hspec; subst o c' w'. exact Hidx.
Qed.

(** X3. Whatever the table, text in a cell of the [Games] column ends the run
    in [TypeError] at line 62, after the warnings of the cleaning step and
    before anything else is printed. *)
Theorem text_in_games_type_error (argsort : list R -> list nat)
    (df : DataFrame) (g : Series) :
  lookup "Games" (columns df) = Some g ->
  existsb is_str g = true ->
  analyze_lol_data argsort (Loaded df)
  = (PrintLoading :: map PrintWarning (absent_stats key_stats df),
     inl TypeError).
Proof.
  intros Hg Htext.
  destruct (clean_data_exact df) as [cleaned Hclean].
  assert (Hgc : lookup "Games" (columns cleaned) = Some g)
    by (rewrite (cleaned_games _ _ _ _ Hclean); exact Hg).
  unfold analyze_lol_data, rate, bind, print. rewrite Hclean.
  rewrite (filter_games_text cleaned g Hgc Htext). simpl.
  rewrite app_nil_r. reflexivity.
Qed.

Lemma select_columns_first_missing (cs : list string)
    (cols : list (string * Series)) (c : string) :
  In c cs -> lookup c cols = None ->
  exists c', In c' cs /\ lookup c' cols = None /\
             select_columns cs cols = inl (KeyError c').
Proof.
  induction cs as [|a r IH]; intros Hin Hc; [contradiction|].
  simpl. destruct (lookup a cols) as [s|] eqn:E.
  - destruct Hin as [->|Hin]; [congruence|].
    destruct (IH Hin Hc) as (c' & Hc' & Hnone & Hsel).
    exists c'. rewrite Hsel. split; [right; exact Hc'|]. split; [exact Hnone|reflexivity].
  - exists a. split; [left; reflexivity|]. split; [exact E|reflexivity].
Qed.

Lemma absent_stats_In (cols : list string) (df : DataFrame) (c : string) :
  In c (absent_stats cols df) <-> In c cols /\ lookup c (columns df) = None.
Proof.
  unfold absent_stats. rewrite filter_In. unfold has_column.
  destruct (lookup c (columns df)); simpl; intuition congruence.
Qed.

(** X4. When the [Games] column is there and holds no text, a configured
    statistic that is not a column ends the run in [KeyError] for a statistic
    that is not a column, at line 74: the warnings and the filter line have
    been printed by then, and nothing else. *)
Theorem absent_statistic_key_error (argsort : list R -> list nat)
    (df : DataFrame) (g : Series) (c : string) :
  lookup "Games" (columns df) = Some g ->
  existsb is_str g = false ->
  In c key_stats ->
  lookup c (columns df) = None ->
  exists c' removed kept,
    In c' (absent_stats key_stats df) /\
    analyze_lol_data argsort (Loaded df)
    = (PrintLoading :: map PrintWarning (absent_stats key_stats df)
                    ++ [PrintFiltered removed kept],
       inl (KeyError c')).
Proof.
  intros Hg Htext Hc Hnone.
  destruct (clean_data_exact df) as [cleaned Hclean].
  assert (Hgc : lookup "Games" (columns cleaned) = Some g)
    by (rewrite (cleaned_games _ _ _ _ Hclean); exact Hg).
  pose proof (filter_games_numeric cleaned g Hgc Htext) as Hfilter.
  cbv zeta in Hfilter.
  set (filtered := select_rows (ge_mask g min_games) cleaned) in *.
  assert (Hmiss : lookup c (columns (impute key_stats filtered)) = None).
  { apply impute_lookup_none. unfold filtered. rewrite lookup_select_rows.
    rewrite (cleaned_stat _ _ _ _ c Hclean Hc), Hnone. reflexivity. }
  destruct (select_columns_first_missing key_stats _ c Hc Hmiss)
    as (c' & Hc' & Hnone' & Hsel).
  exists c', (len cleaned - len filtered)%nat, (len filtered).
  split.
  { apply absent_stats_In. split; [exact Hc'|].
    destruct (lookup c' (columns df)) as [s|] eqn:E; [|reflexivity].
    exfalso.
    assert (H : lookup c' (columns (impute key_stats filtered))
                = Some (fillna (Series_mean (compress (ge_mask g min_games) (to_numeric s)))
                          (compress (ge_mask g min_games) (to_numeric s)))).
    { apply impute_lookup; [apply key_stats_NoDup | exact Hc' |].
      unfold filtered. rewrite lookup_select_rows.
      rewrite (cleaned_stat _ _ _ _ c' Hclean Hc'), E. reflexivity. }
    congruence. }
  unfold analyze_lol_data, rate, normalize, select, bind, print.
  rewrite Hclean, Hfilter, Hsel. simpl.
  rewrite ?app_nil_r. reflexivity.
Qed.

Lemma compress_ge_mask_none {A : Type} (g : Series) (k : R) (l : list A) :
  Forall (fun c => forall x, c = Num x -> x < k) g ->
  compress (ge_mask g k) l = [].
Proof.
  intros H. revert l. induction H as [|c g Hc Hg IH]; intros l; [reflexivity|].
  simpl. destruct c as [x| |s].
  - rewrite Rleb_false by (specialize (Hc x eq_refl); lra).
    destruct l; [reflexivity|apply IH].
  - destruct l; [reflexivity|apply IH].
  - destruct l; [reflexivity|apply IH].
Qed.

Lemma select_columns_total (cs : list string) (cols : list (string * Series)) :
  (forall c, In c cs -> exists s, lookup c cols = Some s) ->
  exists sel, select_columns cs cols = inr sel.
Proof.
  induction cs as [|a r IH]; intros H; [exists []; reflexivity|].
  simpl. destruct (H a (or_introl eq_refl)) as [s ->].
  destruct IH as [sel ->]; [intros c Hc; apply H; right; exact Hc|].
  eexists. reflexivity.
Qed.

(** X6. When every configured statistic is a column and the [Games] column
    holds no text, and no row has [min_games] games, the run prints that it
    filtered out every row and analyses 0 players, and ends in the
    [ValueError] of [StandardScaler] at line 75. *)
Theorem no_row_kept_value_error (argsort : list R -> list nat)
    (df : DataFrame) (g : Series) :
  (forall c, In c key_stats -> exists s, lookup c (columns df) = Some s) ->
  lookup "Games" (columns df) = Some g ->
  existsb is_str g = false ->
  Forall (fun c => forall x, c = Num x -> x < min_games) g ->
  analyze_lol_data argsort (Loaded df)
  = ([PrintLoading; PrintFiltered (len df) 0], inl ValueError).
Proof.
  intros Hstats Hg Htext Hfew.
  destruct (clean_data_exact df) as [cleaned Hclean].
  assert (Hnone : absent_stats key_stats df = []).
  { destruct (absent_stats key_stats df) as [|c r] eqn:E; [reflexivity|].
    assert (Hin : In c (absent_stats key_stats df)) by (rewrite E; left; reflexivity).
    apply absent_stats_In in Hin as [Hc Hl].
    destruct (Hstats c Hc) as [s Hs]. congruence. }
  rewrite Hnone in Hclean. cbn [map] in Hclean.
  assert (Hgc : lookup "Games" (columns cleaned) = Some g)
    by (rewrite (cleaned_games _ _ _ _ Hclean); exact Hg).
  pose proof (filter_games_numeric cleaned g Hgc Htext) as Hfilter.
  cbv zeta in Hfilter.
  set (filtered := select_rows (ge_mask g min_games) cleaned) in *.
  assert (Hlen : len filtered = 0%nat).
  { unfold filtered, len, select_rows. cbn [index].
    rewrite (compress_ge_mask_none g min_games _ Hfew). reflexivity. }
  rewrite Hlen, Nat.sub_0_r in Hfilter.
  assert (Hcl : len cleaned = len df)
    by (unfold len; rewrite (cleaned_index _ _ _ _ Hclean); reflexivity).
  rewrite Hcl in Hfilter.
  destruct (select_columns_total key_stats (columns (impute key_stats filtered)))
    as [sel Hsel].
  { intros c Hc. destruct (Hstats c Hc) as [s Hs].
    eexists. apply impute_lookup; [apply key_stats_NoDup | exact Hc |].
    unfold filtered. rewrite lookup_select_rows.
    rewrite (cleaned_stat _ _ _ _ c Hclean Hc), Hs. reflexivity. }
  assert (Hcheck : check_array (mkDataFrame (index (impute key_stats filtered)) sel)
                   = ([], inl ValueError)).
  { unfold check_array. cbn [columns].
    destruct (existsb (fun kv => existsb is_str (snd kv)) sel); [reflexivity|].
    unfold len at 1. cbn [index]. rewrite impute_index.
    fold (len filtered). rewrite Hlen. reflexivity. }
  unfold analyze_lol_data, rate, normalize, select, StandardScaler_fit_transform,
    bind, print.
  rewrite Hclean, Hfilter, Hsel. unfold ret. rewrite Hcheck. reflexivity.
Qed.

(** * Composite scores of numeric columns (lines 79-81) *)

Lemma Series_add_numbers (acc z : list R) (wt : R) :
  length z = length acc ->
  exists acc',
    Series_add (map Num acc) (map (fun c => cell_scale c wt) (map Num z))
    = map Num acc' /\
    length acc' = length acc /\
    (forall i, nth i acc' 0 = nth i acc 0 + nth i z 0 * wt) /\
    Rsum acc' = Rsum acc + Rsum z * wt.
Proof.
  revert z. induction acc as [|x acc IH]; intros z Hlen.
  - destruct z; [|discriminate]. exists []. repeat split.
    intros i. destruct i; simpl; lra. simpl. lra.
  - destruct z as [|y z]; [discriminate|].
    destruct (IH z) as (acc' & Hadd & Hl & Hnth & Hsum); [simpl in Hlen; lia|].
    exists ((x + y * wt) :: acc'). simpl. rewrite Hadd.
    split; [reflexivity|]. split; [congruence|]. split.
    + intros [|i]; [reflexivity|apply Hnth].
    + rewrite Hsum. lra.
Qed.

Lemma Rsum_cons (x : R) (l : list R) : Rsum (x :: l) = x + Rsum l.
Proof. reflexivity. Qed.

Lemma add_weighted_numeric (w : list (string * R)) (dfn df : DataFrame)
    (acc : list R) (zs : string -> list R) :
  lookup "CompositeScore" (columns df) = Some (map Num acc) ->
  (forall c wt, In (c, wt) w ->
     lookup c (columns dfn) = Some (map Num (zs c)) /\
     length (zs c) = length acc) ->
  exists df' cs,
    add_weighted w dfn df = ([], inr df') /\
    lookup "CompositeScore" (columns df') = Some (map Num cs) /\
    length cs = length acc /\
    (forall i, nth i cs 0
               = nth i acc 0 + Rsum (map (fun kv => nth i (zs (fst kv)) 0 * snd kv) w)) /\
    Rsum cs = Rsum acc + Rsum (map (fun kv => Rsum (zs (fst kv)) * snd kv) w).
Proof.
  revert df acc. induction w as [|[col weight] rest IH]; intros df acc Hacc Hcols.
  - exists df, acc. simpl. repeat split; try assumption; try lra.
    intros i. lra.
  - destruct (Hcols col weight (or_introl eq_refl)) as [Hz Hlen].
    destruct (Series_add_numbers acc (zs col) weight Hlen)
      as (acc' & Hadd & Hl & Hnth & Hsum).
    destruct (IH (set_column "CompositeScore" (map Num acc') df) acc')
      as (df' & cs & Hrun & Hcs & Hlcs & Hncs & Hscs).
    { cbn [set_column columns]. apply lookup_assign_same. }
    { intros c wt Hin. destruct (Hcols c wt (or_intror Hin)) as [H1 H2].
      split; [exact H1|congruence]. }
    exists df', cs. cbn [add_weighted]. unfold get_column, bind.
    rewrite Hacc, Hz. unfold ret. cbn [app]. rewrite Hadd, Hrun.
    split; [reflexivity|]. split; [exact Hcs|]. split; [congruence|]. split.
    + intros i. rewrite Hncs, Hnth. rewrite map_cons, Rsum_cons. cbn [fst snd]. lra.
    + rewrite Hscs, Hsum. rewrite map_cons, Rsum_cons. cbn [fst snd]. lra.
Qed.

Lemma Rsum_repeat_zero (n : nat) : Rsum (repeat 0 n) = 0.
Proof. induction n as [|n IH]; simpl; [reflexivity|]. fold (Rsum (repeat 0 n)). lra. Qed.

Lemma nth_repeat_zero (n i : nat) : nth i (repeat 0 n) 0 = 0.
Proof.
  revert i. induction n as [|n IH]; intros [|i]; simpl; try reflexivity. apply IH.
Qed.

Lemma map_Num_repeat (n : nat) : map Num (repeat 0 n) = repeat (Num 0) n.
Proof. induction n as [|n IH]; simpl; congruence. Qed.

Lemma composite_score_numeric (w : list (string * R)) (dfn df : DataFrame)
    (zs : string -> list R) :
  (forall c wt, In (c, wt) w ->
     lookup c (columns dfn) = Some (map Num (zs c)) /\
     length (zs c) = len df) ->
  exists df' cs,
    composite_score w dfn df = ([], inr df') /\
    lookup "CompositeScore" (columns df') = Some (map Num cs) /\
    length cs = len df /\
    (forall i, nth i cs 0
               = Rsum (map (fun kv => nth i (zs (fst kv)) 0 * snd kv) w)) /\
    Rsum cs = Rsum (map (fun kv => Rsum (zs (fst kv)) * snd kv) w).
Proof.
  intros Hcols. unfold composite_score.
  destruct (add_weighted_numeric w dfn
              (set_column "CompositeScore" (repeat (Num 0) (len df)) df)
              (repeat 0 (len df)) zs)
    as (df' & cs & Hrun & Hcs & Hlen & Hnth & Hsum).
  { cbn [set_column columns]. rewrite map_Num_repeat. apply lookup_assign_same. }
  { intros c wt Hin. rewrite repeat_length. apply (Hcols c wt Hin). }
  exists df', cs. split; [exact Hrun|]. split; [exact Hcs|].
  split; [rewrite Hlen; apply repeat_length|]. split.
  - intros i. rewrite Hnth, nth_repeat_zero. lra.
  - rewrite Hsum, Rsum_repeat_zero. lra.
Qed.

(** X12. Lines 79-81 on standardised columns without a gap: the stage
    returns, and the composite score of row [i] is the sum, over the weights
    it is given, of the z-score of the row times the weight. *)
Theorem composite_score_formula (w : list (string * R)) (dfn df : DataFrame)
    (zs : string -> list R) :
  (forall c wt, In (c, wt) w ->
     lookup c (columns dfn) = Some (map Num (zs c)) /\
     length (zs c) = len df) ->
  exists df' cs,
    composite_score w dfn df = ([], inr df') /\
    lookup "CompositeScore" (columns df') = Some (map Num cs) /\
    length cs = len df /\
    forall i, nth i cs 0
              = Rsum (map (fun kv => nth i (zs (fst kv)) 0 * snd kv) w).
Proof.
  intros Hcols.
  destruct (composite_score_numeric w dfn df zs Hcols)
    as (df' & cs & Hrun & Hcs & Hlen & Hnth & _).
  exists df', cs. repeat split; assumption.
Qed.

(** * Statistics that have a value (lines 67-81) *)

Lemma compress_no_text (m : list bool) (s : Series) :
  existsb is_str s = false -> existsb is_str (compress m s) = false.
Proof.
  revert s. induction m as [|b m IH]; intros s H; [reflexivity|].
  destruct s as [|c s]; [destruct b; reflexivity|].
  simpl in H. apply orb_false_iff in H as [Hc Hs].
  destruct b; simpl; [rewrite Hc|]; apply IH; exact Hs.
Qed.

Lemma fillna_fill_with (m : R) (s : Series) :
  existsb is_str s = false -> fillna (Num m) s = map Num (fill_with m s).
Proof.
  induction s as [|c s IH]; intros H; [reflexivity|].
  simpl in H. apply orb_false_iff in H as [Hc Hs].
  simpl. rewrite <- (IH Hs). destruct c; [reflexivity|reflexivity|discriminate].
Qed.

Lemma fill_with_length (m : R) (s : Series) : length (fill_with m s) = length s.
Proof. apply length_map. Qed.

Lemma imputed_numbers (s : Series) :
  existsb is_str s = false -> values s <> [] ->
  fillna (Series_mean s) s = map Num (fill_with (population_mean (values s)) s).
Proof.
  intros Htext Hvals. unfold Series_mean. rewrite (nanmean_some s Hvals).
  apply fillna_fill_with. exact Htext.
Qed.

Lemma standard_scale_numbers (xs : list R) :
  xs <> [] ->
  standard_scale (map Num xs)
  = map Num (map (fun x => (x - population_mean xs)
                           / handle_zeros_in_scale (sqrt (population_variance xs))) xs).
Proof.
  intros Hxs. rewrite standard_scale_unfold; rewrite values_map_Num; [|exact Hxs].
  apply map_numbers_map_Num.
Qed.

Lemma filter_all_true {A : Type} (p : A -> bool) (l : list A) :
  (forall x, In x l -> p x = true) -> filter p l = l.
Proof.
  induction l as [|x l IH]; intros H; [reflexivity|].
  simpl. rewrite (H x (or_introl eq_refl)). f_equal.
  apply IH. intros y Hy. apply H. right. exact Hy.
Qed.

Lemma stat_weights_key (c : string) (wt : R) :
  In (c, wt) stat_weights -> In c key_stats.
Proof.
  intros H. unfold key_stats. apply in_map_iff. exists (c, wt).
  split; [reflexivity|exact H].
Qed.

Lemma key_stat_not_score (c : string) :
  In c key_stats -> c <> "CompositeScore" /\ c <> "PlayerRating" /\ c <> "Games".
Proof.
  unfold key_stats, stat_weights. simpl. intros H.
  repeat split; intros ->; intuition discriminate.
Qed.


(** X13. A run on a well-formed table in which every configured statistic
    has a value among the rows the filter keeps: all six weights are used,
    the composite scores are numbers, one for each kept row, and the score
    of row [i] is the sum over the configured weights of the weight times
    the z-score of the imputed statistic. *)
Theorem complete_table_composite_score (df cleaned filtered rated : DataFrame)
    (w : list (string * R)) (o1 o2 out : list event) :
  well_formed df ->
  clean_data df = (o1, inr (cleaned, w)) ->
  filter_games cleaned = (o2, inr filtered) ->
  rate df = (out, inr rated) ->
  (forall c s, In c key_stats -> lookup c (columns filtered) = Some s ->
               values s <> []) ->
  exists (zs : string -> list R) (cs : list R),
    (forall c, In c key_stats ->
       exists s', lookup c (columns rated) = Some s' /\
                  standard_scale s' = map Num (zs c)) /\
    lookup "CompositeScore" (columns rated) = Some (map Num cs) /\
    length cs = len rated /\
    forall i, nth i cs 0
              = Rsum (map (fun kv => nth i (zs (fst kv)) 0 * snd kv) stat_weights).
Proof.
  intros Hwf Hclean Hfilter Hrate Hvals.
  (* the weights are all there *)
  assert (Hw : w = stat_weights).
  { destruct (clean_data_exact df) as [cleaned' Hexact].
    rewrite Hclean in Hexact.
    assert (Hweights : w = filter (fun kv => has_column (fst kv) df) stat_weights)
      by congruence.
    rewrite Hweights. clear Hexact Hweights.
    apply filter_all_true. intros [c wt] Hin. cbn [fst].
    destruct (rate_returns _ _ _ Hrate)
      as (o1' & cl & w' & fl & cs' & Hcl & Hfl & _ & _ & _ & _ & _ & Hpres & _).
    rewrite Hclean in Hcl. inversion Hcl; subst o1' cl w'.
    rewrite Hfilter in Hfl. inversion Hfl; subst fl.
    destruct (Hpres c (stat_weights_key c wt Hin)) as [s Hs].
    apply filter_games_returns in Hfilter as (g & _ & _ & Hkept & _).
    rewrite Hkept, lookup_select_rows in Hs.
    rewrite (cleaned_stat _ _ _ _ c Hclean (stat_weights_key c wt Hin)) in Hs.
    unfold has_column. destruct (lookup c (columns df)); [reflexivity|discriminate]. }
  subst w.
  pose proof Hfilter as Hf.
  apply filter_games_returns in Hf as (g & Hg & Hgtext & Hkept & _).
  assert (Hwff : well_formed filtered).
  { rewrite Hkept. apply well_formed_select_rows.
    destruct (clean_data_spec df) as (a & b & c & Hspec & _ & Hwfc & _).
    rewrite Hclean in Hspec. inversion Hspec; subst a b c. apply Hwfc. exact Hwf. }
  assert (Htext : forall c s, In c key_stats -> lookup c (columns filtered) = Some s ->
                    existsb is_str s = false).
  { intros c s Hc Hs. rewrite Hkept, lookup_select_rows in Hs.
    rewrite (cleaned_stat _ _ _ _ c Hclean Hc) in Hs.
    destruct (lookup c (columns df)) as [s0|]; [|discriminate].
    inversion Hs. apply compress_no_text. apply to_numeric_no_text. }
  unfold rate in Hrate. rewrite Hclean in Hrate.
  apply bind_returns in Hrate as (o1' & [cleaned' w'] & o' & Hret & Hrate & ->).
  inversion Hret; subst o1' cleaned' w'. clear Hret.
  rewrite Hfilter in Hrate.
  apply bind_returns in Hrate as (o2' & filtered' & o'' & Hret & Hrate & ->).
  inversion Hret; subst o2' filtered'. clear Hret.
  apply bind_returns in Hrate as (o5 & dfn & o6 & Hnorm & Hrate & ->).
  apply bind_returns in Hrate as (o7 & df4 & o8 & Hcomp & Hrate & ->).
  apply player_rating_returns in Hrate as (cs0 & Hcs0 & -> & _ & Hlen4).
  apply normalize_returns in Hnorm as (_ & _ & Hlen3 & Hstats & _).
  set (zs := fun c => match lookup c (columns dfn) with
                      | Some z => values z
                      | None => []
                      end).
  assert (Hlen : len (set_column "PlayerRating" (minmax_scale 0 100 cs0) df4)
                 = len filtered).
  { apply composite_score_returns in Hcomp as (_ & Hidx4 & _).
    unfold len. cbn [set_column index]. rewrite Hidx4, impute_index. reflexivity. }
  assert (Hcol : forall c, In c key_stats ->
            exists s', lookup c (columns (impute key_stats filtered)) = Some s' /\
              lookup c (columns dfn) = Some (map Num (zs c)) /\
              standard_scale s' = map Num (zs c) /\
              length (zs c) = len filtered).
  { intros c Hc. destruct (Hstats c Hc) as (s3 & Hs3 & Hz).
    destruct (lookup c (columns filtered)) as [s|] eqn:Hs;
      [|rewrite (impute_lookup_none _ _ _ Hs) in Hs3; discriminate].
    pose proof Hs3 as Himp.
    rewrite (impute_lookup _ _ _ _ key_stats_NoDup Hc Hs) in Hs3.
    inversion Hs3; subst s3. clear Hs3.
    rewrite (imputed_numbers s (Htext c s Hc Hs) (Hvals c s Hc Hs)) in Hz, Himp.
    assert (Hne : fill_with (population_mean (values s)) s <> []).
    { pose proof (Hvals c s Hc Hs) as Hv. destruct s; [contradiction|discriminate]. }
    assert (Hzs : standard_scale (map Num (fill_with (population_mean (values s)) s))
                  = map Num (zs c)).
    { unfold zs. rewrite Hz, (standard_scale_numbers _ Hne), values_map_Num.
      reflexivity. }
    eexists. split; [exact Himp|].
    split; [rewrite Hz; f_equal; exact Hzs|]. split; [exact Hzs|].
    apply (f_equal (@length cell)) in Hzs.
    rewrite standard_scale_length, !length_map, fill_with_length in Hzs.
    rewrite <- Hzs. apply (well_formed_lookup filtered c s Hwff Hs). }
  destruct (composite_score_numeric stat_weights dfn (impute key_stats filtered) zs)
    as (df' & cs & Hrun & Hcs & Hlcs & Hnth & _).
  { intros c wt Hin. destruct (Hcol c (stat_weights_key c wt Hin))
      as (s' & _ & Hz & _ & Hl).
    split; [exact Hz|]. unfold len. rewrite impute_index. exact Hl. }
  rewrite Hrun in Hcomp. inversion Hcomp; subst o7 df4. clear Hcomp.
  rewrite Hcs in Hcs0. inversion Hcs0; subst cs0. clear Hcs0.
  exists zs, cs.
  split.
  { intros c Hc. destruct (Hcol c Hc) as (s' & Himp & _ & Hz & _).
    exists s'. split; [|exact Hz].
    cbn [set_column columns].
    destruct (key_stat_not_score c Hc) as (H1 & H2 & _).
    rewrite lookup_assign_other by exact H2.
    apply composite_score_returns in Hrun as (_ & _ & Hother & _).
    rewrite (Hother c H1). exact Himp. }
  split.
  { cbn [set_column columns]. rewrite lookup_assign_other by discriminate. exact Hcs. }
  split; [|exact Hnth].
  rewrite Hlen, Hlcs. unfold len. rewrite impute_index. reflexivity.
Qed.

(** * Ratings follow the composite scores (lines 85-86) *)

Lemma In_values (s : Series) (x : R) : In (Num x) s -> In x (values s).
Proof.
  induction s as [|c s IH]; intros H; [contradiction|].
  destruct H as [->|H]; [left; reflexivity|].
  destruct c; simpl; auto.
Qed.

Lemma rescaled_order (mn mx x y : R) :
  mn <= x -> x <= y -> y <= mx ->
  (if Reqb (mx - mn) 0 then 0 else (x - mn) / (mx - mn) * 100)
  <= (if Reqb (mx - mn) 0 then 0 else (y - mn) / (mx - mn) * 100).
Proof.
  intros Hx Hxy Hy.
  destruct (Req_dec_T (mx - mn) 0) as [Heq|Hne].
  - rewrite (Reqb_true _ _ Heq). lra.
  - rewrite (Reqb_false _ _ Hne).
    assert (Hd : 0 < mx - mn) by lra.
    apply Rmult_le_compat_r; [lra|].
    apply Rmult_le_compat_r; [left; apply Rinv_0_lt_compat; exact Hd | lra].
Qed.

(** X17. Rescaling (lines 85-86) never reverses the order of two composite
    scores: of two rows with a score, the one whose score is not larger does
    not get the larger rating. *)
Theorem rating_monotone (df rated : DataFrame) (out : list event) (cs : Series) :
  player_rating df = (out, inr rated) ->
  lookup "CompositeScore" (columns df) = Some cs ->
  exists rs,
    lookup "PlayerRating" (columns rated) = Some rs /\
    length rs = length cs /\
    forall i j x y,
      nth_error cs i = Some (Num x) -> nth_error cs j = Some (Num y) ->
      x <= y ->
      exists rx ry,
        nth_error rs i = Some (Num rx) /\ nth_error rs j = Some (Num ry) /\
        rx <= ry.
Proof.
  intros Hrun Hcs.
  apply player_rating_returns in Hrun as (cs' & Hcs' & -> & _ & _).
  rewrite Hcs in Hcs'. inversion Hcs'; subst cs'. clear Hcs'.
  exists (minmax_scale 0 100 cs).
  split; [cbn [set_column columns]; apply lookup_assign_same|].
  split; [apply minmax_scale_length|].
  intros i j x y Hi Hj Hxy.
  assert (Hx : In x (values cs)) by (apply In_values; apply (nth_error_In _ _ Hi)).
  assert (Hy : In y (values cs)) by (apply In_values; apply (nth_error_In _ _ Hj)).
  destruct (nanmin_nanmax_some cs) as (mn & mx & Hmn & Hmx);
    [intros H0; rewrite H0 in Hx; contradiction|].
  rewrite (minmax_scale_range cs mn mx Hmn Hmx).
  destruct (nanmin_spec _ _ Hmn) as [_ Hlo].
  destruct (nanmax_spec _ _ Hmx) as [_ Hhi].
  eexists. eexists. unfold map_numbers.
  rewrite !nth_error_map, Hi, Hj. cbn [option_map].
  split; [reflexivity|]. split; [reflexivity|].
  apply rescaled_order; [apply Hlo; exact Hx | exact Hxy | apply Hhi; exact Hy].
Qed.

(** X16. Rescaling (lines 85-86): a row whose composite score is the
    smallest is rated 0, and no row with a score is rated below 0. *)
Theorem lowest_score_rated_zero (df rated : DataFrame) (out : list event)
    (cs : Series) (mn : R) :
  player_rating df = (out, inr rated) ->
  lookup "CompositeScore" (columns df) = Some cs ->
  nanmin cs = Some mn ->
  exists rs,
    lookup "PlayerRating" (columns rated) = Some rs /\
    (forall i, nth_error cs i = Some (Num mn) -> nth_error rs i = Some (Num 0)) /\
    forall i x, nth_error cs i = Some (Num x) ->
      exists r, nth_error rs i = Some (Num r) /\ 0 <= r.
Proof.
  intros Hrun Hcs Hmn.
  apply player_rating_returns in Hrun as (cs' & Hcs' & -> & _ & _).
  rewrite Hcs in Hcs'. inversion Hcs'; subst cs'. clear Hcs'.
  exists (minmax_scale 0 100 cs).
  split; [cbn [set_column columns]; apply lookup_assign_same|].
  destruct (nanmin_spec _ _ Hmn) as [Hin Hlo].
  destruct (nanmin_nanmax_some cs) as (mn' & mx & Hmn' & Hmx);
    [intros H0; rewrite H0 in Hin; contradiction|].
  assert (mn' = mn) by congruence. subst mn'.
  destruct (nanmax_spec _ _ Hmx) as [_ Hhi].
  rewrite (minmax_scale_range cs mn mx Hmn Hmx). unfold map_numbers.
  split.
  - intros i Hi. rewrite nth_error_map, Hi. cbn [option_map].
    destruct (Reqb (mx - mn) 0); [reflexivity|].
    f_equal. f_equal. unfold Rdiv. ring.
  - intros i x Hi. rewrite nth_error_map, Hi. cbn [option_map].
    eexists. split; [reflexivity|].
    assert (Hx : In x (values cs)) by (apply In_values; apply (nth_error_In _ _ Hi)).
    pose proof (rescaled_order mn mx mn x (Rle_refl mn) (Hlo x Hx) (Hhi x Hx)) as H.
    destruct (Reqb (mx - mn) 0); [lra|].
    replace ((mn - mn) / (mx - mn) * 100) with 0 in H by (unfold Rdiv; ring).
    exact H.
Qed.

(** * The rows and columns of the report (lines 90-96) *)

Lemma display_table_columns (argsort : list R -> list nat) (rated : DataFrame)
    (out : list event) (u : unit) :
  display argsort rated = (out, inr u) ->
  exists table, out = [PrintTop20 table] /\ map fst (columns table) = display_cols.
Proof.
  unfold display, sort_values. intros H.
  apply bind_returns in H as (o1 & sorted & o2 & Hsort & H & ->).
  apply bind_returns in Hsort as (o3 & ratings & o4 & Hk & Hsort & ->).
  apply get_column_returns in Hk as (Hk & ->).
  inversion Hsort; subst o4 sorted. clear Hsort.
  apply bind_returns in H as (o5 & shown & o6 & Hsel & H & ->).
  apply select_returns in Hsel as (Hsel & Hidx & ->).
  inversion H; subst o6. clear H.
  exists (head 20 shown). split; [reflexivity|].
  unfold head. cbn [columns]. rewrite map_map. cbn [fst].
  apply (select_columns_names _ _ _ Hsel).
Qed.

(** X19. The report of a run that returns (lines 90-96): its columns are
    [display_cols] in that order, each with one cell per reported row; it has
    twenty rows, or all the rows the filter kept when these are fewer; every
    reported player is one the filter kept, and with at most twenty kept rows
    the report lists exactly the kept players. *)
Theorem report_rows (argsort : list R -> list nat) (df : DataFrame)
    (out : list event) :
  argsort_spec argsort ->
  well_formed df ->
  analyze_lol_data argsort (Loaded df) = (out, inr tt) ->
  exists o1 cleaned w filtered pre table,
    clean_data df = (o1, inr (cleaned, w)) /\
    filter_games cleaned
    = ([PrintFiltered (len cleaned - len filtered) (len filtered)], inr filtered) /\
    out = pre ++ [PrintTop20 table] /\
    map fst (columns table) = display_cols /\
    well_formed table /\
    len table = Nat.min 20 (len filtered) /\
    incl (index table) (index filtered) /\
    ((len filtered <= 20)%nat -> Permutation (index table) (index filtered)).
Proof.
  intros Hsort Hwf Hrun.
  destruct (report_structure argsort df out Hsort Hwf Hrun)
    as (o1 & cleaned & w & filtered & rated & ratings & table & Hclean & Hfilter
        & Hrate & Hout & Hwff & Hwfr & Hidxr & Hr & Hperm & _ & Hidx & Hcols & _).
  cbv zeta in *.
  exists o1, cleaned, w, filtered,
    (PrintLoading :: o1 ++ [PrintFiltered (len cleaned - len filtered) (len filtered)]),
    table.
  split; [exact Hclean|]. split; [exact Hfilter|]. split; [exact Hout|].
  assert (Hnames : map fst (columns table) = display_cols).
  { apply analyze_returns in Hrun as (o1' & rated' & o2 & _ & Hdisplay & Hout').
    apply display_table_columns in Hdisplay as (table' & -> & Hnames).
    rewrite Hout in Hout'.
    assert (Heq : PrintTop20 table = PrintTop20 table').
    { change (PrintLoading :: (o1 ++ [PrintFiltered (len cleaned - len filtered)
                                        (len filtered)]) ++ [PrintTop20 table])
        with ((PrintLoading :: o1 ++ [PrintFiltered (len cleaned - len filtered)
                                        (len filtered)]) ++ [PrintTop20 table])
        in Hout'.
      change (PrintLoading :: o1' ++ [PrintTop20 table'])
        with ((PrintLoading :: o1') ++ [PrintTop20 table']) in Hout'.
      apply app_inj_tail in Hout' as [_ H]. exact H. }
    inversion Heq. exact Hnames. }
  split; [exact Hnames|].
  assert (Hlen : len table = Nat.min 20 (len filtered)).
  { unfold len at 1. rewrite Hidx, length_firstn, length_map.
    rewrite (Permutation_length Hperm), length_seq. reflexivity. }
  split.
  { unfold well_formed. apply Forall_forall. intros [c s] Hin. cbn [snd].
    assert (Hc : In c display_cols)
      by (rewrite <- Hnames; apply in_map_iff; exists (c, s); split; [reflexivity|exact Hin]).
    destruct (Hcols c Hc) as (s0 & _ & Hs0).
    assert (Hnodup : NoDup (map fst (columns table)))
      by (rewrite Hnames; unfold display_cols; repeat constructor; simpl;
          intuition discriminate).
    assert (Hs : lookup c (columns table) = Some s).
    { clear - Hin Hnodup. induction (columns table) as [|[k v] cols IH];
        [contradiction|].
      simpl. inversion Hnodup as [|? ? Hk Hnd]; subst.
      destruct Hin as [Heq|Hin].
      - inversion Heq; subst. rewrite String.eqb_refl. reflexivity.
      - destruct (String.eqb k c) eqn:E; [|apply IH; assumption].
        apply String.eqb_eq in E. subst k. exfalso. apply Hk.
        apply in_map_iff. exists (c, s). split; [reflexivity|exact Hin]. }
    rewrite Hs in Hs0.
    assert (Hshown : s = firstn 20 (map (fun i => nth i s0 NaN)
                                      (nargsort argsort false ratings)))
      by congruence.
    rewrite Hshown, Hlen, length_firstn, length_map.
    rewrite (Permutation_length Hperm), length_seq. reflexivity. }
  split; [exact Hlen|].
  assert (Hall : Permutation (map (fun i => nth i (index filtered) "")
                                (nargsort argsort false ratings))
                             (index filtered))
    by (apply map_nth_perm; exact Hperm).
  split.
  { intros name Hin. rewrite Hidx in Hin. apply In_firstn in Hin.
    apply (Permutation_in _ Hall Hin). }
  intros Hle. rewrite Hidx, firstn_all2; [exact Hall|].
  rewrite length_map, (Permutation_length Hperm), length_seq. exact Hle.
Qed.

(** * What imputation leaves (lines 67-69) *)

Lemma fillna_count_na (m : R) (s : Series) : count_na (fillna (Num m) s) = 0%nat.
Proof.
  unfold count_na. induction s as [|c s IH]; [reflexivity|].
  simpl. destruct c; simpl; exact IH.
Qed.

Lemma fillna_keeps_numbers (v : cell) (s : Series) (i : nat) (x : R) :
  nth_error s i = Some (Num x) -> nth_error (fillna v s) i = Some (Num x).
Proof.
  intros H. unfold fillna. rewrite nth_error_map, H. reflexivity.
Qed.

Lemma fillna_no_gap (v : cell) (s : Series) : count_na s = 0%nat -> fillna v s = s.
Proof.
  unfold count_na. induction s as [|c s IH]; intros H; [reflexivity|].
  simpl in *. destruct c; simpl in *; try discriminate; f_equal; apply IH; exact H.
Qed.

Lemma imputed_column (s : Series) :
  let s' := fillna (Series_mean s) s in
  length s' = length s /\
  (forall i x, nth_error s i = Some (Num x) -> nth_error s' i = Some (Num x)) /\
  (values s <> [] ->
     count_na s' = 0%nat /\
     forall i, nth_error s i = Some NaN ->
               nth_error s' i = Some (Num (population_mean (values s)))) /\
  (values s = [] -> s' = s).
Proof.
  cbv zeta. split; [apply fillna_length|].
  split; [intros i x; apply fillna_keeps_numbers|]. split.
  - intros Hv. unfold Series_mean. rewrite (nanmean_some s Hv). cbn [of_option].
    split; [apply fillna_count_na|].
    intros i Hi. unfold fillna. rewrite nth_error_map, Hi. reflexivity.
  - intros Hv. unfold Series_mean. rewrite (nanmean_none s Hv). apply fillna_NaN.
Qed.

(** X9. Imputation of a configured statistic (lines 67-69): the column keeps
    its length and every number it had; when the statistic has a value, no
    gap is left and every former gap holds the mean of the values; when it
    has none, the column is left as it was. *)
Theorem imputation_gaps (df : DataFrame) (col : string) (s : Series) :
  In col key_stats ->
  lookup col (columns df) = Some s ->
  exists s',
    lookup col (columns (impute key_stats df)) = Some s' /\
    length s' = length s /\
    (forall i x, nth_error s i = Some (Num x) -> nth_error s' i = Some (Num x)) /\
    (values s <> [] ->
       count_na s' = 0%nat /\
       forall i, nth_error s i = Some NaN ->
                 nth_error s' i = Some (Num (population_mean (values s)))) /\
    (values s = [] -> s' = s).
Proof.
  intros Hin Hs. exists (fillna (Series_mean s) s).
  split; [apply (impute_lookup _ _ _ _ key_stats_NoDup Hin Hs)|].
  apply imputed_column.
Qed.

(** X10. Imputing an imputed table changes nothing: the row labels and every
    column are those of the table imputed once. *)
Theorem imputation_idempotent (df : DataFrame) (c : string) :
  index (impute key_stats (impute key_stats df)) = index (impute key_stats df) /\
  lookup c (columns (impute key_stats (impute key_stats df)))
  = lookup c (columns (impute key_stats df)).
Proof.
  split; [apply impute_index|].
  destruct (in_dec string_dec c key_stats) as [Hin|Hout].
  - destruct (lookup c (columns df)) as [s|] eqn:Hs.
    + pose proof (impute_lookup _ _ _ _ key_stats_NoDup Hin Hs) as H1.
      rewrite (impute_lookup _ _ _ _ key_stats_NoDup Hin H1), H1. f_equal.
      destruct (imputed_column s) as (_ & _ & Hsome & Hnone).
      destruct (values s) as [|x xs] eqn:Hv.
      * rewrite (Hnone eq_refl). apply (Hnone eq_refl).
      * apply fillna_no_gap. apply Hsome. discriminate.
    + rewrite !impute_lookup_none; [reflexivity|exact Hs|].
      apply impute_lookup_none. exact Hs.
  - rewrite !impute_lookup_other by exact Hout. reflexivity.
Qed.

(** * Columns the script does not work on *)

Lemma cleaned_other (df cleaned : DataFrame) (w : list (string * R))
    (out : list event) (c : string) :
  clean_data df = (out, inr (cleaned, w)) ->
  ~ In c key_stats -> c <> "Unnamed: 1" ->
  lookup c (columns cleaned) = lookup c (columns df).
Proof.
  intros H Hc Hun.
  destruct (clean_data_spec df) as (o & c' & w' & Hspec & _ & _ & _ & Hcols).
  rewrite H in Hspec. inversion Hspec; subst o c' w'.
  rewrite (Hcols c Hun).
  destruct (existsb (String.eqb c) key_stats) eqn:E; [|reflexivity].
  exfalso. apply Hc. apply existsb_exists in E as (k & Hk & Heq).
  apply String.eqb_eq in Heq. subst k. exact Hk.
Qed.

(** X20. In the rated table of a run the rows are those the filter kept, in
    the order of the file, and a column that is neither a configured
    statistic nor [Unnamed: 1], [CompositeScore] or [PlayerRating] holds the
    cells of the file for those rows, unchanged. *)
Theorem other_columns_pass_through (df rated : DataFrame) (out : list event) :
  rate df = (out, inr rated) ->
  exists g,
    lookup "Games" (columns df) = Some g /\
    index rated = compress (ge_mask g min_games) (index df) /\
    forall c, ~ In c key_stats -> c <> "Unnamed: 1" ->
              c <> "CompositeScore" -> c <> "PlayerRating" ->
      lookup c (columns rated)
      = option_map (compress (ge_mask g min_games)) (lookup c (columns df)).
Proof.
  intros Hrate.
  destruct (rate_returns _ _ _ Hrate)
    as (o1 & cleaned & w & filtered & cs & Hclean & Hfilter & _ & Hidx & _ & _
        & Hother & _).
  apply filter_games_returns in Hfilter as (g & Hg & _ & Hkept & _).
  exists g. split; [rewrite <- (cleaned_games _ _ _ _ Hclean); exact Hg|].
  split.
  - rewrite Hidx, Hkept. unfold select_rows. cbn [index].
    rewrite (cleaned_index _ _ _ _ Hclean). reflexivity.
  - intros c Hkey Hun Hcs Hpr.
    rewrite (Hother c Hcs Hpr), (impute_lookup_other _ _ _ Hkey).
    rewrite Hkept, lookup_select_rows.
    rewrite (cleaned_other _ _ _ _ c Hclean Hkey Hun). reflexivity.
Qed.

(** * The general results at concrete tables *)

Lemma In_VSPM : In "VSPM" key_stats.
Proof. unfold key_stats, stat_weights. simpl. tauto. Qed.

Lemma table_few_games_stats (c : string) :
  In c key_stats -> exists s, lookup c (columns table_few_games) = Some s.
Proof.
  unfold key_stats, stat_weights. simpl.
  intros [<-|[<-|[<-|[<-|[<-|[<-|[]]]]]]]; eexists; reflexivity.
Qed.

Lemma table_kda_missing_values (c : string) (s : Series) :
  In c key_stats -> lookup c (columns table_kda_missing) = Some s -> values s <> [].
Proof.
  unfold key_stats, stat_weights. simpl.
  intros [<-|[<-|[<-|[<-|[<-|[<-|[]]]]]]] H; inversion H; discriminate.
Qed.

Lemma normalized_kda_missing_zscores (c : string) (wt : R) :
  In (c, wt) stat_weights ->
  lookup c (columns normalized_kda_missing) = Some (map Num (zscores_kda_missing c)) /\
  length (zscores_kda_missing c) = len imputed_kda_missing.
Proof.
  unfold stat_weights. simpl.
  intros [H|[H|[H|[H|[H|[H|[]]]]]]]; inversion H; split; reflexivity.
Qed.

(** A file without a [Games] column. *)
Lemma missing_games_column_raises_witness :
  lookup "Games" (columns table_without_games) = None /\
  analyze_lol_data stable_argsort (Loaded table_without_games)
  = (PrintLoading :: map PrintWarning (absent_stats key_stats table_without_games),
     inl (KeyError "Games")).
Proof.
  split; [reflexivity|].
  exact (missing_games_column_raises stable_argsort table_without_games eq_refl).
Defined.

(** Text in the second [Games] cell of [table_games_text]. *)
Lemma text_in_games_type_error_witness :
  lookup "Games" (columns table_games_text) = Some [Num 20; Str "unknown"; Num 5] /\
  existsb is_str [Num 20; Str "unknown"; Num 5] = true /\
  analyze_lol_data stable_argsort (Loaded table_games_text)
  = (PrintLoading :: map PrintWarning (absent_stats key_stats table_games_text),
     inl TypeError).
Proof.
  split; [reflexivity|]. split; [reflexivity|].
  exact (text_in_games_type_error stable_argsort table_games_text
           [Num 20; Str "unknown"; Num 5] eq_refl eq_refl).
Defined.

(** [VSPM] is not a column of [table_without_vspm]. *)
Lemma absent_statistic_key_error_witness :
  lookup "Games" (columns table_without_vspm) = Some [Num 20; Num 30] /\
  existsb is_str [Num 20; Num 30] = false /\
  In "VSPM" key_stats /\
  lookup "VSPM" (columns table_without_vspm) = None /\
  exists c' removed kept,
    In c' (absent_stats key_stats table_without_vspm) /\
    analyze_lol_data stable_argsort (Loaded table_without_vspm)
    = (PrintLoading :: map PrintWarning (absent_stats key_stats table_without_vspm)
                    ++ [PrintFiltered removed kept],
       inl (KeyError c')).
Proof.
  split; [reflexivity|]. split; [reflexivity|]. split; [exact In_VSPM|].
  split; [reflexivity|].
  exact (absent_statistic_key_error stable_argsort table_without_vspm
           [Num 20; Num 30] "VSPM" eq_refl eq_refl In_VSPM eq_refl).
Defined.

(** The same table, for the run that fails whatever else the table holds. *)
Lemma absent_statistic_fails_witness :
  In "VSPM" key_stats /\
  lookup "VSPM" (columns table_without_vspm) = None /\
  exists out e,
    analyze_lol_data stable_argsort (Loaded table_without_vspm) = (out, inl e) /\
    In (PrintWarning "VSPM") out.
Proof.
  split; [exact In_VSPM|]. split; [reflexivity|].
  exact (absent_statistic_fails stable_argsort table_without_vspm "VSPM"
           In_VSPM eq_refl).
Defined.

Lemma few_games_below_minimum :
  Forall (fun c => forall x, c = Num x -> x < min_games) [Num 5; Num 10].
Proof.
  repeat constructor; intros x H; inversion H; unfold min_games; lra.
Qed.

(** Neither player of [table_few_games] has fifteen games. *)
Lemma no_row_kept_value_error_witness :
  (forall c, In c key_stats ->
     exists s, lookup c (columns table_few_games) = Some s) /\
  lookup "Games" (columns table_few_games) = Some [Num 5; Num 10] /\
  existsb is_str [Num 5; Num 10] = false /\
  Forall (fun c => forall x, c = Num x -> x < min_games) [Num 5; Num 10] /\
  analyze_lol_data stable_argsort (Loaded table_few_games)
  = ([PrintLoading; PrintFiltered (len table_few_games) 0], inl ValueError).
Proof.
  split; [exact table_few_games_stats|]. split; [reflexivity|].
  split; [reflexivity|]. split; [exact few_games_below_minimum|].
  exact (no_row_kept_value_error stable_argsort table_few_games [Num 5; Num 10]
           table_few_games_stats eq_refl eq_refl few_games_below_minimum).
Defined.

(** The same table, with the filtered table given. *)
Lemma empty_filter_fails_witness :
  clean_data table_few_games = ([], inr (table_few_games, stat_weights)) /\
  filter_games table_few_games
  = ([PrintFiltered 2 0], inr (select_rows [false; false] table_few_games)) /\
  len (select_rows [false; false] table_few_games) = 0%nat /\
  exists out e,
    analyze_lol_data stable_argsort (Loaded table_few_games) = (out, inl e).
Proof.
  split; [reflexivity|]. split; [exact filter_few_games|]. split; [reflexivity|].
  exact (empty_filter_fails stable_argsort table_few_games table_few_games
           (select_rows [false; false] table_few_games) stat_weights
           [] [PrintFiltered 2 0] eq_refl filter_few_games eq_refl).
Defined.

(** The filter keeps both rows of [table_kda_missing]. *)
Lemma filter_counts_add_up_witness :
  filter_games table_kda_missing = ([PrintFiltered 0 2], inr table_kda_missing) /\
  exists removed,
    [PrintFiltered 0 2] = [PrintFiltered removed (len table_kda_missing)] /\
    (removed + len table_kda_missing = len table_kda_missing)%nat.
Proof.
  split; [exact filter_kda_missing|].
  exact (filter_counts_add_up table_kda_missing table_kda_missing
           [PrintFiltered 0 2] filter_kda_missing).
Defined.

(** The [KDA] column of [table_kda_missing], with one gap. *)
Lemma imputation_gaps_witness :
  In "KDA" key_stats /\
  lookup "KDA" (columns table_kda_missing) = Some [Num 4; NaN] /\
  exists s',
    lookup "KDA" (columns (impute key_stats table_kda_missing)) = Some s' /\
    length s' = length [Num 4; NaN] /\
    (forall i x, nth_error [Num 4; NaN] i = Some (Num x) ->
                 nth_error s' i = Some (Num x)) /\
    (values [Num 4; NaN] <> [] ->
       count_na s' = 0%nat /\
       forall i, nth_error [Num 4; NaN] i = Some NaN ->
                 nth_error s' i = Some (Num (population_mean (values [Num 4; NaN])))) /\
    (values [Num 4; NaN] = [] -> s' = [Num 4; NaN]).
Proof.
  assert (H1 : In "KDA" key_stats) by apply stat_weights_keys.
  split; [exact H1|]. split; [reflexivity|].
  exact (imputation_gaps table_kda_missing "KDA" [Num 4; NaN] H1 eq_refl).
Defined.

(** The composite scores of [table_kda_missing] from its six z-scores. *)
Lemma composite_score_formula_witness :
  (forall c wt, In (c, wt) stat_weights ->
     lookup c (columns normalized_kda_missing)
     = Some (map Num (zscores_kda_missing c)) /\
     length (zscores_kda_missing c) = len imputed_kda_missing) /\
  exists df' cs,
    composite_score stat_weights normalized_kda_missing imputed_kda_missing
    = ([], inr df') /\
    lookup "CompositeScore" (columns df') = Some (map Num cs) /\
    length cs = len imputed_kda_missing /\
    forall i, nth i cs 0
              = Rsum (map (fun kv => nth i (zscores_kda_missing (fst kv)) 0 * snd kv)
                        stat_weights).
Proof.
  split; [exact normalized_kda_missing_zscores|].
  exact (composite_score_formula stat_weights normalized_kda_missing
           imputed_kda_missing zscores_kda_missing normalized_kda_missing_zscores).
Defined.

Lemma clean_kda_missing :
  clean_data table_kda_missing = ([], inr (table_kda_missing, stat_weights)).
Proof. reflexivity. Qed.

(** [VSPM] has no value in [table_vspm_missing]. *)
Lemma statistic_without_value_gives_nan_witness :
  clean_data table_vspm_missing = ([], inr (table_vspm_missing, stat_weights)) /\
  filter_games table_vspm_missing = ([PrintFiltered 0 2], inr table_vspm_missing) /\
  rate table_vspm_missing = ([PrintFiltered 0 2], inr rated_vspm_missing) /\
  In "VSPM" key_stats /\
  lookup "VSPM" (columns table_vspm_missing) = Some [NaN; NaN] /\
  values [NaN; NaN] = [] /\
  exists ratings,
    lookup "PlayerRating" (columns rated_vspm_missing) = Some ratings /\
    Forall (fun c => c = NaN) ratings.
Proof.
  split; [reflexivity|]. split; [exact filter_vspm_missing|].
  split; [exact rate_vspm_missing|]. split; [exact In_VSPM|].
  split; [reflexivity|]. split; [reflexivity|].
  exact (statistic_without_value_gives_nan table_vspm_missing table_vspm_missing
           table_vspm_missing rated_vspm_missing stat_weights [] [PrintFiltered 0 2]
           [PrintFiltered 0 2] "VSPM" [NaN; NaN] eq_refl filter_vspm_missing
           rate_vspm_missing In_VSPM eq_refl eq_refl).
Defined.

(** The report of [table_kda_missing] under the stable kernel. *)
Lemma report_rows_witness :
  argsort_spec stable_argsort /\
  well_formed table_kda_missing /\
  analyze_lol_data stable_argsort (Loaded table_kda_missing)
  = ([PrintLoading; PrintFiltered 0 2; PrintTop20 report_kda_missing], inr tt) /\
  exists o1 cleaned w filtered pre table,
    clean_data table_kda_missing = (o1, inr (cleaned, w)) /\
    filter_games cleaned
    = ([PrintFiltered (len cleaned - len filtered) (len filtered)], inr filtered) /\
    [PrintLoading; PrintFiltered 0 2; PrintTop20 report_kda_missing]
    = pre ++ [PrintTop20 table] /\
    map fst (columns table) = display_cols /\
    well_formed table /\
    len table = Nat.min 20 (len filtered) /\
    incl (index table) (index filtered) /\
    ((len filtered <= 20)%nat -> Permutation (index table) (index filtered)).
Proof.
  split; [exact stable_argsort_spec|].
  split; [exact table_kda_missing_well_formed|].
  split; [exact run_kda_missing|].
  exact (report_rows stable_argsort table_kda_missing _
           stable_argsort_spec table_kda_missing_well_formed run_kda_missing).
Defined.

(** The rated table of [table_kda_missing]. *)
Lemma other_columns_pass_through_witness :
  rate table_kda_missing = ([PrintFiltered 0 2], inr rated_kda_missing) /\
  exists g,
    lookup "Games" (columns table_kda_missing) = Some g /\
    index rated_kda_missing
    = compress (ge_mask g min_games) (index table_kda_missing) /\
    forall c, ~ In c key_stats -> c <> "Unnamed: 1" ->
              c <> "CompositeScore" -> c <> "PlayerRating" ->
      lookup c (columns rated_kda_missing)
      = option_map (compress (ge_mask g min_games))
          (lookup c (columns table_kda_missing)).
Proof.
  split; [exact rate_kda_missing|].
  exact (other_columns_pass_through table_kda_missing rated_kda_missing
           [PrintFiltered 0 2] rate_kda_missing).
Defined.



(** Every statistic of [table_kda_missing] has a value. *)
Lemma complete_table_composite_score_witness :
  well_formed table_kda_missing /\
  clean_data table_kda_missing = ([], inr (table_kda_missing, stat_weights)) /\
  filter_games table_kda_missing = ([PrintFiltered 0 2], inr table_kda_missing) /\
  rate table_kda_missing = ([PrintFiltered 0 2], inr rated_kda_missing) /\
  (forall c s, In c key_stats -> lookup c (columns table_kda_missing) = Some s ->
               values s <> []) /\
  exists (zs : string -> list R) (cs : list R),
    (forall c, In c key_stats ->
       exists s', lookup c (columns rated_kda_missing) = Some s' /\
                  standard_scale s' = map Num (zs c)) /\
    lookup "CompositeScore" (columns rated_kda_missing) = Some (map Num cs) /\
    length cs = len rated_kda_missing /\
    forall i, nth i cs 0
              = Rsum (map (fun kv => nth i (zs (fst kv)) 0 * snd kv) stat_weights).
Proof.
  split; [exact table_kda_missing_well_formed|]. split; [exact clean_kda_missing|].
  split; [exact filter_kda_missing|]. split; [exact rate_kda_missing|].
  split; [exact table_kda_missing_values|].
  exact (complete_table_composite_score table_kda_missing table_kda_missing
           table_kda_missing rated_kda_missing stat_weights [] [PrintFiltered 0 2]
           [PrintFiltered 0 2] table_kda_missing_well_formed clean_kda_missing
           filter_kda_missing rate_kda_missing table_kda_missing_values).
Defined.

(** The two composite scores of [table_kda_missing], in their order. *)
Lemma rating_monotone_witness :
  player_rating scored_kda_missing = ([], inr rated_kda_missing) /\
  lookup "CompositeScore" (columns scored_kda_missing)
  = Some [Num (-75 / 100); Num (75 / 100)] /\
  exists rs,
    lookup "PlayerRating" (columns rated_kda_missing) = Some rs /\
    length rs = length [Num (-75 / 100); Num (75 / 100)] /\
    forall i j x y,
      nth_error [Num (-75 / 100); Num (75 / 100)] i = Some (Num x) ->
      nth_error [Num (-75 / 100); Num (75 / 100)] j = Some (Num y) ->
      x <= y ->
      exists rx ry,
        nth_error rs i = Some (Num rx) /\ nth_error rs j = Some (Num ry) /\
        rx <= ry.
Proof.
  split; [exact rating_kda_missing|]. split; [reflexivity|].
  exact (rating_monotone scored_kda_missing rated_kda_missing []
           [Num (-75 / 100); Num (75 / 100)] rating_kda_missing eq_refl).
Defined.

Lemma rating_table_scored :
  player_rating table_scored
  = ([], inr (set_column "PlayerRating"
                (minmax_scale 0 100 [Num (-1); Num 2; Num 1]) table_scored)).
Proof. apply player_rating_runs; [reflexivity|reflexivity|discriminate]. Qed.

Lemma nanmin_table_scored : nanmin [Num (-1); Num 2; Num 1] = Some (-1).
Proof.
  unfold nanmin. simpl. f_equal.
  rewrite (Rmin_left (-1) 2) by lra. apply Rmin_left. lra.
Qed.

(** Three scores, the first the smallest. *)
Lemma lowest_score_rated_zero_witness :
  player_rating table_scored
  = ([], inr (set_column "PlayerRating"
                (minmax_scale 0 100 [Num (-1); Num 2; Num 1]) table_scored)) /\
  lookup "CompositeScore" (columns table_scored) = Some [Num (-1); Num 2; Num 1] /\
  nanmin [Num (-1); Num 2; Num 1] = Some (-1) /\
  exists rs,
    lookup "PlayerRating"
      (columns (set_column "PlayerRating"
                  (minmax_scale 0 100 [Num (-1); Num 2; Num 1]) table_scored))
    = Some rs /\
    (forall i, nth_error [Num (-1); Num 2; Num 1] i = Some (Num (-1)) ->
               nth_error rs i = Some (Num 0)) /\
    forall i x, nth_error [Num (-1); Num 2; Num 1] i = Some (Num x) ->
      exists r, nth_error rs i = Some (Num r) /\ 0 <= r.
Proof.
  split; [exact rating_table_scored|]. split; [reflexivity|].
  split; [exact nanmin_table_scored|].
  exact (lowest_score_rated_zero table_scored _ [] [Num (-1); Num 2; Num 1] (-1)
           rating_table_scored eq_refl nanmin_table_scored).
Defined.
